(** * study-sphere: request handlers and storage layer

    A shallow embedding of [server/routes.ts] and [server/storage.ts]
    (with the tables of [shared/schema.ts]) and the properties of the
    specification that concern them.

    Conventions of the embedding:
    - a JavaScript string is the list of its UTF-16 code units;
    - a JavaScript number is a binary64 value, kept exactly as
      sign, mantissa and binary exponent;
    - a table with a serial primary key is a finite map from the key to
      the remaining columns, together with the next value of its sequence;
    - storage calls live in a state-and-exception monad over the database,
      a rejected promise being an exception; every handler closes its
      [try]/[catch] by turning an exception into its 500 answer. *)

From Stdlib Require Import ZArith NArith Ascii String List Lia Bool.
From stdpp Require Import base option list gmap sorting.

Local Open Scope Z_scope.

(** ** Strings *)

Abbreviation jsstring := (list N).

(** The code units of an ASCII literal. *)
Definition js (s : string) : jsstring :=
  (fun a => N_of_ascii a) <$> list_ascii_of_string s.

(** The same with every apostrophe read as a double quote, to write JSON
    texts as literals. *)
Definition jsq (s : string) : jsstring :=
  (fun c => if N.eqb c 39 then 34%N else c) <$> js s.

(** [s.substring(0, n)] *)
Definition substring0 (n : nat) (s : jsstring) : jsstring := take n s.

Fixpoint span {A} (p : A -> bool) (l : list A) : list A * list A :=
  match l with
  | [] => ([], [])
  | x :: l' => if p x then let '(a, b) := span p l' in (x :: a, b) else ([], l)
  end.

Definition is_digit (c : N) : bool := (48 <=? c)%N && (c <=? 57)%N.

Definition digit_val (c : N) : Z := Z.of_N c - 48.

(** The value of a run of decimal digits, most significant first. *)
Definition digits_val (ds : list N) : Z :=
  fold_left (fun acc c => 10 * acc + digit_val c) ds 0.

(** The decimal digits of a natural number, most significant first. *)
Fixpoint digits_fuel (fuel : nat) (z : Z) (acc : list N) : list N :=
  match fuel with
  | O => acc
  | S f =>
      let acc' := Z.to_N (48 + z mod 10) :: acc in
      if z <? 10 then acc' else digits_fuel f (z / 10) acc'
  end.

Definition digits_of (z : Z) : list N :=
  digits_fuel (S (Z.to_nat (Z.log2 z))) z [].

(** ** Numbers *)

Module Number.

(** A binary64 value: [Finite neg m e] is [(-1)^neg * m * 2^e]. *)
Inductive t :=
| NaN
| Infinity (neg : bool)
| Finite (neg : bool) (m : N) (e : Z).

Definition isNaN (x : t) : bool :=
  match x with NaN => true | _ => false end.

(** ToBoolean on a number: false on +0, -0 and NaN. *)
Definition truthy (x : t) : bool :=
  match x with
  | NaN => false
  | Infinity _ => true
  | Finite _ m _ => negb (N.eqb m 0)
  end.

(** The integer a number denotes, when it denotes one. *)
Definition to_Z (x : t) : option Z :=
  match x with
  | Finite neg m e =>
      let v := if neg then - Z.of_N m else Z.of_N m in
      if 0 <=? e then Some (v * 2 ^ e)
      else if Z.of_N m mod 2 ^ (- e) =? 0 then Some (v / 2 ^ (- e))
      else None
  | _ => None
  end.

(** [Number.isInteger] *)
Definition isInteger (x : t) : bool :=
  match to_Z x with Some _ => true | None => false end.

(** [a / b >= 2^k], for positive [a] and [b]. *)
Definition ratio_ge_pow2 (a b k : Z) : bool :=
  b * 2 ^ Z.max 0 k <=? a * 2 ^ Z.max 0 (- k).

(** Rounding of the positive rational [a / b] to the nearest binary64
    value, ties to even: the mantissa is taken at the exponent that
    leaves 53 bits, not below the subnormal exponent -1074, and a result
    of 2^1024 or more is infinite. *)
Definition round_ratio (neg : bool) (a b : Z) : t :=
  if a <=? 0 then Finite neg 0 0 else
  let l := Z.log2 a - Z.log2 b in
  let fl := if ratio_ge_pow2 a b l then l else l - 1 in
  let e := Z.max (fl - 52) (-1074) in
  let n := a * 2 ^ Z.max 0 (- e) in
  let d := b * 2 ^ Z.max 0 e in
  let q := n / d in
  let r := n mod d in
  let m := if d <? 2 * r then q + 1
           else if (d =? 2 * r) && Z.odd q then q + 1
           else q in
  if 2 ^ 1024 <=? m * 2 ^ Z.max 0 e then Infinity neg
  else Finite neg (Z.to_N m) e.

(** The number nearest to [m * 10^e], for [m >= 0]. *)
Definition of_decimal (neg : bool) (m e : Z) : t :=
  if 0 <=? e then round_ratio neg (m * 10 ^ e) 1
  else round_ratio neg m (10 ^ (- e)).

Definition of_Z (z : Z) : t := round_ratio (z <? 0) (Z.abs z) 1.

(** The same magnitude, for finite values. *)
Definition same_abs (x y : t) : bool :=
  match x, y with
  | Finite _ m1 e1, Finite _ m2 e2 =>
      Z.of_N m1 * 2 ^ Z.max 0 (e1 - e2) =? Z.of_N m2 * 2 ^ Z.max 0 (e2 - e1)
  | Infinity _, Infinity _ => true
  | _, _ => false
  end.

(** [x <= z] and [z <= x] against an integer, for the range checks. *)
Definition leb_Z (x : t) (z : Z) : bool :=
  match x with
  | NaN => false
  | Infinity neg => neg
  | Finite neg m e =>
      let v := if neg then - Z.of_N m else Z.of_N m in
      v * 2 ^ Z.max 0 e <=? z * 2 ^ Z.max 0 (- e)
  end.

Definition geb_Z (x : t) (z : Z) : bool :=
  match x with
  | NaN => false
  | Infinity neg => negb neg
  | Finite neg m e =>
      let v := if neg then - Z.of_N m else Z.of_N m in
      z * 2 ^ Z.max 0 (- e) <=? v * 2 ^ Z.max 0 e
  end.

(** *** Number::toString, radix 10 *)

(** [10^k <= m * 2^e], for [m > 0]. *)
Definition pow10_le (k : Z) (m e : Z) : bool :=
  10 ^ Z.max 0 k * 2 ^ Z.max 0 (- e) <=? m * 2 ^ Z.max 0 e * 10 ^ Z.max 0 (- k).

(** The [n] with [10^(n-1) <= m * 2^e < 10^n]. *)
Definition decimal_exponent (m e : Z) : Z :=
  let lg := Z.log2 m + e in
  let est := lg * 30103 / 100000 in
  let cands := (fun i => est + i) <$> [3; 2; 1; 0; -1; -2] in
  match List.find (fun k => pow10_le k m e) cands with
  | Some k => k + 1
  | None => est
  end.

(** [floor (m * 2^e * 10^p)] *)
Definition scaled_floor (m e p : Z) : Z :=
  (m * 2 ^ Z.max 0 e * 10 ^ Z.max 0 p) / (2 ^ Z.max 0 (- e) * 10 ^ Z.max 0 (- p)).

(** Twice the distance of [s * 10^(-p)] to [m * 2^e], scaled to an integer
    by the common denominator. *)
Definition scaled_dist (m e p s : Z) : Z :=
  Z.abs (s * 2 ^ Z.max 0 (- e) * 10 ^ Z.max 0 (- p)
         - m * 2 ^ Z.max 0 e * 10 ^ Z.max 0 p).

(** The digits [s], their number [k] and the exponent [n] of the shortest
    decimal that reads back as [x = m * 2^e]: for the least [k] that has
    one, the candidate nearest to [x], the even one on a tie. *)
Definition shortest (m : N) (e : Z) : Z * Z * Z :=
  let x := Finite false m e in
  let mz := Z.of_N m in
  let n := decimal_exponent mz e in
  let try (k : Z) : option (Z * Z * Z) :=
    let p := k - n in
    let lo := scaled_floor mz e p in
    let hi := lo + 1 in
    let ok_lo := same_abs (of_decimal false lo (- p)) x in
    let ok_hi := same_abs (of_decimal false hi (- p)) x in
    let pick (s : Z) :=
      if s =? 10 ^ k then Some (10 ^ (k - 1), k, n + 1) else Some (s, k, n) in
    match ok_lo, ok_hi with
    | true, true =>
        let dl := scaled_dist mz e p lo in
        let dh := scaled_dist mz e p hi in
        if dl <? dh then pick lo
        else if dh <? dl then pick hi
        else if Z.even lo then pick lo else pick hi
    | true, false => pick lo
    | false, true => pick hi
    | false, false => None
    end in
  let fix search (ks : list Z) : Z * Z * Z :=
    match ks with
    | [] => (scaled_floor mz e (17 - n), 17, n)
    | k :: ks' => match try k with Some r => r | None => search ks' end
    end in
  search [1; 2; 3; 4; 5; 6; 7; 8; 9; 10; 11; 12; 13; 14; 15; 16; 17].

Definition zeros (n : Z) : list N := replicate (Z.to_nat n) 48%N.

Definition format (s k n : Z) : jsstring :=
  let ds := digits_of s in
  if (k <=? n) && (n <=? 21) then ds ++ zeros (n - k)
  else if (0 <? n) && (n <=? 21) then
    take (Z.to_nat n) ds ++ [46%N] ++ drop (Z.to_nat n) ds
  else if (-6 <? n) && (n <=? 0) then
    [48%N; 46%N] ++ zeros (- n) ++ ds
  else
    let sign := if 0 <? n - 1 then 43%N else 45%N in
    let ex := digits_of (Z.abs (n - 1)) in
    if k =? 1 then ds ++ [101%N; sign] ++ ex
    else take 1 ds ++ [46%N] ++ drop 1 ds ++ [101%N; sign] ++ ex.

Definition toString (x : t) : jsstring :=
  match x with
  | NaN => js "NaN"
  | Infinity neg => (if neg then [45%N] else []) ++ js "Infinity"
  | Finite neg m e =>
      if N.eqb m 0 then js "0"
      else
        let '(s, k, n) := shortest m e in
        (if neg then [45%N] else []) ++ format s k n
  end.

End Number.

Abbreviation number := Number.t.

(** ** Values *)

#[warnings="-register-all"]
Inductive jsval :=
| JUndefined
| JNull
| JBool (b : bool)
| JNum (x : number)
| JStr (s : jsstring)
| JArr (elems : list jsval)
| JObj (props : list (jsstring * jsval)).

Definition jsstring_eqb (a b : jsstring) : bool := bool_decide (a = b).

(** Own property of an object read from JSON: of several members with one
    name the last one counts. *)
Definition own_prop (props : list (jsstring * jsval)) (k : jsstring) : option jsval :=
  snd <$> List.find (fun p => jsstring_eqb (fst p) k) (rev props).

(** ToBoolean *)
Definition truthy (v : jsval) : bool :=
  match v with
  | JUndefined | JNull => false
  | JBool b => b
  | JNum x => Number.truthy x
  | JStr s => negb (jsstring_eqb s [])
  | JArr _ | JObj _ => true
  end.

(** [a || b] *)
Definition js_or (a b : jsval) : jsval := if truthy a then a else b.

(** [v.k] for a name [k] that no prototype defines and that is no index:
    a TypeError ([None]) on [null] and [undefined], the own property of an
    object, [undefined] on everything else. *)
Definition get_prop (v : jsval) (k : jsstring) : option jsval :=
  match v with
  | JUndefined | JNull => None
  | JObj props => Some (default JUndefined (own_prop props k))
  | _ => Some JUndefined
  end.

Fixpoint join_with (sep : jsstring) (parts : list jsstring) : jsstring :=
  match parts with
  | [] => []
  | [p] => p
  | p :: ps => p ++ sep ++ join_with sep ps
  end.

(** [String(v)]: [None] is the TypeError of an object whose own [toString]
    member (never callable, coming from JSON) hides the inherited one. *)
Fixpoint ToString (v : jsval) : option jsstring :=
  match v with
  | JUndefined => Some (js "undefined")
  | JNull => Some (js "null")
  | JBool b => Some (if b then js "true" else js "false")
  | JNum x => Some (Number.toString x)
  | JStr s => Some s
  | JArr l =>
      join_with [44%N] <$>
        mapM (fun e => match e with
                       | JUndefined | JNull => Some []
                       | _ => ToString e
                       end) l
  | JObj props =>
      match own_prop props (js "toString") with
      | Some _ => None
      | None => Some (js "[object Object]")
      end
  end.

(** ** JSON.parse *)

Module JSON.

Inductive token :=
| TLBrack | TRBrack | TLBrace | TRBrace | TComma | TColon
| TValue (v : jsval).

(** The scanner reads one code unit at a time. *)
Inductive lex_state :=
| LIdle
| LString (acc : list N)
| LEscape (acc : list N)
| LUnicode (acc : list N) (hex : list Z)
| LNumber (acc : list N)
| LLiteral (rest : list N) (v : jsval).

Definition is_ws (c : N) : bool :=
  N.eqb c 32 || N.eqb c 9 || N.eqb c 10 || N.eqb c 13.

Definition is_number_char (c : N) : bool :=
  is_digit c || N.eqb c 45 || N.eqb c 43 || N.eqb c 46 || N.eqb c 101 || N.eqb c 69.

Definition hex_val (c : N) : option Z :=
  if is_digit c then Some (Z.of_N c - 48)
  else if (97 <=? c)%N && (c <=? 102)%N then Some (Z.of_N c - 87)
  else if (65 <=? c)%N && (c <=? 70)%N then Some (Z.of_N c - 55)
  else None.

(** A number: an optional minus, then 0 or a run of digits that does not
    start with 0, then optionally a point and digits, then optionally an
    exponent mark, a sign and digits. *)
Definition parse_number (s : list N) : option number :=
  let '(neg, s1) := match s with
                    | c :: r => if N.eqb c 45 then (true, r) else (false, s)
                    | [] => (false, s)
                    end in
  let '(int, s2) := span is_digit s1 in
  let int_ok := match int with
                | [] => false
                | c :: r => negb (N.eqb c 48) || bool_decide (r = [])
                end in
  let frac := match s2 with
              | c :: r =>
                  if N.eqb c 46 then
                    let '(fr, s3) := span is_digit r in
                    if bool_decide (fr = []) then None else Some (fr, s3)
                  else Some ([], s2)
              | [] => Some ([], s2)
              end in
  match frac with
  | None => None
  | Some (fr, s3) =>
      let ex := match s3 with
                | [] => Some 0
                | c :: r =>
                    if N.eqb c 101 || N.eqb c 69 then
                      let '(eneg, r') :=
                        match r with
                        | d :: r'' =>
                            if N.eqb d 43 then (false, r'')
                            else if N.eqb d 45 then (true, r'')
                            else (false, r)
                        | [] => (false, r)
                        end in
                      let '(ed, rest) := span is_digit r' in
                      if bool_decide (ed = []) || negb (bool_decide (rest = [])) then None
                      else Some (if eneg then - digits_val ed else digits_val ed)
                    else None
                end in
      match ex with
      | None => None
      | Some e =>
          if int_ok
          then Some (Number.of_decimal neg (digits_val (int ++ fr)) (e - Z.of_nat (length fr)))
          else None
      end
  end.

Definition lex_idle (c : N) : option (list token * lex_state) :=
  if is_ws c then Some ([], LIdle)
  else if N.eqb c 91 then Some ([TLBrack], LIdle)
  else if N.eqb c 93 then Some ([TRBrack], LIdle)
  else if N.eqb c 123 then Some ([TLBrace], LIdle)
  else if N.eqb c 125 then Some ([TRBrace], LIdle)
  else if N.eqb c 44 then Some ([TComma], LIdle)
  else if N.eqb c 58 then Some ([TColon], LIdle)
  else if N.eqb c 34 then Some ([], LString [])
  else if N.eqb c 45 || is_digit c then Some ([], LNumber [c])
  else if N.eqb c 116 then Some ([], LLiteral (js "rue") (JBool true))
  else if N.eqb c 102 then Some ([], LLiteral (js "alse") (JBool false))
  else if N.eqb c 110 then Some ([], LLiteral (js "ull") JNull)
  else None.

Definition lex_step (st : lex_state) (c : N) : option (list token * lex_state) :=
  match st with
  | LIdle => lex_idle c
  | LString acc =>
      if N.eqb c 34 then Some ([TValue (JStr (rev acc))], LIdle)
      else if N.eqb c 92 then Some ([], LEscape acc)
      else if (c <? 32)%N then None
      else Some ([], LString (c :: acc))
  | LEscape acc =>
      if N.eqb c 34 || N.eqb c 92 || N.eqb c 47 then Some ([], LString (c :: acc))
      else if N.eqb c 98 then Some ([], LString (8%N :: acc))
      else if N.eqb c 102 then Some ([], LString (12%N :: acc))
      else if N.eqb c 110 then Some ([], LString (10%N :: acc))
      else if N.eqb c 114 then Some ([], LString (13%N :: acc))
      else if N.eqb c 116 then Some ([], LString (9%N :: acc))
      else if N.eqb c 117 then Some ([], LUnicode acc [])
      else None
  | LUnicode acc hex =>
      match hex_val c with
      | None => None
      | Some h =>
          let hex' := hex ++ [h] in
          if (length hex' =? 4)%nat
          then Some ([], LString (Z.to_N (fold_left (fun a d => 16 * a + d) hex' 0) :: acc))
          else Some ([], LUnicode acc hex')
      end
  | LNumber acc =>
      if is_number_char c then Some ([], LNumber (c :: acc))
      else
        match parse_number (rev acc), lex_idle c with
        | Some x, Some (toks, st') => Some (TValue (JNum x) :: toks, st')
        | _, _ => None
        end
  | LLiteral rest v =>
      match rest with
      | r :: rest' =>
          if N.eqb c r
          then match rest' with
               | [] => Some ([TValue v], LIdle)
               | _ => Some ([], LLiteral rest' v)
               end
          else None
      | [] => None
      end
  end.

Definition lex_end (st : lex_state) : option (list token) :=
  match st with
  | LIdle => Some []
  | LNumber acc => (fun x => [TValue (JNum x)]) <$> parse_number (rev acc)
  | _ => None
  end.

Fixpoint lex (st : lex_state) (s : list N) : option (list token) :=
  match s with
  | [] => lex_end st
  | c :: s' =>
      match lex_step st c with
      | None => None
      | Some (toks, st') => (fun r => toks ++ r) <$> lex st' s'
      end
  end.

(** The parser keeps the open arrays and objects on a stack. *)
Inductive frame :=
| FArr (acc : list jsval)
| FObj (acc : list (jsstring * jsval)) (key : option jsstring).

Inductive mode :=
| MValue | MValueOrEnd | MKeyOrEnd | MKey | MColon | MAfter
| MDone (v : jsval).

Definition complete (v : jsval) (stack : list frame) : option (list frame * mode) :=
  match stack with
  | [] => Some ([], MDone v)
  | FArr acc :: st => Some (FArr (v :: acc) :: st, MAfter)
  | FObj acc (Some k) :: st => Some (FObj ((k, v) :: acc) None :: st, MAfter)
  | FObj _ None :: _ => None
  end.

Definition set_key (k : jsstring) (stack : list frame) : option (list frame * mode) :=
  match stack with
  | FObj acc None :: st => Some (FObj acc (Some k) :: st, MColon)
  | _ => None
  end.

Definition parse_step (ps : list frame * mode) (tok : token) : option (list frame * mode) :=
  let '(stack, m) := ps in
  match m, tok with
  | (MValue | MValueOrEnd), TValue v => complete v stack
  | (MValue | MValueOrEnd), TLBrack => Some (FArr [] :: stack, MValueOrEnd)
  | (MValue | MValueOrEnd), TLBrace => Some (FObj [] None :: stack, MKeyOrEnd)
  | MValueOrEnd, TRBrack =>
      match stack with
      | FArr _ :: st => complete (JArr []) st
      | _ => None
      end
  | (MKeyOrEnd | MKey), TValue (JStr k) => set_key k stack
  | MKeyOrEnd, TRBrace =>
      match stack with
      | FObj _ _ :: st => complete (JObj []) st
      | _ => None
      end
  | MColon, TColon => Some (stack, MValue)
  | MAfter, TComma =>
      match stack with
      | FArr _ :: _ => Some (stack, MValue)
      | FObj _ _ :: _ => Some (stack, MKey)
      | [] => None
      end
  | MAfter, TRBrack =>
      match stack with
      | FArr acc :: st => complete (JArr (rev acc)) st
      | _ => None
      end
  | MAfter, TRBrace =>
      match stack with
      | FObj acc _ :: st => complete (JObj (rev acc)) st
      | _ => None
      end
  | _, _ => None
  end.

Fixpoint parse_tokens (ps : list frame * mode) (toks : list token) : option jsval :=
  match toks with
  | [] => match ps with (_, MDone v) => Some v | _ => None end
  | t :: toks' =>
      match parse_step ps t with
      | None => None
      | Some ps' => parse_tokens ps' toks'
      end
  end.

(** [JSON.parse(text)]: [None] is the SyntaxError. *)
Definition parse (text : jsstring) : option jsval :=
  match lex LIdle text with
  | None => None
  | Some toks => parse_tokens ([], MValue) toks
  end.

End JSON.

(** ** parseInt and path.extname *)

(** StrWhiteSpaceChar *)
Definition is_str_ws (c : N) : bool :=
  bool_decide (c ∈ [9; 10; 11; 12; 13; 32; 160; 5760; 8232; 8233; 8239; 8287;
                    12288; 65279]%N)
  || (8192 <=? c)%N && (c <=? 8202)%N.

(** [parseInt(s)] without a radix: leading white space and a sign are
    skipped, [0x] selects radix 16, the longest run of digits is read, and
    no digit at all gives NaN. The integer read is rounded to a number. *)
Definition parseInt (s : jsstring) : number :=
  let s1 := snd (span is_str_ws s) in
  let '(neg, s2) := match s1 with
                    | c :: r => if N.eqb c 45 then (true, r)
                                else if N.eqb c 43 then (false, r)
                                else (false, s1)
                    | [] => (false, s1)
                    end in
  let '(hex, s3) := match s2 with
                    | c :: d :: r =>
                        if N.eqb c 48 && (N.eqb d 120 || N.eqb d 88)
                        then (true, r) else (false, s2)
                    | _ => (false, s2)
                    end in
  if hex then
    let ds := fst (span (fun c => bool_decide (is_Some (JSON.hex_val c))) s3) in
    match ds with
    | [] => Number.NaN
    | _ => Number.round_ratio neg
             (fold_left (fun a c => 16 * a + default 0 (JSON.hex_val c)) ds 0) 1
    end
  else
    let ds := fst (span is_digit s3) in
    match ds with
    | [] => Number.NaN
    | _ => Number.round_ratio neg (digits_val ds) 1
    end.

(** [path.extname] (posix): the part of the last path component from its
    last dot on; empty when there is no dot, when the component starts with
    that dot, and for the component [..]. *)
Definition extname (p : jsstring) : jsstring :=
  let slash := fun c => N.eqb c 47 in
  let r := snd (span slash (rev p)) in
  let rbase := fst (span (fun c => negb (slash c)) r) in
  let '(rafter, rest) := span (fun c => negb (N.eqb c 46)) rbase in
  match rest with
  | [] => []
  | _dot :: rpre =>
      match rev rpre with
      | [] => []
      | c :: pre' =>
          if N.eqb c 46 && bool_decide (rafter = []) && bool_decide (pre' = [])
          then []
          else 46%N :: rev rafter
      end
  end.

(** ** Schema validation (zod) *)

Module z.

(** A schema accepts a value, giving the parsed datum, or rejects it. *)
Definition schema (A : Type) : Type := jsval -> option A.

(** What an optional or nullable member holds. *)
Inductive maybe (A : Type) :=
| undefined
| null
| just (a : A).
Arguments undefined {A}.
Arguments null {A}.
Arguments just {A} a.

(** [z.string().min(lo).max(hi)] *)
Definition string (lo : nat) (hi : option nat) : schema jsstring :=
  fun v =>
    match v with
    | JStr s =>
        if (lo <=? length s)%nat
           && match hi with Some h => (length s <=? h)%nat | None => true end
        then Some s else None
    | _ => None
    end.

(** [z.number().int()] with optional [.min(lo)] and [.max(hi)] *)
Definition number_int (lo hi : option Z) : schema number :=
  fun v =>
    match v with
    | JNum x =>
        if negb (Number.isNaN x) && Number.isInteger x
           && match lo with Some l => Number.geb_Z x l | None => true end
           && match hi with Some h => Number.leb_Z x h | None => true end
        then Some x else None
    | _ => None
    end.

(** [z.boolean()] *)
Definition boolean : schema bool :=
  fun v => match v with JBool b => Some b | _ => None end.

(** [z.enum([...])], each literal paired with the constructor it denotes *)
Definition enum {A} (opts : list (String.string * A)) : schema A :=
  fun v =>
    match v with
    | JStr s => snd <$> List.find (fun o => jsstring_eqb (js (fst o)) s) opts
    | _ => None
    end.

(** [.optional()] *)
Definition optional {A} (s : schema A) : schema (maybe A) :=
  fun v => match v with JUndefined => Some undefined | _ => just <$> s v end.

(** [.nullable()] on an optional schema *)
Definition nullable {A} (s : schema (maybe A)) : schema (maybe A) :=
  fun v => match v with JNull => Some null | _ => s v end.

(** [.optional()] on a schema that is optional or nullable already, as
    [.partial()] wraps such members *)
Definition optional' {A} (s : schema (maybe A)) : schema (maybe A) :=
  fun v => match v with JUndefined => Some undefined | _ => s v end.

(** The member [k] of the object under validation. *)
Definition member (props : list (jsstring * jsval)) (k : String.string) : jsval :=
  default JUndefined (own_prop props (js k)).

End z.

Import z(maybe, undefined, null, just).

(** [v || d] on a string member: [d] for undefined, null and the empty string. *)
Definition string_or {A} (v : maybe jsstring) (f : jsstring -> A) (d : A) : A :=
  match v with
  | just s => if jsstring_eqb s [] then d else f s
  | _ => d
  end.

(** [v || d] on a number member. *)
Definition number_or {A} (v : maybe number) (f : number -> A) (d : A) : A :=
  match v with
  | just x => if Number.truthy x then f x else d
  | _ => d
  end.

(** [v || d] on a member whose values are all truthy. *)
Definition maybe_or {A} (v : maybe A) (d : A) : A :=
  match v with just a => a | _ => d end.

(** ** Tables *)

Inductive Role := student | admin.
Inductive Priority := low | medium | high.
Inductive Status := pending | in_progress | completed.

Global Instance Role_eq_dec : EqDecision Role.
Proof. solve_decision. Defined.
Global Instance Priority_eq_dec : EqDecision Priority.
Proof. solve_decision. Defined.
Global Instance Status_eq_dec : EqDecision Status.
Proof. solve_decision. Defined.

(** A [Date] object: its time value in milliseconds, or the invalid date. *)
Inductive Date :=
| InvalidDate
| DateAt (t : Z).

Module UserProfile.
Record t := mk {
  id : Z;
  role : Role;
  studyGoal : option jsstring;
  preferredSubjects : option jsstring;
  dailyStudyTarget : option Z;
}.
End UserProfile.

Module Task.
Record t := mk {
  userId : jsstring;
  title : jsstring;
  description : option jsstring;
  subject : option jsstring;
  priority : Priority;
  status : Status;
  dueDate : option Z;
  estimatedMinutes : option Z;
  completedAt : option Z;
  createdAt : Z;
}.
End Task.

Module PomodoroSession.
Record t := mk {
  userId : jsstring;
  taskId : option Z;
  duration : Z;
  breakDuration : Z;
  completed : bool;
  startedAt : Z;
  endedAt : option Z;
}.
End PomodoroSession.

(** The columns [subject], [type] and [priority] are text columns that the
    handler fills with values of any shape; a row keeps the value it was
    handed. *)
Module StudyRecommendation.
Record t := mk {
  userId : jsstring;
  title : jsstring;
  description : jsstring;
  subject : jsval;
  type : jsval;
  priority : jsval;
  dismissed : bool;
  createdAt : Z;
}.
End StudyRecommendation.

Module FileUpload.
Record t := mk {
  userId : jsstring;
  filename : jsstring;
  originalName : jsstring;
  mimeType : jsstring;
  size : Z;
  taskId : option Z;
  createdAt : Z;
}.
End FileUpload.

Module Notification.
Record t := mk {
  userId : jsstring;
  title : jsstring;
  message : jsstring;
  type : jsstring;
  read : bool;
  createdAt : Z;
}.
End Notification.

(** Modelled from the spec: the [users] table of [shared/models/auth.ts],
    which is not part of the sources; the specification gives a user an id,
    an email, a name and an image. *)
Module User.
Record t := mk {
  id : jsstring;
  email : option jsstring;
  name : option jsstring;
  image : option jsstring;
}.
End User.

(** The database and the upload directory. Profiles are keyed by their
    unique [userId]; every other table by its serial [id]. *)
Record Store := mkStore {
  users : list User.t;
  userProfiles : gmap jsstring UserProfile.t;
  userProfiles_seq : Z;
  tasks : gmap Z Task.t;
  tasks_seq : Z;
  pomodoroSessions : gmap Z PomodoroSession.t;
  pomodoroSessions_seq : Z;
  studyRecommendations : gmap Z StudyRecommendation.t;
  studyRecommendations_seq : Z;
  fileUploads : gmap Z FileUpload.t;
  fileUploads_seq : Z;
  notifications : gmap Z Notification.t;
  notifications_seq : Z;
  uploads : gset jsstring;
}.

Definition empty_store : Store :=
  mkStore [] ∅ 1 ∅ 1 ∅ 1 ∅ 1 ∅ 1 ∅ 1 ∅.

Definition with_userProfiles (f : gmap jsstring UserProfile.t -> gmap jsstring UserProfile.t)
    (bump : Z) (st : Store) : Store :=
  mkStore (users st) (f (userProfiles st)) (userProfiles_seq st + bump)
    (tasks st) (tasks_seq st) (pomodoroSessions st) (pomodoroSessions_seq st)
    (studyRecommendations st) (studyRecommendations_seq st)
    (fileUploads st) (fileUploads_seq st) (notifications st) (notifications_seq st)
    (uploads st).

Definition with_tasks (f : gmap Z Task.t -> gmap Z Task.t) (bump : Z) (st : Store) : Store :=
  mkStore (users st) (userProfiles st) (userProfiles_seq st)
    (f (tasks st)) (tasks_seq st + bump) (pomodoroSessions st) (pomodoroSessions_seq st)
    (studyRecommendations st) (studyRecommendations_seq st)
    (fileUploads st) (fileUploads_seq st) (notifications st) (notifications_seq st)
    (uploads st).

Definition with_pomodoroSessions
    (f : gmap Z PomodoroSession.t -> gmap Z PomodoroSession.t) (bump : Z) (st : Store) : Store :=
  mkStore (users st) (userProfiles st) (userProfiles_seq st)
    (tasks st) (tasks_seq st) (f (pomodoroSessions st)) (pomodoroSessions_seq st + bump)
    (studyRecommendations st) (studyRecommendations_seq st)
    (fileUploads st) (fileUploads_seq st) (notifications st) (notifications_seq st)
    (uploads st).

Definition with_studyRecommendations
    (f : gmap Z StudyRecommendation.t -> gmap Z StudyRecommendation.t) (bump : Z)
    (st : Store) : Store :=
  mkStore (users st) (userProfiles st) (userProfiles_seq st)
    (tasks st) (tasks_seq st) (pomodoroSessions st) (pomodoroSessions_seq st)
    (f (studyRecommendations st)) (studyRecommendations_seq st + bump)
    (fileUploads st) (fileUploads_seq st) (notifications st) (notifications_seq st)
    (uploads st).

Definition with_fileUploads (f : gmap Z FileUpload.t -> gmap Z FileUpload.t) (bump : Z)
    (st : Store) : Store :=
  mkStore (users st) (userProfiles st) (userProfiles_seq st)
    (tasks st) (tasks_seq st) (pomodoroSessions st) (pomodoroSessions_seq st)
    (studyRecommendations st) (studyRecommendations_seq st)
    (f (fileUploads st)) (fileUploads_seq st + bump) (notifications st) (notifications_seq st)
    (uploads st).

Definition with_notifications (f : gmap Z Notification.t -> gmap Z Notification.t) (bump : Z)
    (st : Store) : Store :=
  mkStore (users st) (userProfiles st) (userProfiles_seq st)
    (tasks st) (tasks_seq st) (pomodoroSessions st) (pomodoroSessions_seq st)
    (studyRecommendations st) (studyRecommendations_seq st)
    (fileUploads st) (fileUploads_seq st) (f (notifications st)) (notifications_seq st + bump)
    (uploads st).

Definition with_uploads (f : gset jsstring -> gset jsstring) (st : Store) : Store :=
  mkStore (users st) (userProfiles st) (userProfiles_seq st)
    (tasks st) (tasks_seq st) (pomodoroSessions st) (pomodoroSessions_seq st)
    (studyRecommendations st) (studyRecommendations_seq st)
    (fileUploads st) (fileUploads_seq st) (notifications st) (notifications_seq st)
    (f (uploads st)).

(** ** The storage monad *)

Inductive outcome (A : Type) :=
| Return (a : A)
| Throw.
Arguments Return {A} a.
Arguments Throw {A}.

Definition M (A : Type) : Type := Store -> outcome A * Store.

Global Instance M_ret : MRet M := fun A a st => (Return a, st).

Global Instance M_bind : MBind M := fun A B f m st =>
  match m st with
  | (Return a, st') => f a st'
  | (Throw, st') => (Throw, st')
  end.

Definition throw {A} : M A := fun st => (Throw, st).
Definition gets {A} (f : Store -> A) : M A := fun st => (Return (f st), st).
Definition modify (f : Store -> Store) : M unit := fun st => (Return tt, f st).

(** A value the database refuses makes the statement fail. *)
Definition required {A} (o : option A) : M A :=
  match o with Some a => mret a | None => throw end.

(** ** The environment of a request *)

(** The figures the recommendation prompt is built from. *)
Module Prompt.
Record t := mk {
  totalTasks : nat;
  completedTasks : nat;
  pendingTasks : nat;
  totalStudyMin : Z;
  subjects : list jsstring;
  sessions : nat;
}.
End Prompt.

(** What the provider call gives: it throws, or it answers with a message
    content, which may be missing. *)
Inductive Completion :=
| ApiError
| Content (c : option jsstring).

Record Env := mkEnv {
  (** the server clock, read by [new Date()] and [Date.now()] *)
  Date_now : Z;
  (** the database clock, read by [defaultNow()] *)
  db_now : Z;
  (** [new Date(s)] on a string *)
  new_Date : jsstring -> Date;
  (** [Math.round(Math.random() * 1E9)] *)
  Math_random : Z;
  (** [process.env.AI_INTEGRATIONS_OPENAI_API_KEY] *)
  AI_INTEGRATIONS_OPENAI_API_KEY : option jsstring;
  (** [openai.chat.completions.create], seen from the prompt *)
  chat_completions_create : Prompt.t -> Completion;
}.

(** ** Members handed to the storage layer *)

Abbreviation row A := (Z * A)%type.

Module InsertUserProfile.
Record t := mk {
  userId : jsstring;
  role : maybe Role;
  studyGoal : maybe jsstring;
  preferredSubjects : maybe jsstring;
  dailyStudyTarget : maybe Z;
}.
End InsertUserProfile.

Module InsertTask.
Record t := mk {
  userId : jsstring;
  title : jsstring;
  description : maybe jsstring;
  subject : maybe jsstring;
  priority : maybe Priority;
  status : maybe Status;
  dueDate : maybe Date;
  estimatedMinutes : maybe number;
}.
End InsertTask.

(** [Partial<InsertTask>] *)
Module PartialInsertTask.
Record t := mk {
  userId : maybe jsstring;
  title : maybe jsstring;
  description : maybe jsstring;
  subject : maybe jsstring;
  priority : maybe Priority;
  status : maybe Status;
  dueDate : maybe Date;
  estimatedMinutes : maybe number;
}.
End PartialInsertTask.

Module InsertPomodoro.
Record t := mk {
  userId : jsstring;
  taskId : maybe number;
  duration : maybe number;
  breakDuration : maybe number;
  completed : maybe bool;
}.
End InsertPomodoro.

Module InsertRecommendation.
Record t := mk {
  userId : jsstring;
  title : jsstring;
  description : jsstring;
  subject : jsval;
  type : jsval;
  priority : jsval;
  dismissed : bool;
}.
End InsertRecommendation.

Module InsertFileUpload.
Record t := mk {
  userId : jsstring;
  filename : jsstring;
  originalName : jsstring;
  mimeType : jsstring;
  size : Z;
  taskId : option number;
}.
End InsertFileUpload.

Module InsertNotification.
Record t := mk {
  userId : jsstring;
  title : jsstring;
  message : jsstring;
  type : maybe jsstring;
  read : maybe bool;
}.
End InsertNotification.

(** ** Columns *)

(** The value a nullable column takes from a member: the fallback (the
    column default on insert, the old value on update) when the member is
    undefined. *)
Definition col {A} (v : maybe A) (fallback : option A) : option A :=
  match v with
  | undefined => fallback
  | null => None
  | just a => Some a
  end.

(** The same for a NOT NULL column, which refuses null. *)
Definition notnull {A} (v : maybe A) (fallback : A) : option A :=
  match v with
  | undefined => Some fallback
  | null => None
  | just a => Some a
  end.

Definition col_notnull {A} (v : maybe A) (fallback : A) : M A :=
  required (notnull v fallback).

(** A timestamp column refuses the invalid date. *)
Definition timestamp_value (v : maybe Date) : option (maybe Z) :=
  match v with
  | undefined => Some undefined
  | null => Some null
  | just InvalidDate => None
  | just (DateAt t) => Some (just t)
  end.

Definition timestamp_col (v : maybe Date) : M (maybe Z) :=
  required (timestamp_value v).

(** An integer column refuses a number that is no integer. *)
Definition integer_value (v : maybe number) : option (maybe Z) :=
  match v with
  | undefined => Some undefined
  | null => Some null
  | just x => just <$> Number.to_Z x
  end.

Definition integer_col (v : maybe number) : M (maybe Z) :=
  required (integer_value v).

Definition is_undefined {A} (v : maybe A) : bool :=
  match v with undefined => true | _ => false end.

(** [id === x] for a key and a number. *)
Definition key_is (x : number) (k : Z) : bool :=
  bool_decide (Number.to_Z x = Some k).

(** The row of a table whose key is the number [x]. *)
Definition select_by_id {A} (table : gmap Z A) (x : number) : option (row A) :=
  k ← Number.to_Z x; a ← table !! k; Some (k, a).

Definition delete_by_id {A} (x : number) (table : gmap Z A) : gmap Z A :=
  match Number.to_Z x with
  | Some k => delete k table
  | None => table
  end.

Definition newer {A} (created : A -> Z) (a b : row A) : Prop :=
  (created (snd b) <? created (snd a))
  || (created (snd a) =? created (snd b)) && (fst b <=? fst a) = true.

Global Instance newer_dec {A} (created : A -> Z) (a b : row A) :
  Decision (newer created a b).
Proof. unfold newer. apply _. Defined.

(** [where userId = ... order by created desc]. Among rows of equal time,
    whose order the database leaves open, the later key comes first. *)
Definition select_by_user {A} (owner : A -> jsstring) (created : A -> Z)
    (table : gmap Z A) (userId : jsstring) : list (row A) :=
  merge_sort (newer created)
    (List.filter (fun r => jsstring_eqb (owner (snd r)) userId) (map_to_list table)).

(** ** Storage layer: [DatabaseStorage] *)

Section Storage.

Variable env : Env.

Definition getProfile (userId : jsstring) : M (option UserProfile.t) :=
  gets (fun st => userProfiles st !! userId).

(** [insert ... on conflict (user_id) do update set ...]: the sequence
    advances whether or not the row exists. *)
Definition upsertProfile (data : InsertUserProfile.t) : M UserProfile.t :=
  let uid := InsertUserProfile.userId data in
  existing ← getProfile uid;
  id ← gets userProfiles_seq;
  let old := default (UserProfile.mk id student None None (Some 120)) existing in
  role ← col_notnull (InsertUserProfile.role data) (UserProfile.role old);
  let profile :=
    UserProfile.mk (UserProfile.id old) role
      (col (InsertUserProfile.studyGoal data) (UserProfile.studyGoal old))
      (col (InsertUserProfile.preferredSubjects data) (UserProfile.preferredSubjects old))
      (col (InsertUserProfile.dailyStudyTarget data) (UserProfile.dailyStudyTarget old)) in
  modify (with_userProfiles (insert uid profile) 1);;
  mret profile.

Definition getAllProfiles : M (list (jsstring * UserProfile.t)) :=
  gets (fun st => map_to_list (userProfiles st)).

Definition updateProfileRole (userId : jsstring) (role : Role) : M (option UserProfile.t) :=
  existing ← getProfile userId;
  match existing with
  | None => mret None
  | Some old =>
      let profile :=
        UserProfile.mk (UserProfile.id old) role (UserProfile.studyGoal old)
          (UserProfile.preferredSubjects old) (UserProfile.dailyStudyTarget old) in
      modify (with_userProfiles (insert userId profile) 0);;
      mret (Some profile)
  end.

Definition getTasks (userId : jsstring) : M (list (row Task.t)) :=
  gets (fun st => select_by_user Task.userId Task.createdAt (tasks st) userId).

Definition getAllTasks : M (list (row Task.t)) :=
  gets (fun st => merge_sort (newer Task.createdAt) (map_to_list (tasks st))).

Definition getTask (id : number) : M (option (row Task.t)) :=
  gets (fun st => select_by_id (tasks st) id).

Definition createTask (data : InsertTask.t) : M (row Task.t) :=
  due ← timestamp_col (InsertTask.dueDate data);
  est ← integer_col (InsertTask.estimatedMinutes data);
  prio ← col_notnull (InsertTask.priority data) medium;
  stat ← col_notnull (InsertTask.status data) pending;
  id ← gets tasks_seq;
  let task :=
    Task.mk (InsertTask.userId data) (InsertTask.title data)
      (col (InsertTask.description data) None) (col (InsertTask.subject data) None)
      prio stat (col due None) (col est None) None (db_now env) in
  modify (with_tasks (insert id task) 1);;
  mret (id, task).

Definition updateTask (id : number) (data : PartialInsertTask.t)
    : M (option (row Task.t)) :=
  let completedAt :=
    match PartialInsertTask.status data with
    | just completed => just (DateAt (Date_now env))
    | _ => undefined
    end in
  (* a [set] without any defined member is refused *)
  if is_undefined (PartialInsertTask.userId data)
     && is_undefined (PartialInsertTask.title data)
     && is_undefined (PartialInsertTask.description data)
     && is_undefined (PartialInsertTask.subject data)
     && is_undefined (PartialInsertTask.priority data)
     && is_undefined (PartialInsertTask.status data)
     && is_undefined (PartialInsertTask.dueDate data)
     && is_undefined (PartialInsertTask.estimatedMinutes data)
     && is_undefined completedAt
  then throw
  else
    due ← timestamp_col (PartialInsertTask.dueDate data);
    est ← integer_col (PartialInsertTask.estimatedMinutes data);
    done ← timestamp_col completedAt;
    existing ← getTask id;
    match existing with
    | None => mret None
    | Some (k, old) =>
        uid ← col_notnull (PartialInsertTask.userId data) (Task.userId old);
        title ← col_notnull (PartialInsertTask.title data) (Task.title old);
        prio ← col_notnull (PartialInsertTask.priority data) (Task.priority old);
        stat ← col_notnull (PartialInsertTask.status data) (Task.status old);
        let task :=
          Task.mk uid title
            (col (PartialInsertTask.description data) (Task.description old))
            (col (PartialInsertTask.subject data) (Task.subject old))
            prio stat
            (col due (Task.dueDate old))
            (col est (Task.estimatedMinutes old))
            (col done (Task.completedAt old))
            (Task.createdAt old) in
        modify (with_tasks (insert k task) 0);;
        mret (Some (k, task))
    end.

Definition deleteTask (id : number) : M unit :=
  modify (with_tasks (delete_by_id id) 0).

Definition getPomodoroSessions (userId : jsstring) : M (list (row PomodoroSession.t)) :=
  gets (fun st =>
    select_by_user PomodoroSession.userId PomodoroSession.startedAt
      (pomodoroSessions st) userId).

Definition getAllPomodoroSessions : M (list (row PomodoroSession.t)) :=
  gets (fun st => map_to_list (pomodoroSessions st)).

Definition createPomodoroSession (data : InsertPomodoro.t) : M (row PomodoroSession.t) :=
  let endedAt :=
    match InsertPomodoro.completed data with
    | just true => just (DateAt (Date_now env))
    | _ => null
    end in
  tid ← integer_col (InsertPomodoro.taskId data);
  dur ← integer_col (InsertPomodoro.duration data);
  brk ← integer_col (InsertPomodoro.breakDuration data);
  ended ← timestamp_col endedAt;
  dur' ← col_notnull dur 25;
  brk' ← col_notnull brk 5;
  done ← col_notnull (InsertPomodoro.completed data) false;
  id ← gets pomodoroSessions_seq;
  let session :=
    PomodoroSession.mk (InsertPomodoro.userId data) (col tid None) dur' brk' done
      (db_now env) (col ended None) in
  modify (with_pomodoroSessions (insert id session) 1);;
  mret (id, session).

Definition getRecommendations (userId : jsstring) : M (list (row StudyRecommendation.t)) :=
  gets (fun st =>
    select_by_user StudyRecommendation.userId StudyRecommendation.createdAt
      (studyRecommendations st) userId).

Definition createRecommendation (data : InsertRecommendation.t)
    : M (row StudyRecommendation.t) :=
  type ← match InsertRecommendation.type data with
         | JUndefined | JNull => throw
         | v => mret v
         end;
  prio ← match InsertRecommendation.priority data with
         | JUndefined => mret (JStr (js "medium"))
         | JNull => throw
         | v => mret v
         end;
  id ← gets studyRecommendations_seq;
  let rec :=
    StudyRecommendation.mk (InsertRecommendation.userId data)
      (InsertRecommendation.title data) (InsertRecommendation.description data)
      (match InsertRecommendation.subject data with JUndefined => JNull | v => v end)
      type prio (InsertRecommendation.dismissed data) (db_now env) in
  modify (with_studyRecommendations (insert id rec) 1);;
  mret (id, rec).

Definition set_dismissed (r : StudyRecommendation.t) : StudyRecommendation.t :=
  StudyRecommendation.mk (StudyRecommendation.userId r) (StudyRecommendation.title r)
    (StudyRecommendation.description r) (StudyRecommendation.subject r)
    (StudyRecommendation.type r) (StudyRecommendation.priority r) true
    (StudyRecommendation.createdAt r).

Definition dismissRecommendation (id : number) : M unit :=
  modify (with_studyRecommendations
            (match Number.to_Z id with
             | Some k => alter set_dismissed k
             | None => fun t => t
             end) 0).

Definition getFiles (userId : jsstring) : M (list (row FileUpload.t)) :=
  gets (fun st =>
    select_by_user FileUpload.userId FileUpload.createdAt (fileUploads st) userId).

Definition getFile (id : number) : M (option (row FileUpload.t)) :=
  gets (fun st => select_by_id (fileUploads st) id).

Definition createFile (data : InsertFileUpload.t) : M (row FileUpload.t) :=
  tid ← match InsertFileUpload.taskId data with
        | Some x => k ← required (Number.to_Z x); mret (Some k)
        | None => mret None
        end;
  id ← gets fileUploads_seq;
  let file :=
    FileUpload.mk (InsertFileUpload.userId data) (InsertFileUpload.filename data)
      (InsertFileUpload.originalName data) (InsertFileUpload.mimeType data)
      (InsertFileUpload.size data) tid (db_now env) in
  modify (with_fileUploads (insert id file) 1);;
  mret (id, file).

Definition deleteFile (id : number) : M unit :=
  modify (with_fileUploads (delete_by_id id) 0).

Definition getNotifications (userId : jsstring) : M (list (row Notification.t)) :=
  gets (fun st =>
    select_by_user Notification.userId Notification.createdAt (notifications st) userId).

Definition createNotification (data : InsertNotification.t) : M (row Notification.t) :=
  type ← col_notnull (InsertNotification.type data) (js "info");
  read ← col_notnull (InsertNotification.read data) false;
  id ← gets notifications_seq;
  let notif :=
    Notification.mk (InsertNotification.userId data) (InsertNotification.title data)
      (InsertNotification.message data) type read (db_now env) in
  modify (with_notifications (insert id notif) 1);;
  mret (id, notif).

Definition set_read (n : Notification.t) : Notification.t :=
  Notification.mk (Notification.userId n) (Notification.title n)
    (Notification.message n) (Notification.type n) true (Notification.createdAt n).

Definition markNotificationRead (id : number) : M unit :=
  modify (with_notifications
            (match Number.to_Z id with
             | Some k => alter set_read k
             | None => fun t => t
             end) 0).

Definition markAllNotificationsRead (userId : jsstring) : M unit :=
  modify (with_notifications
            (fmap (fun n => if jsstring_eqb (Notification.userId n) userId
                            then set_read n else n)) 0).

End Storage.

(** ** Request schemas *)

Module TaskCreate.
Record t := mk {
  title : jsstring;
  description : maybe jsstring;
  subject : maybe jsstring;
  priority : maybe Priority;
  status : maybe Status;
  dueDate : maybe jsstring;
  estimatedMinutes : maybe number;
}.
End TaskCreate.

Module TaskUpdate.
Record t := mk {
  title : maybe jsstring;
  description : maybe jsstring;
  subject : maybe jsstring;
  priority : maybe Priority;
  status : maybe Status;
  dueDate : maybe jsstring;
  estimatedMinutes : maybe number;
}.
End TaskUpdate.

Module PomodoroCreate.
Record t := mk {
  taskId : maybe number;
  duration : number;
  breakDuration : number;
  completed : bool;
}.
End PomodoroCreate.

Definition priorities : list (string * Priority) :=
  [("low"%string, low); ("medium"%string, medium); ("high"%string, high)].

Definition statuses : list (string * Status) :=
  [("pending"%string, pending); ("in_progress"%string, in_progress);
   ("completed"%string, completed)].

Definition roles : list (string * Role) :=
  [("student"%string, student); ("admin"%string, admin)].

(** An object schema reads the members it names and drops every other
    member of the body. *)
Definition taskCreateSchema : z.schema TaskCreate.t :=
  fun body =>
    match body with
    | JObj o =>
        title ← z.string 1 (Some 500%nat) (z.member o "title");
        description ← z.nullable (z.optional (z.string 0 (Some 5000%nat)))
                        (z.member o "description");
        subject ← z.nullable (z.optional (z.string 0 (Some 200%nat)))
                    (z.member o "subject");
        priority ← z.optional (z.enum priorities) (z.member o "priority");
        status ← z.optional (z.enum statuses) (z.member o "status");
        dueDate ← z.nullable (z.optional (z.string 0 None)) (z.member o "dueDate");
        estimatedMinutes ← z.nullable (z.optional (z.number_int (Some 1) (Some 1440)))
                             (z.member o "estimatedMinutes");
        Some (TaskCreate.mk title description subject priority status dueDate
                estimatedMinutes)
    | _ => None
    end.

(** [taskCreateSchema.partial()] *)
Definition taskUpdateSchema : z.schema TaskUpdate.t :=
  fun body =>
    match body with
    | JObj o =>
        title ← z.optional (z.string 1 (Some 500%nat)) (z.member o "title");
        description ← z.optional' (z.nullable (z.optional (z.string 0 (Some 5000%nat))))
                        (z.member o "description");
        subject ← z.optional' (z.nullable (z.optional (z.string 0 (Some 200%nat))))
                    (z.member o "subject");
        priority ← z.optional' (z.optional (z.enum priorities)) (z.member o "priority");
        status ← z.optional' (z.optional (z.enum statuses)) (z.member o "status");
        dueDate ← z.optional' (z.nullable (z.optional (z.string 0 None)))
                    (z.member o "dueDate");
        estimatedMinutes ←
          z.optional' (z.nullable (z.optional (z.number_int (Some 1) (Some 1440))))
            (z.member o "estimatedMinutes");
        Some (TaskUpdate.mk title description subject priority status dueDate
                estimatedMinutes)
    | _ => None
    end.

Definition pomodoroCreateSchema : z.schema PomodoroCreate.t :=
  fun body =>
    match body with
    | JObj o =>
        taskId ← z.nullable (z.optional (z.number_int None None)) (z.member o "taskId");
        duration ← z.number_int (Some 1) (Some 120) (z.member o "duration");
        breakDuration ← z.number_int (Some 1) (Some 60) (z.member o "breakDuration");
        completed ← z.boolean (z.member o "completed");
        Some (PomodoroCreate.mk taskId duration breakDuration completed)
    | _ => None
    end.

Definition roleUpdateSchema : z.schema Role :=
  fun body =>
    match body with
    | JObj o => z.enum roles (z.member o "role")
    | _ => None
    end.

(** ** Responses *)

Module Stats.
Record t := mk {
  totalUsers : nat;
  totalTasks : nat;
  completedTasks : nat;
  totalSessions : nat;
  totalStudyMinutes : Z;
  (** email (or the start of the id), task count, completed-session count *)
  userActivity : list (jsstring * nat * nat);
}.
End Stats.

Inductive Body :=
| BNone
| BMessage (message : string)
| BInvalid (message : string)
| BSuccess
| BProfile (userId : jsstring) (profile : option UserProfile.t)
| BTask (task : option (row Task.t))
| BTasks (l : list (row Task.t))
| BSession (s : row PomodoroSession.t)
| BSessions (l : list (row PomodoroSession.t))
| BRecommendations (l : list (row StudyRecommendation.t))
| BFile (f : row FileUpload.t)
| BFiles (l : list (row FileUpload.t))
| BNotifications (l : list (row Notification.t))
| BDownload (filename originalName mimeType : jsstring)
| BStats (s : Stats.t)
| BUsers (l : list (User.t * Role)).

Record Response := reply {
  status : Z;
  body : Body;
}.

(** [try { ... } catch { res.status(500).json({ message }) }] *)
Definition try_catch (handler : M Response) (message : string)
    : Store -> Response * Store :=
  fun st =>
    match handler st with
    | (Return r, st') => (r, st')
    | (Throw, st') => (reply 500 (BMessage message), st')
    end.

(** ** Recommendation candidates *)

(** [content.match(/\[[\s\S]*\]/)]: from the first opening bracket to the
    last closing bracket after it. *)
Definition bracket_match (content : jsstring) : option jsstring :=
  let from_open := snd (span (fun c => negb (N.eqb c 91)) content) in
  match from_open with
  | [] => None
  | open :: rest =>
      match snd (span (fun c => negb (N.eqb c 93)) (rev rest)) with
      | [] => None
      | closing => Some (open :: rev closing)
      end
  end.

Definition is_high_surrogate (c : N) : bool := (55296 <=? c)%N && (c <=? 56319)%N.
Definition is_low_surrogate (c : N) : bool := (56320 <=? c)%N && (c <=? 57343)%N.

(** The code points a string iterates over, each as a string of one or two
    code units. *)
Fixpoint code_points (s : jsstring) : list jsstring :=
  match s with
  | [] => []
  | c :: s' =>
      match s' with
      | d :: s'' =>
          if is_high_surrogate c && is_low_surrogate d
          then [c; d] :: code_points s''
          else [c] :: code_points s'
      | [] => [[c]]
      end
  end.

(** What [for (const rec of recommendations.slice(0, 4))] runs over; a
    TypeError where the value has no [slice] method. *)
Definition slice_0_4 (recommendations : jsval) : option (list jsval) :=
  match recommendations with
  | JArr l => Some (take 4 l)
  | JStr s => Some (JStr <$> code_points (take 4 s))
  | _ => None
  end.

(** The argument of [storage.createRecommendation] for one candidate; a
    TypeError where a member of [null] is read or [String] fails. *)
Definition candidate (userId : jsstring) (rec : jsval) : option InsertRecommendation.t :=
  title ← get_prop rec (js "title");
  title' ← ToString (js_or title (JStr (js "Study Tip")));
  description ← get_prop rec (js "description");
  description' ← ToString (js_or description (JStr (js "Keep up the great work!")));
  subject ← get_prop rec (js "subject");
  type ← get_prop rec (js "type");
  priority ← get_prop rec (js "priority");
  Some (InsertRecommendation.mk userId
          (substring0 60 title') (substring0 200 description')
          (js_or subject JNull)
          (js_or type (JStr (js "study_tip")))
          (js_or priority (JStr (js "medium")))
          false).

(** [response.choices[0]?.message?.content || "[]"] *)
Definition message_content (c : option jsstring) : jsstring :=
  match c with
  | Some s => if jsstring_eqb s [] then js "[]" else s
  | None => js "[]"
  end.

(** The value the handler parses out of the text: the text as JSON, else
    the bracketed part of it as JSON, else the empty list; [None] where the
    second parse, which nothing guards, fails. *)
Definition recommendations_of (content : jsstring) : option jsval :=
  match JSON.parse content with
  | Some v => Some v
  | None =>
      match bracket_match content with
      | Some m => JSON.parse m
      | None => Some (JArr [])
      end
  end.

Definition ALLOWED_MIME_TYPES : list jsstring :=
  js <$> [ "application/pdf"; "image/jpeg"; "image/png"; "image/gif"; "text/plain";
           "application/msword";
           "application/vnd.openxmlformats-officedocument.wordprocessingml.document";
           "application/vnd.ms-excel";
           "application/vnd.openxmlformats-officedocument.spreadsheetml.sheet";
           "application/vnd.ms-powerpoint";
           "application/vnd.openxmlformats-officedocument.presentationml.presentation"
         ]%string.

(** The file part of a multipart body. *)
Module FilePart.
Record t := mk {
  originalname : jsstring;
  mimetype : jsstring;
  size : Z;
}.
End FilePart.

Definition fileSize_limit : Z := 50 * 1024 * 1024.

(** ** Request handlers: [registerRoutes] *)

Section Handlers.

Variable env : Env.

(** [req.user.claims.sub], set by the authentication middleware *)
Variable userId : jsstring.

Definition json (b : Body) : Response := reply 200 b.

Definition GET_profile : Store -> Response * Store :=
  try_catch
    (profile ← getProfile userId;
     match profile with
     | Some p => mret (json (BProfile userId (Some p)))
     | None =>
         p ← upsertProfile
               (InsertUserProfile.mk userId (just student) undefined undefined undefined);
         mret (json (BProfile userId (Some p)))
     end)
    "Failed to fetch profile".

Definition GET_tasks : Store -> Response * Store :=
  try_catch
    (userTasks ← getTasks userId;
     mret (json (BTasks userTasks)))
    "Failed to fetch tasks".

Definition POST_tasks (body : jsval) : Store -> Response * Store :=
  try_catch
    (match taskCreateSchema body with
     | None => mret (reply 400 (BInvalid "Invalid task data"))
     | Some data =>
         task ← createTask env
                  (InsertTask.mk userId
                     (TaskCreate.title data)
                     (string_or (TaskCreate.description data) just null)
                     (string_or (TaskCreate.subject data) just null)
                     (just (maybe_or (TaskCreate.priority data) medium))
                     (just (maybe_or (TaskCreate.status data) pending))
                     (string_or (TaskCreate.dueDate data)
                        (fun s => just (new_Date env s)) null)
                     (number_or (TaskCreate.estimatedMinutes data) just null));
         mret (reply 201 (BTask (Some task)))
     end)
    "Failed to create task".

Definition PATCH_task (id_param : jsstring) (body : jsval) : Store -> Response * Store :=
  try_catch
    (let id := parseInt id_param in
     if Number.isNaN id then mret (reply 400 (BMessage "Invalid task ID")) else
     existing ← getTask id;
     match existing with
     | None => mret (reply 404 (BMessage "Task not found"))
     | Some (_, existing) =>
         if negb (jsstring_eqb (Task.userId existing) userId)
         then mret (reply 403 (BMessage "Access denied")) else
         match taskUpdateSchema body with
         | None => mret (reply 400 (BInvalid "Invalid task data"))
         | Some data =>
             let updateData :=
               PartialInsertTask.mk undefined
                 (TaskUpdate.title data)
                 (TaskUpdate.description data)
                 (TaskUpdate.subject data)
                 (TaskUpdate.priority data)
                 (TaskUpdate.status data)
                 (match TaskUpdate.dueDate data with
                  | undefined => undefined
                  | dueDate => string_or dueDate (fun s => just (new_Date env s)) null
                  end)
                 (TaskUpdate.estimatedMinutes data) in
             task ← updateTask env id updateData;
             mret (json (BTask task))
         end
     end)
    "Failed to update task".

Definition DELETE_task (id_param : jsstring) : Store -> Response * Store :=
  try_catch
    (let id := parseInt id_param in
     if Number.isNaN id then mret (reply 400 (BMessage "Invalid task ID")) else
     existing ← getTask id;
     match existing with
     | None => mret (reply 404 (BMessage "Task not found"))
     | Some (_, existing) =>
         if negb (jsstring_eqb (Task.userId existing) userId)
         then mret (reply 403 (BMessage "Access denied")) else
         deleteTask id;;
         mret (reply 204 BNone)
     end)
    "Failed to delete task".

Definition GET_pomodoro : Store -> Response * Store :=
  try_catch
    (sessions ← getPomodoroSessions userId;
     mret (json (BSessions sessions)))
    "Failed to fetch sessions".

(** [!task || task.userId !== userId] *)
Definition not_own_task (task : option (row Task.t)) : bool :=
  match task with
  | None => true
  | Some (_, t) => negb (jsstring_eqb (Task.userId t) userId)
  end.

Definition POST_pomodoro (body : jsval) : Store -> Response * Store :=
  try_catch
    (match pomodoroCreateSchema body with
     | None => mret (reply 400 (BInvalid "Invalid session data"))
     | Some data =>
         let create :=
           session ← createPomodoroSession env
                       (InsertPomodoro.mk userId
                          (PomodoroCreate.taskId data)
                          (just (PomodoroCreate.duration data))
                          (just (PomodoroCreate.breakDuration data))
                          (just (PomodoroCreate.completed data)));
           mret (reply 201 (BSession session)) in
         number_or (PomodoroCreate.taskId data)
           (fun taskId =>
              task ← getTask taskId;
              if not_own_task task
              then mret (reply 403 (BMessage "Task not found or access denied"))
              else create)
           create
     end)
    "Failed to create session".

Definition GET_recommendations : Store -> Response * Store :=
  try_catch
    (recs ← getRecommendations userId;
     mret (json (BRecommendations recs)))
    "Failed to fetch recommendations".

(** [!process.env.AI_INTEGRATIONS_OPENAI_API_KEY] *)
Definition ai_unconfigured : bool :=
  match AI_INTEGRATIONS_OPENAI_API_KEY env with
  | None => true
  | Some k => jsstring_eqb k []
  end.

(** [[...new Set(l)]] *)
Fixpoint distinct (l : list jsstring) (seen : list jsstring) : list jsstring :=
  match l with
  | [] => []
  | x :: l' =>
      if bool_decide (x ∈ seen) then distinct l' seen
      else x :: distinct l' (x :: seen)
  end.

Definition prompt_of (userTasks : list (row Task.t))
    (sessions : list (row PomodoroSession.t)) : Prompt.t :=
  Prompt.mk
    (length userTasks)
    (length (List.filter (fun t => bool_decide (Task.status (snd t) = completed)) userTasks))
    (length (List.filter (fun t => bool_decide (Task.status (snd t) = pending)) userTasks))
    (fold_left (fun sum s => sum + PomodoroSession.duration (snd s))
       (List.filter (fun s => PomodoroSession.completed (snd s)) sessions) 0)
    (distinct
       (omap (fun t => match Task.subject (snd t) with
                       | Some s => if jsstring_eqb s [] then None else Some s
                       | None => None
                       end) userTasks) [])
    (length sessions).

(** The loop that stores the candidates, one call each, in order. *)
Fixpoint create_all (recs : list jsval) : M (list (row StudyRecommendation.t)) :=
  match recs with
  | [] => mret []
  | rec :: rest =>
      data ← required (candidate userId rec);
      saved ← createRecommendation env data;
      created ← create_all rest;
      mret (saved :: created)
  end.

Definition POST_recommendations_generate : Store -> Response * Store :=
  try_catch
    (if ai_unconfigured
     then mret (reply 503 (BMessage "AI service is not configured")) else
     userTasks ← getTasks userId;
     sessions ← getPomodoroSessions userId;
     match chat_completions_create env (prompt_of userTasks sessions) with
     | ApiError => throw
     | Content c =>
         let content := message_content c in
         recommendations ← required (recommendations_of content);
         recs ← required (slice_0_4 recommendations);
         created ← create_all recs;
         mret (json (BRecommendations created))
     end)
    "Failed to generate recommendations".

Definition PATCH_recommendation_dismiss (id_param : jsstring) : Store -> Response * Store :=
  try_catch
    (let id := parseInt id_param in
     if Number.isNaN id then mret (reply 400 (BMessage "Invalid ID")) else
     recs ← getRecommendations userId;
     match List.find (fun r => key_is id (fst r)) recs with
     | None => mret (reply 404 (BMessage "Recommendation not found"))
     | Some _ =>
         dismissRecommendation id;;
         mret (json BSuccess)
     end)
    "Failed to dismiss".

Definition GET_files : Store -> Response * Store :=
  try_catch
    (files ← getFiles userId;
     mret (json (BFiles files)))
    "Failed to fetch files".

(** The name multer stores an accepted file under. *)
Definition stored_filename (originalname : jsstring) : jsstring :=
  Number.toString (Number.of_Z (Date_now env)) ++ [45%N]
    ++ Number.toString (Number.of_Z (Math_random env))
    ++ extname originalname.

(** The handler proper, with [req.file] and [req.body.taskId]. No
    statement of it raises the error named in its [catch], so that every
    exception ends in the 500 answer. *)
Definition upload_handler (file : option (jsstring * FilePart.t))
    (taskId_field : option jsstring) : Store -> Response * Store :=
  try_catch
    (match file with
     | None => mret (reply 400 (BMessage "No file provided"))
     | Some (filename, part) =>
         let store_file (taskId : option number) :=
           file ← createFile env
                    (InsertFileUpload.mk userId filename (FilePart.originalname part)
                       (FilePart.mimetype part) (FilePart.size part) taskId);
           mret (reply 201 (BFile file)) in
         match taskId_field with
         | Some ((_ :: _) as field) =>
             let taskId := parseInt field in
             if Number.isNaN taskId
             then mret (reply 400 (BMessage "Invalid task ID")) else
             task ← getTask taskId;
             if not_own_task task
             then mret (reply 403 (BMessage "Task not found or access denied"))
             else store_file (Some taskId)
         | _ => store_file None
         end
     end)
    "Failed to upload file".

(** [upload.single("file")] before the handler: a file of a type outside
    the list or above the size limit ends the request with an error that
    the handler never sees, answered with status 500 by Express; an
    accepted file is on disk when the handler starts. *)
Definition POST_files_upload (part : option FilePart.t) (taskId_field : option jsstring)
    : Store -> Response * Store :=
  match part with
  | None => upload_handler None taskId_field
  | Some p =>
      if negb (bool_decide (FilePart.mimetype p ∈ ALLOWED_MIME_TYPES))
      then fun st => (reply 500 (BMessage "File type not allowed"), st)
      else if fileSize_limit <? FilePart.size p
      then fun st => (reply 500 (BMessage "File too large"), st)
      else
        let filename := stored_filename (FilePart.originalname p) in
        fun st =>
          upload_handler (Some (filename, p)) taskId_field
            (with_uploads (fun d => {[ filename ]} ∪ d) st)
  end.

Definition GET_file_download (id_param : jsstring) : Store -> Response * Store :=
  try_catch
    (let id := parseInt id_param in
     if Number.isNaN id then mret (reply 400 (BMessage "Invalid ID")) else
     file ← getFile id;
     match file with
     | None => mret (reply 404 (BMessage "File not found"))
     | Some (_, file) =>
         if negb (jsstring_eqb (FileUpload.userId file) userId)
         then mret (reply 403 (BMessage "Access denied")) else
         on_disk ← gets (fun st => bool_decide (FileUpload.filename file ∈ uploads st));
         if negb on_disk
         then mret (reply 404 (BMessage "File not found on disk"))
         else mret (json (BDownload (FileUpload.filename file)
                            (FileUpload.originalName file) (FileUpload.mimeType file)))
     end)
    "Failed to download file".

Definition DELETE_file (id_param : jsstring) : Store -> Response * Store :=
  try_catch
    (let id := parseInt id_param in
     if Number.isNaN id then mret (reply 400 (BMessage "Invalid ID")) else
     file ← getFile id;
     match file with
     | None => mret (reply 404 (BMessage "File not found"))
     | Some (_, file) =>
         if negb (jsstring_eqb (FileUpload.userId file) userId)
         then mret (reply 403 (BMessage "Access denied")) else
         modify (with_uploads (fun d => d ∖ {[ FileUpload.filename file ]}));;
         deleteFile id;;
         mret (reply 204 BNone)
     end)
    "Failed to delete file".

Definition GET_notifications : Store -> Response * Store :=
  try_catch
    (notifs ← getNotifications userId;
     mret (json (BNotifications notifs)))
    "Failed to fetch notifications".

Definition PATCH_notification_read (id_param : jsstring) : Store -> Response * Store :=
  try_catch
    (let id := parseInt id_param in
     if Number.isNaN id then mret (reply 400 (BMessage "Invalid ID")) else
     notifs ← getNotifications userId;
     match List.find (fun n => key_is id (fst n)) notifs with
     | None => mret (reply 404 (BMessage "Notification not found"))
     | Some _ =>
         markNotificationRead id;;
         mret (json BSuccess)
     end)
    "Failed to mark as read".

Definition PATCH_notifications_read_all : Store -> Response * Store :=
  try_catch
    (markAllNotificationsRead userId;;
     mret (json BSuccess))
    "Failed to mark all as read".

(** [profile?.role !== "admin"] *)
Definition not_admin (profile : option UserProfile.t) : bool :=
  match profile with
  | Some p => negb (bool_decide (UserProfile.role p = admin))
  | None => true
  end.

Definition GET_admin_stats : Store -> Response * Store :=
  try_catch
    (profile ← getProfile userId;
     if not_admin profile then mret (reply 403 (BMessage "Access denied")) else
     allUsers ← gets users;
     allTasks ← getAllTasks;
     allSessions ← getAllPomodoroSessions;
     let completedTasks :=
       length (List.filter (fun t => bool_decide (Task.status (snd t) = completed)) allTasks) in
     let completedSessions :=
       List.filter (fun s => PomodoroSession.completed (snd s)) allSessions in
     let totalStudyMinutes :=
       fold_left (fun sum s => sum + PomodoroSession.duration (snd s)) completedSessions 0 in
     let userActivity :=
       (fun u =>
          (match User.email u with
           | Some e => if jsstring_eqb e [] then take 8 (User.id u) else e
           | None => take 8 (User.id u)
           end,
           length (List.filter (fun t => jsstring_eqb (Task.userId (snd t)) (User.id u))
                     allTasks),
           length (List.filter
                     (fun s => jsstring_eqb (PomodoroSession.userId (snd s)) (User.id u)
                               && PomodoroSession.completed (snd s))
                     allSessions)))
       <$> allUsers in
     mret (json (BStats (Stats.mk (length allUsers) (length allTasks) completedTasks
                           (length completedSessions) totalStudyMinutes userActivity))))
    "Failed to fetch admin stats".

Definition GET_admin_users : Store -> Response * Store :=
  try_catch
    (profile ← getProfile userId;
     if not_admin profile then mret (reply 403 (BMessage "Access denied")) else
     allUsers ← gets users;
     allProfiles ← getAllProfiles;
     let enriched :=
       (fun u =>
          (u, match List.find (fun p => jsstring_eqb (fst p) (User.id u)) allProfiles with
              | Some p => UserProfile.role (snd p)
              | None => student
              end))
       <$> allUsers in
     mret (json (BUsers enriched)))
    "Failed to fetch users".

Definition PATCH_admin_user_role (target : jsstring) (body : jsval)
    : Store -> Response * Store :=
  try_catch
    (adminProfile ← getProfile userId;
     if not_admin adminProfile then mret (reply 403 (BMessage "Access denied")) else
     match roleUpdateSchema body with
     | None => mret (reply 400 (BMessage "Invalid role data"))
     | Some role =>
         profile ← getProfile target;
         match profile with
         | None =>
             p ← upsertProfile
                   (InsertUserProfile.mk target (just role) undefined undefined undefined);
             mret (json (BProfile target (Some p)))
         | Some _ =>
             p ← updateProfileRole target role;
             mret (json (BProfile target p))
         end
     end)
    "Failed to update role".

End Handlers.

(** ** The API as a transition system *)

Inductive Request :=
| GetProfile
| GetTasks
| PostTasks (body : jsval)
| PatchTask (id : jsstring) (body : jsval)
| DeleteTask (id : jsstring)
| GetPomodoro
| PostPomodoro (body : jsval)
| GetRecommendations
| PostRecommendationsGenerate
| PatchRecommendationDismiss (id : jsstring)
| GetFiles
| PostFilesUpload (file : option FilePart.t) (taskId : option jsstring)
| GetFileDownload (id : jsstring)
| DeleteFile (id : jsstring)
| GetNotifications
| PatchNotificationRead (id : jsstring)
| PatchNotificationsReadAll
| GetAdminStats
| GetAdminUsers
| PatchAdminUserRole (userId : jsstring) (body : jsval).

(** One authenticated request: the route table of [registerRoutes]. *)
Definition handle (env : Env) (userId : jsstring) (req : Request)
    : Store -> Response * Store :=
  match req with
  | GetProfile => GET_profile userId
  | GetTasks => GET_tasks userId
  | PostTasks body => POST_tasks env userId body
  | PatchTask id body => PATCH_task env userId id body
  | DeleteTask id => DELETE_task userId id
  | GetPomodoro => GET_pomodoro userId
  | PostPomodoro body => POST_pomodoro env userId body
  | GetRecommendations => GET_recommendations userId
  | PostRecommendationsGenerate => POST_recommendations_generate env userId
  | PatchRecommendationDismiss id => PATCH_recommendation_dismiss userId id
  | GetFiles => GET_files userId
  | PostFilesUpload file taskId => POST_files_upload env userId file taskId
  | GetFileDownload id => GET_file_download userId id
  | DeleteFile id => DELETE_file userId id
  | GetNotifications => GET_notifications userId
  | PatchNotificationRead id => PATCH_notification_read userId id
  | PatchNotificationsReadAll => PATCH_notifications_read_all userId
  | GetAdminStats => GET_admin_stats userId
  | GetAdminUsers => GET_admin_users userId
  | PatchAdminUserRole target body => PATCH_admin_user_role userId target body
  end.

(** A sequence of requests, each with its environment and its caller. *)
Fixpoint run (reqs : list (Env * jsstring * Request)) (st : Store) : Store :=
  match reqs with
  | [] => st
  | (env, userId, req) :: reqs' => run reqs' (snd (handle env userId req st))
  end.

(** ** The pages *)

(** The pages compute what they show from the data of their queries, the
    answers of the list endpoints; the data is undefined until the answer
    is there. *)

(** [l?.filter(p).length || 0] *)
Definition count_where {A} (p : A -> bool) (l : option (list A)) : nat :=
  match l with
  | Some l => length (List.filter p l)
  | None => 0
  end.

(** The figures of [DashboardPage]. *)
Module DashboardPage.
Section Data.

(** the data of the queries [/api/tasks] and [/api/pomodoro] *)
Variable tasks : option (list (row Task.t)).
Variable sessions : option (list (row PomodoroSession.t)).

Definition totalTasks : nat :=
  match tasks with Some l => length l | None => 0%nat end.

Definition completedTasks : nat :=
  count_where (fun t => bool_decide (Task.status (snd t) = completed)) tasks.

Definition pendingTasks : nat :=
  count_where (fun t => bool_decide (Task.status (snd t) = pending)) tasks.

Definition inProgressTasks : nat :=
  count_where (fun t => bool_decide (Task.status (snd t) = in_progress)) tasks.

Definition totalStudyMinutes : Z :=
  match sessions with
  | Some l =>
      fold_left
        (fun sum s => sum + (if PomodoroSession.completed (snd s)
                             then PomodoroSession.duration (snd s) else 0))
        l 0
  | None => 0
  end.

Definition totalSessions : nat :=
  count_where (fun s => PomodoroSession.completed (snd s)) sessions.

(** The slices of the status chart, by name: those that are not empty. *)
Definition statusData : list (string * nat) :=
  List.filter (fun d => (0 <? snd d)%nat)
    [("Completed"%string, completedTasks); ("In Progress"%string, inProgressTasks);
     ("Pending"%string, pendingTasks)].

(** The bars of the priority chart: the tasks of each priority that are
    not completed. *)
Definition priorityData : list (string * nat) :=
  (fun '(name, p) =>
     (name,
      count_where
        (fun t => bool_decide (Task.priority (snd t) = p)
                  && negb (bool_decide (Task.status (snd t) = completed)))
        tasks))
  <$> [("High"%string, high); ("Medium"%string, medium); ("Low"%string, low)].

End Data.
End DashboardPage.

Module NotificationsPage.

(** [notifications?.filter((n) => !n.read).length || 0] *)
Definition unreadCount (notifications : option (list (row Notification.t))) : nat :=
  count_where (fun n => negb (Notification.read (snd n))) notifications.

End NotificationsPage.

Module AIStudyPage.

(** [recommendations?.filter((r) => !r.dismissed) || []] *)
Definition activeRecs (recommendations : option (list (row StudyRecommendation.t)))
    : list (row StudyRecommendation.t) :=
  match recommendations with
  | Some l => List.filter (fun r => negb (StudyRecommendation.dismissed (snd r))) l
  | None => []
  end.

End AIStudyPage.

Module AppSidebar.

(** [profile?.role === "admin"], which shows the administration menu *)
Definition isAdmin (profile : option UserProfile.t) : bool :=
  match profile with
  | Some p => bool_decide (UserProfile.role p = admin)
  | None => false
  end.

End AppSidebar.

(** * Specification *)

(** ** Well-formed stores *)

(** The keys of a serial table lie between 1 and the next value of its
    sequence. *)
Definition wf_table {A} (t : gmap Z A) (seq : Z) : Prop :=
  1 <= seq /\ map_Forall (fun k _ => 1 <= k < seq) t.

Definition wf (st : Store) : Prop :=
  wf_table (tasks st) (tasks_seq st)
  /\ wf_table (pomodoroSessions st) (pomodoroSessions_seq st)
  /\ wf_table (studyRecommendations st) (studyRecommendations_seq st)
  /\ wf_table (fileUploads st) (fileUploads_seq st)
  /\ wf_table (notifications st) (notifications_seq st).

Global Instance wf_table_dec {A} (t : gmap Z A) seq : Decision (wf_table t seq).
Proof. unfold wf_table. apply _. Defined.

Global Instance wf_dec st : Decision (wf st).
Proof. unfold wf. apply _. Defined.

(** ** Flags that only rise *)

(** A recommendation once dismissed, a notification once read, is still
    there and still so. *)
Definition flags_kept (st st' : Store) : Prop :=
  (forall k r, studyRecommendations st !! k = Some r ->
     StudyRecommendation.dismissed r = true ->
     exists r', studyRecommendations st' !! k = Some r'
                /\ StudyRecommendation.dismissed r' = true)
  /\ (forall k n, notifications st !! k = Some n ->
        Notification.read n = true ->
        exists n', notifications st' !! k = Some n' /\ Notification.read n' = true).

(** A step from a well-formed store gives a well-formed store and keeps
    the flags. *)
Definition advance (st st' : Store) : Prop :=
  wf st -> wf st' /\ flags_kept st st'.

(** A computation all of whose runs advance the store. *)
Definition advances {A} (m : M A) : Prop :=
  forall st, advance st (snd (m st)).

(** ** Resources and their owners *)

Inductive Kind := KTask | KFile | KNotification | KRecommendation.


(** The key a route parameter names, when it names one. *)
Definition route_id (id_param : jsstring) : option number :=
  let id := parseInt id_param in
  if Number.isNaN id then None else Some id.

(** The resource a request is scoped to: the one named in the route, or
    the task a valid session body refers to. *)
Definition target (req : Request) : option (Kind * number) :=
  match req with
  | PatchTask id _ | DeleteTask id => (fun x => (KTask, x)) <$> route_id id
  | GetFileDownload id | DeleteFile id => (fun x => (KFile, x)) <$> route_id id
  | PatchNotificationRead id => (fun x => (KNotification, x)) <$> route_id id
  | PatchRecommendationDismiss id => (fun x => (KRecommendation, x)) <$> route_id id
  | PostPomodoro body =>
      match pomodoroCreateSchema body with
      | Some data =>
          match PomodoroCreate.taskId data with
          | just x => Some (KTask, x)
          | _ => None
          end
      | None => None
      end
  | _ => None
  end.


(** ** Session references *)

(** The task reference of a session body passes the handler: it is
    missing, null or zero, or it names a task of the caller. *)
Definition reference_allowed (userId : jsstring) (st : Store) (taskId : maybe number) : bool :=
  number_or taskId
    (fun x => match select_by_id (tasks st) x with
              | Some (_, t) => jsstring_eqb (Task.userId t) userId
              | None => false
              end)
    true.

(** The key an integer member is stored as. *)
Definition stored_key (v : maybe number) : option Z :=
  match v with just x => Number.to_Z x | _ => None end.

(** ** Task bodies *)

(** The member of a request body, undefined when it is missing. *)
Definition body_member (body : jsval) (k : string) : jsval :=
  match body with
  | JObj o => z.member o k
  | _ => JUndefined
  end.

(** The due date of a body can be stored: it is missing, null, empty, or
    read as a valid date. *)
Definition dueDate_valid (env : Env) (v : maybe jsstring) : bool :=
  string_or v (fun s => match new_Date env s with InvalidDate => false | DateAt _ => true end)
    true.

(** ** Recommendation candidates *)

(** The provider's answer to the prompt built for a caller in a store. *)
Definition completion_for (env : Env) (userId : jsstring) (st : Store) : Completion :=
  chat_completions_create env
    (prompt_of
       (select_by_user Task.userId Task.createdAt (tasks st) userId)
       (select_by_user PomodoroSession.userId PomodoroSession.startedAt
          (pomodoroSessions st) userId)).

(** A text member of a row against the member of its candidate: the
    default when the member is missing or falsy, else the start of the
    member as a string. *)
Definition text_coerced (limit : nat) (dflt : string) (member : jsval) (field : jsstring)
    : Prop :=
  if truthy member
  then exists s, ToString member = Some s /\ field = substring0 limit s
  else field = js dflt.

(** A value member: the default when the member is missing or falsy, else
    the member as it is, whatever it is. *)
Definition value_coerced (dflt : jsval) (member field : jsval) : Prop :=
  field = if truthy member then member else dflt.

(** The row stored for a candidate. *)
Definition coerced (userId : jsstring) (cand : jsval) (r : StudyRecommendation.t) : Prop :=
  StudyRecommendation.userId r = userId
  /\ StudyRecommendation.dismissed r = false
  /\ (length (StudyRecommendation.title r) <= 60)%nat
  /\ (length (StudyRecommendation.description r) <= 200)%nat
  /\ (exists title description subject type priority,
        get_prop cand (js "title") = Some title
        /\ get_prop cand (js "description") = Some description
        /\ get_prop cand (js "subject") = Some subject
        /\ get_prop cand (js "type") = Some type
        /\ get_prop cand (js "priority") = Some priority
        /\ text_coerced 60 "Study Tip" title (StudyRecommendation.title r)
        /\ text_coerced 200 "Keep up the great work!" description
             (StudyRecommendation.description r)
        /\ value_coerced JNull subject (StudyRecommendation.subject r)
        /\ value_coerced (JStr (js "study_tip")) type (StudyRecommendation.type r)
        /\ value_coerced (JStr (js "medium")) priority (StudyRecommendation.priority r)).




(** ** Concrete requests *)

Definition alice : jsstring := js "alice".
Definition bob : jsstring := js "bob".

(** A host for the examples: of the date strings it reads the one the
    examples use, and its provider answers with a fixed text. *)
Definition host (answer : string) : Env :=
  mkEnv 1700000000000 1700000000001
    (fun s => if jsstring_eqb s (js "2030-01-01T00:00:00.000Z")
              then DateAt 1893456000000 else InvalidDate)
    123456789 (Some (js "key")) (fun _ => Content (Some (jsq answer))).

(** The body of a request, written as JSON. *)
Definition body_of (text : string) : jsval := default JUndefined (JSON.parse (jsq text)).

(** The members handed to [updateTask] for a parsed patch. *)
Definition patch_of (env : Env) (data : TaskUpdate.t) : PartialInsertTask.t :=
  PartialInsertTask.mk undefined
    (TaskUpdate.title data) (TaskUpdate.description data) (TaskUpdate.subject data)
    (TaskUpdate.priority data) (TaskUpdate.status data)
    (match TaskUpdate.dueDate data with
     | undefined => undefined
     | dueDate => string_or dueDate (fun s => just (new_Date env s)) null
     end)
    (TaskUpdate.estimatedMinutes data).

(** The row stored for a candidate that can be coerced. *)
Definition row_of (env : Env) (data : InsertRecommendation.t) : StudyRecommendation.t :=
  StudyRecommendation.mk
    (InsertRecommendation.userId data) (InsertRecommendation.title data)
    (InsertRecommendation.description data) (InsertRecommendation.subject data)
    (InsertRecommendation.type data) (InsertRecommendation.priority data)
    (InsertRecommendation.dismissed data) (db_now env).


(** ** Stores of the examples *)

(** The store after alice created the task "Essay". *)
Definition essay_store : Store :=
  snd (POST_tasks (host "[]") alice (body_of "{'title':'Essay','priority':'high'}")
         empty_store).

(** The same after alice completed the task. *)
Definition completed_essay_store : Store :=
  snd (PATCH_task (host "[]") alice (js "1") (body_of "{'status':'completed'}")
         essay_store).

(** A store with a dismissed recommendation of alice and a read
    notification of bob. *)
Definition flagged_store : Store :=
  mkStore [] ∅ 1 ∅ 1 ∅ 1
    {[ 1 := StudyRecommendation.mk alice (js "Review") (js "Go over chapter 2")
              JNull (JStr (js "review")) (JStr (js "low")) true 1699999999000 ]} 2
    ∅ 1
    {[ 1 := Notification.mk bob (js "Deadline") (js "Essay due tomorrow")
              (js "deadline") true 1699999999000 ]} 2
    ∅.

(** ** Rows within the bounds of the schemas *)

(** What the task schemas let through: a title of 1 to 500 code units, a
    description of at most 5000, a subject of at most 200, an estimate of 1
    to 1440 minutes. *)
Definition task_valid (t : Task.t) : Prop :=
  (1 <= length (Task.title t) <= 500)%nat
  /\ (forall s, Task.description t = Some s -> (length s <= 5000)%nat)
  /\ (forall s, Task.subject t = Some s -> (length s <= 200)%nat)
  /\ (forall m, Task.estimatedMinutes t = Some m -> 1 <= m <= 1440).

(** What the session schema lets through, and the end time the storage
    layer sets: there is one exactly when the session is completed. *)
Definition session_valid (s : PomodoroSession.t) : Prop :=
  1 <= PomodoroSession.duration s <= 120
  /\ 1 <= PomodoroSession.breakDuration s <= 60
  /\ (PomodoroSession.completed s = true <-> is_Some (PomodoroSession.endedAt s)).

(** The lengths the handler cuts the texts of a recommendation to. *)
Definition recommendation_valid (r : StudyRecommendation.t) : Prop :=
  (length (StudyRecommendation.title r) <= 60)%nat
  /\ (length (StudyRecommendation.description r) <= 200)%nat.

(** What the upload lets through: a type of the list, a size within the
    limit; and the stored name holds no path separator. *)
Definition file_valid (f : FileUpload.t) : Prop :=
  (FileUpload.mimeType f ∈ ALLOWED_MIME_TYPES)
  /\ FileUpload.size f <= fileSize_limit
  /\ (47%N ∉ FileUpload.filename f).

Definition store_valid (st : Store) : Prop :=
  map_Forall (fun _ => task_valid) (tasks st)
  /\ map_Forall (fun _ => session_valid) (pomodoroSessions st)
  /\ map_Forall (fun _ => recommendation_valid) (studyRecommendations st)
  /\ map_Forall (fun _ => file_valid) (fileUploads st).

(** The members of a parsed task body lie within the bounds of the schema. *)
Definition members_valid (title : maybe jsstring) (description subject : maybe jsstring)
    (estimatedMinutes : maybe number) : Prop :=
  (forall s, title = just s -> (1 <= length s <= 500)%nat)
  /\ (forall s, description = just s -> (length s <= 5000)%nat)
  /\ (forall s, subject = just s -> (length s <= 200)%nat)
  /\ (forall x, estimatedMinutes = just x ->
        exists k, Number.to_Z x = Some k /\ 1 <= k <= 1440).

(** ** What a request may do to the store *)

(** One change of the store by a request of [caller], with what the
    handlers have checked before they make it: a row that is rewritten or
    removed is the caller's, a row that is added is the caller's, sits
    under the next key and is within the bounds, and a role is set by an
    admin only. *)
Inductive effect (caller : jsstring) (st : Store) : Store -> Prop :=
| profile_created p :
    userProfiles st !! caller = None ->
    UserProfile.role p = student ->
    effect caller st (with_userProfiles (insert caller p) 1 st)
| role_set target p bump :
    not_admin (userProfiles st !! caller) = false ->
    effect caller st (with_userProfiles (insert target p) bump st)
| task_created t :
    Task.userId t = caller ->
    task_valid t ->
    effect caller st (with_tasks (insert (tasks_seq st) t) 1 st)
| task_updated k old new :
    tasks st !! k = Some old ->
    Task.userId old = caller ->
    Task.userId new = caller ->
    Task.createdAt new = Task.createdAt old ->
    (task_valid old -> task_valid new) ->
    effect caller st (with_tasks (insert k new) 0 st)
| task_deleted k old :
    tasks st !! k = Some old ->
    Task.userId old = caller ->
    effect caller st (with_tasks (delete k) 0 st)
| session_created s :
    PomodoroSession.userId s = caller ->
    session_valid s ->
    effect caller st (with_pomodoroSessions (insert (pomodoroSessions_seq st) s) 1 st)
| recommendation_created r :
    StudyRecommendation.userId r = caller ->
    StudyRecommendation.dismissed r = false ->
    recommendation_valid r ->
    effect caller st
      (with_studyRecommendations (insert (studyRecommendations_seq st) r) 1 st)
| recommendation_dismissed k r :
    studyRecommendations st !! k = Some r ->
    StudyRecommendation.userId r = caller ->
    effect caller st (with_studyRecommendations (alter set_dismissed k) 0 st)
| upload_written name :
    47%N ∉ name ->
    effect caller st (with_uploads (fun d => {[ name ]} ∪ d) st)
| upload_removed k f :
    fileUploads st !! k = Some f ->
    FileUpload.userId f = caller ->
    effect caller st (with_uploads (fun d => d ∖ {[ FileUpload.filename f ]}) st)
| file_created f :
    FileUpload.userId f = caller ->
    file_valid f ->
    effect caller st (with_fileUploads (insert (fileUploads_seq st) f) 1 st)
| file_deleted k f :
    fileUploads st !! k = Some f ->
    FileUpload.userId f = caller ->
    effect caller st (with_fileUploads (delete k) 0 st)
| notification_read k n :
    notifications st !! k = Some n ->
    Notification.userId n = caller ->
    effect caller st (with_notifications (alter set_read k) 0 st)
| notifications_read_all :
    effect caller st
      (with_notifications
         (fmap (fun n => if jsstring_eqb (Notification.userId n) caller
                         then set_read n else n)) 0 st).

(** Any number of such changes, one after the other. *)
Definition effects (caller : jsstring) : relation Store := rtc (effect caller).

(** ** What requests keep *)

(** The rows of the users other than [caller] are the same in both tables:
    none is changed, removed or added. *)
Definition same_rows_of_others {A} (owner : A -> jsstring) (caller : jsstring)
    (t t' : gmap Z A) : Prop :=
  forall k a, owner a <> caller -> t !! k = Some a <-> t' !! k = Some a.

Definition others_untouched (caller : jsstring) (st st' : Store) : Prop :=
  same_rows_of_others Task.userId caller (tasks st) (tasks st')
  /\ same_rows_of_others PomodoroSession.userId caller
       (pomodoroSessions st) (pomodoroSessions st')
  /\ same_rows_of_others StudyRecommendation.userId caller
       (studyRecommendations st) (studyRecommendations st')
  /\ same_rows_of_others FileUpload.userId caller (fileUploads st) (fileUploads st')
  /\ same_rows_of_others Notification.userId caller (notifications st) (notifications st').

(** Every profile is still there as it was, and a profile that was not
    there is a student's. *)
Definition profiles_kept (st st' : Store) : Prop :=
  (forall u p, userProfiles st !! u = Some p -> userProfiles st' !! u = Some p)
  /\ (forall u p, userProfiles st' !! u = Some p ->
        userProfiles st !! u = Some p
        \/ (userProfiles st !! u = None /\ UserProfile.role p = student)).

(** The rows of a table are still there as they were. *)
Definition rows_kept {A} (t t' : gmap Z A) : Prop :=
  forall k a, t !! k = Some a -> t' !! k = Some a.

(** A table under its sequence: the sequence does not go back, a key that
    was handed out and is free stays free, and a row that is still there
    agrees with what it was in the sense of [same]. *)
Definition keys_kept {A} (same : A -> A -> Prop) (t : gmap Z A) (seq : Z)
    (t' : gmap Z A) (seq' : Z) : Prop :=
  seq <= seq'
  /\ (forall k, k < seq -> t !! k = None -> t' !! k = None)
  /\ (forall k a a', t !! k = Some a -> t' !! k = Some a' -> same a a').

(** A task has the owner and the creation time it had. *)
Definition same_task (t t' : Task.t) : Prop :=
  Task.userId t' = Task.userId t /\ Task.createdAt t' = Task.createdAt t.

(** The two tables that lose rows: a task keeps its owner and its creation
    time, a file record every member. *)
Definition identities_kept (st st' : Store) : Prop :=
  keys_kept same_task (tasks st) (tasks_seq st) (tasks st') (tasks_seq st')
  /\ keys_kept eq (fileUploads st) (fileUploads_seq st)
       (fileUploads st') (fileUploads_seq st').

(** Every row is still there, the same but for a flag that may have been
    raised. *)
Definition rows_flagged {A} (raise : A -> A) (t t' : gmap Z A) : Prop :=
  forall k a, t !! k = Some a ->
    exists a', t' !! k = Some a' /\ (a' = a \/ a' = raise a).

(** ** Lists and kinds of requests *)

(** A list holds the rows of a user, all of them and no other, each once,
    the newest first. *)
Definition listed {A} (owner : A -> jsstring) (created : A -> Z) (t : gmap Z A)
    (userId : jsstring) (l : list (row A)) : Prop :=
  (forall k a, In (k, a) l <-> t !! k = Some a /\ owner a = userId)
  /\ NoDup l
  /\ (forall i j a b, (i < j)%nat -> l !! i = Some a -> l !! j = Some b ->
        created (snd b) <= created (snd a)).

(** The requests that only read. *)
Definition reads_only (req : Request) : bool :=
  match req with
  | GetTasks | GetPomodoro | GetRecommendations | GetFiles | GetFileDownload _
  | GetNotifications | GetAdminStats | GetAdminUsers => true
  | _ => false
  end.

(** The requests of the admin routes. *)
Definition admin_only (req : Request) : bool :=
  match req with
  | GetAdminStats | GetAdminUsers | PatchAdminUserRole _ _ => true
  | _ => false
  end.

(** The route parameter of a request that names a row by its key. *)
Definition route_param (req : Request) : option jsstring :=
  match req with
  | PatchTask id _ | DeleteTask id | PatchRecommendationDismiss id
  | GetFileDownload id | DeleteFile id | PatchNotificationRead id => Some id
  | _ => None
  end.

(** The file part passes the filter and the size limit of the upload. *)
Definition accepted (p : FilePart.t) : Prop :=
  (FilePart.mimetype p ∈ ALLOWED_MIME_TYPES) /\ FilePart.size p <= fileSize_limit.

(** ** Further stores and file parts of the examples *)

Definition carol : jsstring := js "carol".

(** A store in which alice is an admin and bob a student; carol has no
    profile. *)
Definition admin_store : Store :=
  mkStore
    [ User.mk alice (Some (js "alice@example.org")) None None;
      User.mk bob None None None ]
    {[ alice := UserProfile.mk 1 admin None None (Some 120);
       bob := UserProfile.mk 2 student None None (Some 120) ]} 3
    ∅ 1 ∅ 1 ∅ 1 ∅ 1 ∅ 1 ∅.

(** A store with an unread notification of alice and one of bob. *)
Definition inbox_store : Store :=
  mkStore [] ∅ 1 ∅ 1 ∅ 1 ∅ 1 ∅ 1
    {[ 1 := Notification.mk alice (js "Deadline") (js "Essay due tomorrow")
              (js "deadline") false 1699999999000;
       2 := Notification.mk bob (js "Welcome") (js "Good to see you")
              (js "info") false 1699999999500 ]} 3
    ∅.

(** The store after alice recorded a completed session. *)
Definition session_store : Store :=
  snd (POST_pomodoro (host "[]") alice
         (body_of "{'duration':25,'breakDuration':5,'completed':true}") empty_store).

(** The store after a recommendation was generated for alice. *)
Definition advice_store : Store :=
  snd (POST_recommendations_generate (host "[{'title':'Plan the week'}]") alice
         empty_store).

(** File parts: a PDF, and an archive, whose type is not in the list. *)
Definition notes_pdf : FilePart.t :=
  FilePart.mk (js "notes.pdf") (js "application/pdf") 1000.

Definition backup_zip : FilePart.t :=
  FilePart.mk (js "backup.zip") (js "application/zip") 1000.

(** * Proofs *)

Arguments z.number_int : simpl never.
Arguments z.string : simpl never.
Arguments z.enum : simpl never.
Arguments js : simpl never.
Arguments Nat.min : simpl never.
Arguments substring0 : simpl never.

(** ** Running the monad *)

Lemma bind_run {A B} (m : M A) (f : A -> M B) st :
  (m ≫= f) st
  = match m st with
    | (Return a, st') => f a st'
    | (Throw, st') => (Throw, st')
    end.
Proof. reflexivity. Qed.

Lemma bind_required {A B} (o : option A) (f : A -> M B) st :
  (required o ≫= f) st
  = match o with
    | Some a => f a st
    | None => (Throw, st)
    end.
Proof. by destruct o. Qed.

Lemma bind_gets {A B} (g : Store -> A) (f : A -> M B) st :
  (gets g ≫= f) st = f (g st) st.
Proof. reflexivity. Qed.

(** ** Numbers *)

Lemma to_Z_zero_falsy x : Number.to_Z x = Some 0 -> Number.truthy x = false.
Proof.
  destruct x as [| |neg m e]; simpl; try discriminate.
  set (v := if neg then _ else _).
  assert (Hv : v = 0 -> m = 0%N) by (subst v; destruct neg; lia).
  intros H. apply negb_false_iff, N.eqb_eq, Hv.
  destruct (0 <=? e) eqn:He.
  - injection H as H. apply Z.leb_le in He.
    assert (0 < 2 ^ e) by (apply Z.pow_pos_nonneg; lia). nia.
  - apply Z.leb_gt in He.
    assert (Hp : 0 < 2 ^ (- e)) by (apply Z.pow_pos_nonneg; lia).
    destruct (_ =? 0) eqn:Hm; [|discriminate]. injection H as H.
    apply Z.eqb_eq in Hm.
    assert (Hvm : v mod 2 ^ (- e) = 0).
    { subst v. destruct neg; [|done]. apply Z.mod_opp_l_z; lia. }
    apply Z.div_exact in Hvm; lia.
Qed.


Lemma to_Z_not_NaN x k : Number.to_Z x = Some k -> Number.isNaN x = false.
Proof. by destruct x. Qed.

(** ** Schemas *)

Lemma number_int_integer lo hi v x :
  z.number_int lo hi v = Some x -> v = JNum x /\ exists k, Number.to_Z x = Some k.
Proof.
  unfold z.number_int. destruct v; try discriminate.
  unfold Number.isInteger.
  destruct (Number.to_Z x0) as [k|] eqn:E;
    repeat (rewrite ?andb_false_r, ?andb_false_l; simpl); try discriminate.
  destruct (_ && _ && _); intros [= <-]. eauto.
Qed.

Lemma optional_int_integer lo hi v t :
  z.nullable (z.optional (z.number_int lo hi)) v = Some t ->
  integer_value t = Some (match t with
                          | just x => match Number.to_Z x with
                                      | Some k => just k
                                      | None => undefined
                                      end
                          | null => null
                          | undefined => undefined
                          end).
Proof.
  intros H. unfold z.nullable, z.optional in H.
  destruct v; try (by injection H as <-); try discriminate.
  unfold fmap, option_fmap, option_map in H.
  destruct (z.number_int lo hi (JNum x)) as [y|] eqn:Hy; [|discriminate].
  injection H as <-. apply number_int_integer in Hy as [_ [k Hk]].
  simpl. by rewrite Hk.
Qed.

Lemma enum_statuses_completed v :
  z.enum statuses v = Some completed -> v = JStr (js "completed").
Proof.
  unfold z.enum. destruct v as [| | | |s| |]; try discriminate.
  unfold statuses, List.find, jsstring_eqb. simpl.
  repeat case_bool_decide; try discriminate. by subst.
Qed.

(** ** Selections *)

Lemma select_by_id_Some {A} (t : gmap Z A) x k a :
  select_by_id t x = Some (k, a) <-> Number.to_Z x = Some k /\ t !! k = Some a.
Proof.
  unfold select_by_id.
  destruct (Number.to_Z x) as [j|]; simpl; [|by split; [|intros []]].
  destruct (t !! j) eqn:E; simpl; split; try done.
  - by intros [= <- <-].
  - intros [[= <-] Ha]. by rewrite E in Ha; injection Ha as <-.
  - intros [[= <-] Ha]. by rewrite E in Ha.
Qed.

Lemma select_by_id_None {A} (t : gmap Z A) x :
  select_by_id t x = None <->
  forall k, Number.to_Z x = Some k -> t !! k = None.
Proof.
  unfold select_by_id. destruct (Number.to_Z x) as [j|]; simpl; [|done].
  destruct (t !! j) eqn:E; simpl; split; try done.
  - intros H. specialize (H j eq_refl). by rewrite E in H.
  - by intros _ k [= <-].
Qed.

Lemma elem_of_select_by_user {A} (owner : A -> jsstring) (created : A -> Z)
    (t : gmap Z A) (u : jsstring) k a :
  In (k, a) (select_by_user owner created t u) <-> t !! k = Some a /\ owner a = u.
Proof.
  unfold select_by_user.
  rewrite <- list_elem_of_In, merge_sort_Permutation, list_elem_of_In, filter_In.
  rewrite <- list_elem_of_In, elem_of_map_to_list. simpl.
  unfold jsstring_eqb. by rewrite bool_decide_eq_true.
Qed.

(** Looking a key up in the rows of a user finds a row exactly when the
    row under the key is the user's. *)
Lemma find_own_row {A} (owner : A -> jsstring) (created : A -> Z)
    (t : gmap Z A) (u : jsstring) (id : number) :
  match List.find (fun r => key_is id (fst r)) (select_by_user owner created t u) with
  | Some _ => exists k a, select_by_id t id = Some (k, a) /\ owner a = u
  | None => forall k a, select_by_id t id = Some (k, a) -> owner a <> u
  end.
Proof.
  destruct (List.find _ _) as [[k a]|] eqn:E.
  - apply find_some in E as [Hin Hk]. apply elem_of_select_by_user in Hin as [Ha Hu].
    unfold key_is in Hk. apply bool_decide_eq_true in Hk. simpl in Hk.
    exists k, a. split; [|done]. by apply select_by_id_Some.
  - intros k a [Hk Ha]%select_by_id_Some Hu.
    pose proof (find_none _ _ E (k, a)) as Hn. simpl in Hn.
    unfold key_is in Hn. rewrite bool_decide_eq_false in Hn. apply Hn; [|done].
    by apply elem_of_select_by_user.
Qed.

(** ** Well-formed tables *)

Lemma wf_table_empty {A} : wf_table (∅ : gmap Z A) 1.
Proof. split; [lia|]. intros k a Hk. by rewrite lookup_empty in Hk. Qed.

Lemma wf_table_fresh {A} (t : gmap Z A) seq : wf_table t seq -> t !! seq = None.
Proof.
  intros [_ H]. destruct (t !! seq) eqn:E; [|done].
  specialize (H _ _ E). simpl in H. lia.
Qed.

Lemma wf_table_insert_next {A} (t : gmap Z A) seq a :
  wf_table t seq -> wf_table (<[seq := a]> t) (seq + 1).
Proof.
  intros [H1 H2]. split; [lia|]. intros k b.
  rewrite lookup_insert. case_decide; [lia|]. intros Hk%H2. simpl in Hk. lia.
Qed.

Lemma wf_table_sub {A} (t t' : gmap Z A) seq :
  (forall k, is_Some (t' !! k) -> is_Some (t !! k)) ->
  wf_table t seq -> wf_table t' (seq + 0).
Proof.
  intros Hsub [H1 H2]. split; [lia|]. intros k b Hk.
  destruct (Hsub k) as [a Ha]; [by eexists|].
  specialize (H2 _ _ Ha). simpl in *. lia.
Qed.

Lemma wf_table_insert_known {A} (t : gmap Z A) seq k a :
  is_Some (t !! k) -> wf_table t seq -> wf_table (<[k := a]> t) (seq + 0).
Proof.
  intros Hk. apply wf_table_sub. intros j.
  rewrite lookup_insert. by case_decide; [subst|].
Qed.

Lemma wf_table_delete_by_id {A} (t : gmap Z A) seq x :
  wf_table t seq -> wf_table (delete_by_id x t) (seq + 0).
Proof.
  apply wf_table_sub. intros k. unfold delete_by_id.
  destruct (Number.to_Z x) as [j|]; [|done].
  rewrite lookup_delete. case_decide; [by intros []|done].
Qed.

Lemma wf_table_alter {A} (f : A -> A) (t : gmap Z A) seq k :
  wf_table t seq -> wf_table (alter f k t) (seq + 0).
Proof.
  apply wf_table_sub. intros j. rewrite lookup_alter.
  case_decide; [subst; by rewrite fmap_is_Some|done].
Qed.

Lemma wf_table_fmap {A} (f : A -> A) (t : gmap Z A) seq :
  wf_table t seq -> wf_table (f <$> t) (seq + 0).
Proof. apply wf_table_sub. intros j. by rewrite lookup_fmap, fmap_is_Some. Qed.

Lemma wf_table_id {A} (t : gmap Z A) seq : wf_table t seq -> wf_table t (seq + 0).
Proof. by apply wf_table_sub. Qed.

Lemma wf_empty : wf empty_store.
Proof. unfold wf; simpl. auto 10 using @wf_table_empty. Qed.

(** ** Steps that advance the store *)

Global Instance advance_refl : Reflexive advance.
Proof. intros st Hwf. split; [done|]. split; eauto. Qed.

Global Instance advance_trans : Transitive advance.
Proof.
  intros a b c Hab Hbc Hwf.
  destruct (Hab Hwf) as [Hb [Hr1 Hn1]].
  destruct (Hbc Hb) as [Hc [Hr2 Hn2]].
  split; [done|]. split.
  - intros k r Hk Hd. destruct (Hr1 k r Hk Hd) as (r' & Hk' & Hd'). eauto.
  - intros k n Hk Hd. destruct (Hn1 k n Hk Hd) as (n' & Hk' & Hd'). eauto.
Qed.

(** A step that leaves the two flagged tables alone. *)
Lemma advance_outside st st' :
  studyRecommendations st' = studyRecommendations st ->
  studyRecommendations_seq st' = studyRecommendations_seq st ->
  notifications st' = notifications st ->
  notifications_seq st' = notifications_seq st ->
  (wf_table (tasks st) (tasks_seq st) -> wf_table (tasks st') (tasks_seq st')) ->
  (wf_table (pomodoroSessions st) (pomodoroSessions_seq st) ->
   wf_table (pomodoroSessions st') (pomodoroSessions_seq st')) ->
  (wf_table (fileUploads st) (fileUploads_seq st) ->
   wf_table (fileUploads st') (fileUploads_seq st')) ->
  advance st st'.
Proof.
  intros Hr Hrs Hn Hns Ht Hp Hf (Wt & Wp & Wr & Wf & Wn).
  split.
  - unfold wf. rewrite Hr, Hrs, Hn, Hns. auto 10.
  - unfold flags_kept. rewrite Hr, Hn. split; eauto.
Qed.

Lemma advance_with_userProfiles f bump st : advance st (with_userProfiles f bump st).
Proof. by apply advance_outside. Qed.

Lemma advance_with_uploads f st : advance st (with_uploads f st).
Proof. by apply advance_outside. Qed.

Lemma advances_ret {A} (a : A) : advances (mret a).
Proof. intros st. reflexivity. Qed.

Lemma advances_throw {A} : advances (@throw A).
Proof. intros st. reflexivity. Qed.

Lemma advances_gets {A} (f : Store -> A) : advances (gets f).
Proof. intros st. reflexivity. Qed.

Lemma advances_modify (f : Store -> Store) :
  (forall st, advance st (f st)) -> advances (modify f).
Proof. intros Hf st. apply Hf. Qed.

Lemma advances_bind {A B} (m : M A) (f : A -> M B) :
  advances m -> (forall a, advances (f a)) -> advances (m ≫= f).
Proof.
  intros Hm Hf st. rewrite bind_run.
  specialize (Hm st). destruct (m st) as [[a|] st1]; [|done].
  etrans; [exact Hm|]. apply Hf.
Qed.

Lemma advances_required {A} (o : option A) : advances (required o).
Proof. destruct o; [apply advances_ret|apply advances_throw]. Qed.

Lemma advances_col_notnull {A} (v : maybe A) d : advances (col_notnull v d).
Proof. apply advances_required. Qed.

Lemma advances_timestamp_col v : advances (timestamp_col v).
Proof. apply advances_required. Qed.

Lemma advances_integer_col v : advances (integer_col v).
Proof. apply advances_required. Qed.

Lemma advances_try_catch (h : M Response) msg st :
  advances h -> advance st (snd (try_catch h msg st)).
Proof.
  intros Hh. unfold try_catch. specialize (Hh st).
  by destruct (h st) as [[r|] st'].
Qed.

Create HintDb adv discriminated.
#[local] Hint Resolve advances_ret advances_throw advances_gets advances_required
  advances_col_notnull advances_timestamp_col advances_integer_col : adv.

(** *** The storage layer *)

Lemma advances_getProfile u : advances (getProfile u).
Proof. apply advances_gets. Qed.

Lemma advances_upsertProfile data : advances (upsertProfile data).
Proof.
  unfold upsertProfile.
  do 3 (apply advances_bind; [auto using advances_getProfile with adv|intros ?]).
  apply advances_bind; [|auto with adv].
  apply advances_modify, advance_with_userProfiles.
Qed.

Lemma advances_updateProfileRole u role : advances (updateProfileRole u role).
Proof.
  unfold updateProfileRole.
  apply advances_bind; [apply advances_getProfile|intros [old|]]; [|auto with adv].
  apply advances_bind; [|auto with adv].
  apply advances_modify, advance_with_userProfiles.
Qed.

Lemma advances_createTask env data : advances (createTask env data).
Proof.
  unfold createTask.
  do 4 (apply advances_bind; [auto with adv|intros ?]).
  intros st. apply advance_outside; try done. apply wf_table_insert_next.
Qed.

Lemma advances_updateTask env id data : advances (updateTask env id data).
Proof.
  unfold updateTask. destruct (_ && _); [auto with adv|].
  do 3 (apply advances_bind; [auto with adv|intros ?]).
  intros st. unfold getTask. rewrite bind_gets.
  destruct (select_by_id (tasks st) id) as [[k old]|] eqn:E; [|reflexivity].
  apply select_by_id_Some in E as [_ E].
  unfold col_notnull. repeat (rewrite bind_required; destruct (notnull _ _); [|reflexivity]).
  apply advance_outside; try done. by apply wf_table_insert_known.
Qed.

Lemma advances_deleteTask id : advances (deleteTask id).
Proof.
  apply advances_modify. intros st. apply advance_outside; try done.
  apply wf_table_delete_by_id.
Qed.

Lemma advances_createPomodoroSession env data : advances (createPomodoroSession env data).
Proof.
  unfold createPomodoroSession.
  do 7 (apply advances_bind; [auto with adv|intros ?]).
  intros st. apply advance_outside; try done. apply wf_table_insert_next.
Qed.

Lemma advances_createRecommendation env data : advances (createRecommendation env data).
Proof.
  unfold createRecommendation.
  do 2 (apply advances_bind; [destruct (_ data); auto with adv|intros ?]).
  intros st Hwf. pose proof Hwf as (Wt & Wp & Wr & Wf & Wn). split.
  - split; [|split; [|split; [|split]]]; simpl; try done.
    by apply wf_table_insert_next.
  - split; simpl; [|eauto]. intros k r Hk Hd. exists r. split; [|done].
    rewrite lookup_insert_ne; [done|].
    intros <-. by rewrite (wf_table_fresh _ _ Wr) in Hk.
Qed.

Lemma advances_dismissRecommendation id : advances (dismissRecommendation id).
Proof.
  apply advances_modify. intros st Hwf.
  pose proof Hwf as (Wt & Wp & Wr & Wf & Wn). split.
  - split; [|split; [|split; [|split]]]; simpl; try done.
    destruct (Number.to_Z id); [by apply wf_table_alter|by apply wf_table_id].
  - split; simpl; [|eauto]. intros k r Hk Hd.
    destruct (Number.to_Z id) as [j|]; [|eauto].
    rewrite lookup_alter. case_decide; [subst j|eauto].
    rewrite Hk. simpl. eauto.
Qed.

Lemma advances_createFile env data : advances (createFile env data).
Proof.
  unfold createFile.
  apply advances_bind.
  { destruct (InsertFileUpload.taskId data); [|auto with adv].
    apply advances_bind; auto with adv. }
  intros ? st. apply advance_outside; try done. apply wf_table_insert_next.
Qed.

Lemma advances_deleteFile id : advances (deleteFile id).
Proof.
  apply advances_modify. intros st. apply advance_outside; try done.
  apply wf_table_delete_by_id.
Qed.

Lemma advances_createNotification env data : advances (createNotification env data).
Proof.
  unfold createNotification.
  do 2 (apply advances_bind; [auto with adv|intros ?]).
  intros st Hwf. pose proof Hwf as (Wt & Wp & Wr & Wf & Wn). split.
  - split; [|split; [|split; [|split]]]; simpl; try done.
    by apply wf_table_insert_next.
  - split; simpl; [eauto|]. intros k r Hk Hd. exists r. split; [|done].
    rewrite lookup_insert_ne; [done|].
    intros <-. by rewrite (wf_table_fresh _ _ Wn) in Hk.
Qed.

Lemma advances_markNotificationRead id : advances (markNotificationRead id).
Proof.
  apply advances_modify. intros st Hwf.
  pose proof Hwf as (Wt & Wp & Wr & Wf & Wn). split.
  - split; [|split; [|split; [|split]]]; simpl; try done.
    destruct (Number.to_Z id); [by apply wf_table_alter|by apply wf_table_id].
  - split; simpl; [eauto|]. intros k n Hk Hd.
    destruct (Number.to_Z id) as [j|]; [|eauto].
    rewrite lookup_alter. case_decide; [subst j|eauto].
    rewrite Hk. simpl. eauto.
Qed.

Lemma advances_markAllNotificationsRead u : advances (markAllNotificationsRead u).
Proof.
  apply advances_modify. intros st Hwf.
  pose proof Hwf as (Wt & Wp & Wr & Wf & Wn). split.
  - split; [|split; [|split; [|split]]]; simpl; try done.
    by apply wf_table_fmap.
  - split; simpl; [eauto|]. intros k n Hk Hd.
    rewrite lookup_fmap, Hk. simpl. eexists; split; [done|].
    by destruct (jsstring_eqb _ _).
Qed.

#[local] Hint Resolve advances_getProfile advances_upsertProfile advances_updateProfileRole
  advances_createTask advances_updateTask advances_deleteTask
  advances_createPomodoroSession advances_createRecommendation
  advances_dismissRecommendation advances_createFile advances_deleteFile
  advances_markNotificationRead advances_markAllNotificationsRead : adv.

Lemma advances_create_all env u recs : advances (create_all env u recs).
Proof.
  induction recs as [|rec rest IH]; simpl; [auto with adv|].
  apply advances_bind; [auto with adv|intros data].
  apply advances_bind; [auto with adv|intros saved].
  apply advances_bind; [exact IH|intros created]. auto with adv.
Qed.

#[local] Hint Resolve advances_create_all : adv.

(** *** The handlers *)

(** A handler body is taken apart into the storage calls it makes. *)
Ltac adv_step :=
  first
    [ solve [auto with adv]
    | match goal with
      | |- advances (match ?x with _ => _ end) => destruct x
      | |- advances (if ?b then _ else _) => destruct b
      | |- advances (number_or ?v _ _) => unfold number_or
      | |- advances (getTasks _) => apply advances_gets
      | |- advances (getAllTasks) => apply advances_gets
      | |- advances (getTask _) => apply advances_gets
      | |- advances (getPomodoroSessions _) => apply advances_gets
      | |- advances (getAllPomodoroSessions) => apply advances_gets
      | |- advances (getAllProfiles) => apply advances_gets
      | |- advances (getRecommendations _) => apply advances_gets
      | |- advances (getFiles _) => apply advances_gets
      | |- advances (getFile _) => apply advances_gets
      | |- advances (getNotifications _) => apply advances_gets
      | |- advances (modify (with_uploads _)) =>
          apply advances_modify, advance_with_uploads
      | |- advances (_ ≫= _) => apply advances_bind; [|intros ?]
      end ].

Ltac adv_handler :=
  apply advances_try_catch; cbv zeta; repeat adv_step.

Lemma handle_advance env u req st : advance st (snd (handle env u req st)).
Proof.
  destruct req as [ | |b|i b|i| |b| | |i| |f t|i|i| |i| | | |tgt b]; unfold handle.
  - unfold GET_profile. adv_handler.
  - unfold GET_tasks. adv_handler.
  - unfold POST_tasks. adv_handler.
  - unfold PATCH_task. adv_handler.
  - unfold DELETE_task. adv_handler.
  - unfold GET_pomodoro. adv_handler.
  - unfold POST_pomodoro. adv_handler.
  - unfold GET_recommendations. adv_handler.
  - unfold POST_recommendations_generate. adv_handler.
  - unfold PATCH_recommendation_dismiss. adv_handler.
  - unfold GET_files. adv_handler.
  - unfold POST_files_upload.
    destruct f as [p|]; [|unfold upload_handler; adv_handler].
    destruct (negb _); [reflexivity|]. destruct (_ <? _); [reflexivity|].
    etrans; [apply advance_with_uploads|]. unfold upload_handler. adv_handler.
  - unfold GET_file_download. adv_handler.
  - unfold DELETE_file. adv_handler.
  - unfold GET_notifications. adv_handler.
  - unfold PATCH_notification_read. adv_handler.
  - unfold PATCH_notifications_read_all. adv_handler.
  - unfold GET_admin_stats. adv_handler.
  - unfold GET_admin_users. adv_handler.
  - unfold PATCH_admin_user_role. adv_handler.
Qed.

Lemma run_advance reqs st : advance st (run reqs st).
Proof.
  revert st. induction reqs as [|[[env u] req] reqs IH]; intros st; simpl.
  - reflexivity.
  - etrans; [apply handle_advance|apply IH].
Qed.

(** Every request keeps a well-formed store well-formed. *)
Lemma handle_wf env u req st : wf st -> wf (snd (handle env u req st)).
Proof. intros Hwf. by apply handle_advance. Qed.

(** Every store reached from the empty one is well-formed. *)
Lemma run_wf reqs : wf (run reqs empty_store).
Proof. by apply run_advance, wf_empty. Qed.

(** C5. Through every endpoint the dismissed flag of a recommendation and
    the read flag of a notification only rise: after any sequence of
    requests, by any callers, a recommendation that was dismissed is still
    stored and dismissed, and a notification that was read is still stored
    and read. *)
Theorem flags_are_monotonic reqs st :
  wf st ->
  (forall k r, studyRecommendations st !! k = Some r ->
     StudyRecommendation.dismissed r = true ->
     exists r', studyRecommendations (run reqs st) !! k = Some r'
                /\ StudyRecommendation.dismissed r' = true)
  /\ (forall k n, notifications st !! k = Some n ->
        Notification.read n = true ->
        exists n', notifications (run reqs st) !! k = Some n'
                   /\ Notification.read n' = true).
Proof. intros Hwf. by apply run_advance. Qed.

(** ** Pomodoro sessions *)

Lemma createPomodoroSession_validated env uid tid dur brk c st kd kb :
  integer_value tid = Some (match tid with
                            | just x => match Number.to_Z x with
                                        | Some k => just k
                                        | None => undefined
                                        end
                            | null => null
                            | undefined => undefined
                            end) ->
  Number.to_Z dur = Some kd -> Number.to_Z brk = Some kb ->
  createPomodoroSession env
    (InsertPomodoro.mk uid tid (just dur) (just brk) (just c)) st
  = let session :=
      PomodoroSession.mk uid (stored_key tid) kd kb c (db_now env)
        (if c then Some (Date_now env) else None) in
    (Return (pomodoroSessions_seq st, session),
     with_pomodoroSessions (insert (pomodoroSessions_seq st) session) 1 st).
Proof.
  intros Ht Hd Hb. unfold createPomodoroSession, integer_col, timestamp_col, col_notnull.
  simpl. rewrite bind_required, Ht, bind_required. simpl. rewrite Hd. simpl.
  rewrite bind_required. simpl. rewrite Hb. simpl.
  destruct c; simpl; (destruct tid as [| |x]; simpl; [done|done|]);
    by destruct (Number.to_Z x).
Qed.

(** A session body that passes the schema and whose task reference passes
    the handler is stored, under the next key, and answered with 201. *)
Lemma POST_pomodoro_creates env userId body data st :
  pomodoroCreateSchema body = Some data ->
  reference_allowed userId st (PomodoroCreate.taskId data) = true ->
  exists session,
    POST_pomodoro env userId body st
    = (reply 201 (BSession (pomodoroSessions_seq st, session)),
       with_pomodoroSessions (insert (pomodoroSessions_seq st) session) 1 st)
    /\ PomodoroSession.userId session = userId
    /\ PomodoroSession.taskId session = stored_key (PomodoroCreate.taskId data)
    /\ PomodoroSession.completed session = PomodoroCreate.completed data
    /\ PomodoroSession.endedAt session
       = if PomodoroCreate.completed data then Some (Date_now env) else None.
Proof.
  intros Hs Href.
  unfold POST_pomodoro. rewrite Hs.
  destruct body as [| | | | | |o]; try discriminate.
  unfold pomodoroCreateSchema in Hs.
  apply bind_Some in Hs as (tid & Htid & Hs).
  apply bind_Some in Hs as (dur & Hdur & Hs).
  apply bind_Some in Hs as (brk & Hbrk & Hs).
  apply bind_Some in Hs as (c & Hc & Hs).
  injection Hs as <-. simpl in *.
  pose proof (optional_int_integer _ _ _ _ Htid) as Ht.
  apply number_int_integer in Hdur as [_ [kd Hkd]].
  apply number_int_integer in Hbrk as [_ [kb Hkb]].
  exists (PomodoroSession.mk userId (stored_key tid) kd kb c (db_now env)
            (if c then Some (Date_now env) else None)).
  split; [|done].
  pose proof (fun st => createPomodoroSession_validated env userId tid dur brk c st kd kb
                          Ht Hkd Hkb) as Hcreate.
  unfold try_catch, reference_allowed, number_or in *.
  destruct tid as [| |x]; [| |destruct (Number.truthy x)];
    try (rewrite bind_run, Hcreate; reflexivity).
  unfold getTask. rewrite bind_gets. unfold not_own_task.
  destruct (select_by_id (tasks st) x) as [[k t]|]; [|discriminate].
  rewrite Href. simpl. by rewrite bind_run, Hcreate.
Qed.

(** The completed flag of a parsed session body is the member of the body. *)
Lemma pomodoroCreateSchema_completed body data :
  pomodoroCreateSchema body = Some data ->
  body_member body "completed" = JBool (PomodoroCreate.completed data).
Proof.
  destruct body as [| | | | | |o]; try discriminate.
  unfold pomodoroCreateSchema. intros Hs.
  apply bind_Some in Hs as (tid & Htid & Hs).
  apply bind_Some in Hs as (dur & Hdur & Hs).
  apply bind_Some in Hs as (brk & Hbrk & Hs).
  apply bind_Some in Hs as (c & Hc & Hs).
  injection Hs as <-. simpl.
  destruct (z.member o "completed"); try discriminate.
  by injection Hc as ->.
Qed.

(** C7. For every valid pomodoro-session creation the stored session has
    its [endedAt] set, to the server time of the creation, exactly when the
    supplied [completed] flag is true, and null otherwise. *)
Theorem endedAt_iff_completed env userId body data st :
  pomodoroCreateSchema body = Some data ->
  reference_allowed userId st (PomodoroCreate.taskId data) = true ->
  exists id session,
    fst (POST_pomodoro env userId body st) = reply 201 (BSession (id, session))
    /\ pomodoroSessions (snd (POST_pomodoro env userId body st)) !! id = Some session
    /\ body_member body "completed" = JBool (PomodoroCreate.completed data)
    /\ (PomodoroCreate.completed data = true ->
        PomodoroSession.endedAt session = Some (Date_now env))
    /\ (PomodoroCreate.completed data = false ->
        PomodoroSession.endedAt session = None).
Proof.
  intros Hs Href.
  destruct (POST_pomodoro_creates env userId body data st Hs Href)
    as (session & -> & _ & _ & _ & Hend).
  exists (pomodoroSessions_seq st), session. simpl.
  rewrite lookup_insert_eq, Hend.
  split; [done|]. split; [done|].
  split; [by apply pomodoroCreateSchema_completed|].
  by split; intros ->.
Qed.

(** C10. A session body whose [taskId] is zero passes the schema, is not
    checked against the tasks, whatever the store holds, and is stored with
    the task key 0 and answered with 201. *)
Theorem zero_taskId_skips_the_check env userId body data x st :
  pomodoroCreateSchema body = Some data ->
  PomodoroCreate.taskId data = just x ->
  Number.to_Z x = Some 0 ->
  exists id session,
    fst (POST_pomodoro env userId body st) = reply 201 (BSession (id, session))
    /\ pomodoroSessions (snd (POST_pomodoro env userId body st)) !! id = Some session
    /\ PomodoroSession.taskId session = Some 0.
Proof.
  intros Hs Ht Hx.
  destruct (POST_pomodoro_creates env userId body data st Hs)
    as (session & -> & _ & Htid & _).
  - unfold reference_allowed, number_or. rewrite Ht.
    by rewrite (to_Z_zero_falsy x Hx).
  - exists (pomodoroSessions_seq st), session. simpl.
    rewrite lookup_insert_eq. by rewrite Htid, Ht.
Qed.

(** ** Recommendations without a credential *)

(** C6. While the AI credential is unset or empty, generating
    recommendations answers 503 and leaves the store as it is. *)
Theorem generate_unconfigured env userId st :
  (AI_INTEGRATIONS_OPENAI_API_KEY env = None
   \/ AI_INTEGRATIONS_OPENAI_API_KEY env = Some []) ->
  POST_recommendations_generate env userId st
  = (reply 503 (BMessage "AI service is not configured"), st).
Proof.
  intros H. unfold POST_recommendations_generate, try_catch, ai_unconfigured.
  by destruct H as [-> | ->].
Qed.

(** ** Creating tasks *)



(** No creation of a task sets a completion time, whatever the status. *)
Lemma POST_tasks_never_stamps env userId body st k task :
  tasks (snd (POST_tasks env userId body st)) !! k = Some task ->
  tasks st !! k = None ->
  Task.completedAt task = None.
Proof.
  unfold POST_tasks, try_catch.
  destruct (taskCreateSchema body) as [data|]; simpl; [|congruence].
  unfold createTask, timestamp_col, integer_col, col_notnull.
  rewrite bind_run, bind_required.
  destruct (timestamp_value _); simpl; [|congruence].
  rewrite bind_required. destruct (integer_value _); simpl; [|congruence].
  rewrite lookup_insert. case_decide; [|congruence]. by intros [= <-].
Qed.

(** ** Updating tasks *)

(** What a run of [updateTask] does: it fails or finds no row, and the
    store stays; or it rewrites the row under the key, member by member. *)
Lemma updateTask_run env id data st :
  match updateTask env id data st with
  | (Return (Some (k, new)), st') =>
      exists old due est,
        select_by_id (tasks st) id = Some (k, old)
        /\ st' = with_tasks (insert k new) 0 st
        /\ timestamp_value (PartialInsertTask.dueDate data) = Some due
        /\ integer_value (PartialInsertTask.estimatedMinutes data) = Some est
        /\ notnull (PartialInsertTask.userId data) (Task.userId old)
           = Some (Task.userId new)
        /\ notnull (PartialInsertTask.title data) (Task.title old)
           = Some (Task.title new)
        /\ notnull (PartialInsertTask.priority data) (Task.priority old)
           = Some (Task.priority new)
        /\ notnull (PartialInsertTask.status data) (Task.status old)
           = Some (Task.status new)
        /\ Task.description new
           = col (PartialInsertTask.description data) (Task.description old)
        /\ Task.subject new = col (PartialInsertTask.subject data) (Task.subject old)
        /\ Task.dueDate new = col due (Task.dueDate old)
        /\ Task.estimatedMinutes new = col est (Task.estimatedMinutes old)
        /\ Task.completedAt new
           = match PartialInsertTask.status data with
             | just completed => Some (Date_now env)
             | _ => Task.completedAt old
             end
        /\ Task.createdAt new = Task.createdAt old
  | (_, st') => st' = st
  end.
Proof.
  unfold updateTask.
  set (cat := match PartialInsertTask.status data with
              | just completed => just (DateAt (Date_now env))
              | _ => undefined
              end).
  destruct (_ && _); [done|].
  unfold timestamp_col, integer_col, col_notnull, getTask.
  rewrite bind_required.
  destruct (timestamp_value (PartialInsertTask.dueDate data)) as [due|] eqn:Hdue; [|done].
  rewrite bind_required.
  destruct (integer_value (PartialInsertTask.estimatedMinutes data))
    as [est|] eqn:Hest; [|done].
  rewrite bind_required.
  destruct (timestamp_value cat) as [stamp|] eqn:Hdone; [|done].
  rewrite bind_gets.
  destruct (select_by_id (tasks st) id) as [[k old]|] eqn:Hsel; [|done].
  cbv beta iota.
  rewrite bind_required.
  destruct (notnull (PartialInsertTask.userId data) _) as [uid|] eqn:Huid; [|done].
  rewrite bind_required.
  destruct (notnull (PartialInsertTask.title data) _) as [title|] eqn:Htitle; [|done].
  rewrite bind_required.
  destruct (notnull (PartialInsertTask.priority data) _) as [prio|] eqn:Hprio; [|done].
  rewrite bind_required.
  destruct (notnull (PartialInsertTask.status data) _) as [stat|] eqn:Hstat; [|done].
  simpl. exists old, due, est. repeat (split; [done|]). split; [|done].
  subst cat. destruct (PartialInsertTask.status data) as [| |[]]; simpl in Hdone;
    by injection Hdone as <-.
Qed.

Lemma optional_not_null {A} (s : z.schema A) v t :
  z.optional s v = Some t -> t <> null.
Proof.
  unfold z.optional. destruct v; try (by intros [= <-]);
    destruct (s _); simpl; try discriminate; by intros [= <-].
Qed.

Lemma optional'_not_null {A} (s : z.schema (maybe A)) v t :
  (forall v t, s v = Some t -> t <> null) -> z.optional' s v = Some t -> t <> null.
Proof.
  intros Hs. unfold z.optional'. destruct v; try (by intros [= <-]); apply Hs.
Qed.

(** The handler on a stored task, past the lookup. *)
Lemma PATCH_task_found env caller id body st k old :
  select_by_id (tasks st) (parseInt id) = Some (k, old) ->
  PATCH_task env caller id body st
  = if negb (jsstring_eqb (Task.userId old) caller)
    then (reply 403 (BMessage "Access denied"), st)
    else match taskUpdateSchema body with
         | None => (reply 400 (BInvalid "Invalid task data"), st)
         | Some data =>
             try_catch
               (task ← updateTask env (parseInt id) (patch_of env data);
                mret (json (BTask task)))
               "Failed to update task" st
         end.
Proof.
  intros Hsel. pose proof Hsel as [Hk _]%select_by_id_Some.
  unfold PATCH_task, try_catch. rewrite (to_Z_not_NaN _ _ Hk).
  unfold getTask at 1. rewrite bind_gets, Hsel.
  destruct (negb _); [done|]. by destruct (taskUpdateSchema body).
Qed.

(** The outcome of a patch of a stored task: nothing changes, or the caller
    owns the task, the body passes the schema, and the row is rewritten
    from the parsed members. *)
Lemma PATCH_task_run env caller id body st k old :
  select_by_id (tasks st) (parseInt id) = Some (k, old) ->
  snd (PATCH_task env caller id body st) = st
  \/ exists data new,
       taskUpdateSchema body = Some data
       /\ Task.userId old = caller
       /\ PATCH_task env caller id body st
          = (reply 200 (BTask (Some (k, new))), with_tasks (insert k new) 0 st)
       /\ Task.userId new = Task.userId old
       /\ Task.createdAt new = Task.createdAt old
       /\ notnull (TaskUpdate.title data) (Task.title old) = Some (Task.title new)
       /\ notnull (TaskUpdate.priority data) (Task.priority old)
          = Some (Task.priority new)
       /\ notnull (TaskUpdate.status data) (Task.status old) = Some (Task.status new)
       /\ Task.description new
          = col (TaskUpdate.description data) (Task.description old)
       /\ Task.subject new = col (TaskUpdate.subject data) (Task.subject old)
       /\ (TaskUpdate.dueDate data = undefined -> Task.dueDate new = Task.dueDate old)
       /\ (TaskUpdate.estimatedMinutes data = undefined ->
           Task.estimatedMinutes new = Task.estimatedMinutes old)
       /\ Task.completedAt new
          = match TaskUpdate.status data with
            | just completed => Some (Date_now env)
            | _ => Task.completedAt old
            end.
Proof.
  intros Hsel. rewrite (PATCH_task_found env caller id body st k old Hsel).
  unfold jsstring_eqb. case_bool_decide as Hown; simpl; [|by left].
  destruct (taskUpdateSchema body) as [data|] eqn:Hs; [|by left].
  unfold try_catch. rewrite bind_run.
  pose proof (updateTask_run env (parseInt id) (patch_of env data) st) as Hrun.
  destruct (updateTask env (parseInt id) (patch_of env data) st)
    as [[[[k' new]|]|] st']; simpl in *; try (by left).
  destruct Hrun as (old' & due & est & Hsel' & -> & Hdue & Hest & Huid & Htitle
                    & Hprio & Hstat & Hdesc & Hsubj & Hd & He & Hc & Hcr).
  rewrite Hsel in Hsel'. injection Hsel' as <- <-.
  right. exists data, new. split; [done|]. split; [done|]. split; [done|].
  injection Huid as Huid.
  repeat (split; [done|]). split; [|split; [|done]].
  - intros Hu. rewrite Hu in Hdue. injection Hdue as <-. by rewrite Hd.
  - intros Hu. rewrite Hu in Hest. injection Hest as <-. by rewrite He.
Qed.

(** The members of a parsed patch against the members of the body. *)
Lemma taskUpdateSchema_members body data :
  taskUpdateSchema body = Some data ->
  (body_member body "title" = JUndefined -> TaskUpdate.title data = undefined)
  /\ (body_member body "description" = JUndefined ->
      TaskUpdate.description data = undefined)
  /\ (body_member body "subject" = JUndefined -> TaskUpdate.subject data = undefined)
  /\ (body_member body "priority" = JUndefined -> TaskUpdate.priority data = undefined)
  /\ (body_member body "status" = JUndefined -> TaskUpdate.status data = undefined)
  /\ (body_member body "dueDate" = JUndefined -> TaskUpdate.dueDate data = undefined)
  /\ (body_member body "estimatedMinutes" = JUndefined ->
      TaskUpdate.estimatedMinutes data = undefined)
  /\ (TaskUpdate.status data = just completed ->
      body_member body "status" = JStr (js "completed"))
  /\ TaskUpdate.title data <> null
  /\ TaskUpdate.priority data <> null
  /\ TaskUpdate.status data <> null.
Proof.
  destruct body as [| | | | | |o]; try discriminate.
  unfold taskUpdateSchema. intros Hs.
  apply bind_Some in Hs as (title & Htitle & Hs).
  apply bind_Some in Hs as (description & Hdescription & Hs).
  apply bind_Some in Hs as (subject & Hsubject & Hs).
  apply bind_Some in Hs as (priority & Hpriority & Hs).
  apply bind_Some in Hs as (status & Hstatus & Hs).
  apply bind_Some in Hs as (dueDate & HdueDate & Hs).
  apply bind_Some in Hs as (est & Hest & Hs).
  injection Hs as <-. simpl.
  repeat split.
  - intros Hm. rewrite Hm in Htitle. by injection Htitle as <-.
  - intros Hm. rewrite Hm in Hdescription. by injection Hdescription as <-.
  - intros Hm. rewrite Hm in Hsubject. by injection Hsubject as <-.
  - intros Hm. rewrite Hm in Hpriority. by injection Hpriority as <-.
  - intros Hm. rewrite Hm in Hstatus. by injection Hstatus as <-.
  - intros Hm. rewrite Hm in HdueDate. by injection HdueDate as <-.
  - intros Hm. rewrite Hm in Hest. by injection Hest as <-.
  - intros ->. unfold z.optional', z.optional in Hstatus.
    destruct (z.member o "status") eqn:Hm; try discriminate.
    destruct (z.enum statuses (JStr s)) as [c|] eqn:He; [|discriminate].
    injection Hstatus as ->. by apply enum_statuses_completed in He.
  - by apply optional_not_null in Htitle.
  - revert Hpriority. apply optional'_not_null. intros ??. apply optional_not_null.
  - revert Hstatus. apply optional'_not_null. intros ??. apply optional_not_null.
Qed.

(** C9. A patch that does not set the status to completed leaves the
    completion time of the task as it was, also when it moves the status
    away from completed, and every member missing from the patch keeps its
    value; the owner and the creation time are never touched. *)
Theorem patch_frame env caller id body st k old :
  select_by_id (tasks st) (parseInt id) = Some (k, old) ->
  body_member body "status" <> JStr (js "completed") ->
  exists new,
    tasks (snd (PATCH_task env caller id body st)) !! k = Some new
    /\ Task.completedAt new = Task.completedAt old
    /\ Task.userId new = Task.userId old
    /\ Task.createdAt new = Task.createdAt old
    /\ (body_member body "title" = JUndefined -> Task.title new = Task.title old)
    /\ (body_member body "description" = JUndefined ->
        Task.description new = Task.description old)
    /\ (body_member body "subject" = JUndefined -> Task.subject new = Task.subject old)
    /\ (body_member body "priority" = JUndefined ->
        Task.priority new = Task.priority old)
    /\ (body_member body "status" = JUndefined -> Task.status new = Task.status old)
    /\ (body_member body "dueDate" = JUndefined -> Task.dueDate new = Task.dueDate old)
    /\ (body_member body "estimatedMinutes" = JUndefined ->
        Task.estimatedMinutes new = Task.estimatedMinutes old).
Proof.
  intros Hsel Hstatus. pose proof Hsel as [_ Hold]%select_by_id_Some.
  destruct (PATCH_task_run env caller id body st k old Hsel)
    as [-> | (data & new & Hs & _ & -> & Hu & Hcr & Ht & Hp & Hst & Hd & Hsu & Hdue
              & Hest & Hc)].
  { exists old. by repeat split. }
  destruct (taskUpdateSchema_members body data Hs)
    as (Mt & Md & Msu & Mp & Mst & Mdue & Mest & Mc & _).
  exists new. simpl. rewrite lookup_insert_eq.
  split; [done|]. split.
  { rewrite Hc. destruct (TaskUpdate.status data) as [| |[]] eqn:E; try done.
    by destruct Hstatus; apply Mc. }
  split; [done|]. split; [done|].
  repeat split; intros Hm.
  - rewrite (Mt Hm) in Ht. by injection Ht.
  - by rewrite Hd, (Md Hm).
  - by rewrite Hsu, (Msu Hm).
  - rewrite (Mp Hm) in Hp. by injection Hp.
  - rewrite (Mst Hm) in Hst. by injection Hst.
  - by apply Hdue, Mdue.
  - by apply Hest, Mest.
Qed.

(** A patch of an owned task that sets the status to completed, and whose
    due date can be stored, stamps the completion time. *)
Lemma PATCH_task_completed_stamps env caller id body data st k old :
  select_by_id (tasks st) (parseInt id) = Some (k, old) ->
  Task.userId old = caller ->
  taskUpdateSchema body = Some data ->
  TaskUpdate.status data = just completed ->
  dueDate_valid env (TaskUpdate.dueDate data) = true ->
  exists new,
    PATCH_task env caller id body st
    = (reply 200 (BTask (Some (k, new))), with_tasks (insert k new) 0 st)
    /\ Task.status new = completed
    /\ Task.completedAt new = Some (Date_now env).
Proof.
  intros Hsel Hown Hs Hst Hdue.
  destruct (taskUpdateSchema_members body data Hs)
    as (_ & _ & _ & _ & _ & _ & _ & _ & Nt & Np & Ns).
  assert (Hest : exists e, integer_value (TaskUpdate.estimatedMinutes data) = Some e).
  { destruct body as [| | | | | |o]; try discriminate.
    unfold taskUpdateSchema in Hs.
    repeat (apply bind_Some in Hs as (? & ? & Hs)). injection Hs as <-. simpl.
    match goal with H : z.optional' _ (z.member o "estimatedMinutes") = Some _ |- _ =>
      unfold z.optional' in H; destruct (z.member o "estimatedMinutes") eqn:Hm;
        try (apply optional_int_integer in H; eauto);
        injection H as <-; simpl; eauto end. }
  destruct Hest as [e He].
  rewrite (PATCH_task_found env caller id body st k old Hsel).
  unfold jsstring_eqb. rewrite bool_decide_eq_true_2 by done. simpl.
  rewrite Hs. unfold try_catch. rewrite bind_run.
  assert (Hts : exists d,
            timestamp_value (PartialInsertTask.dueDate (patch_of env data)) = Some d).
  { unfold patch_of, dueDate_valid, string_or in *. cbn [PartialInsertTask.dueDate].
    destruct (TaskUpdate.dueDate data) as [| |s]; simpl; eauto.
    destruct (jsstring_eqb s []); simpl; eauto.
    destruct (new_Date env s); simpl; [done|eauto]. }
  destruct Hts as [d Hd].
  unfold updateTask.
  replace (PartialInsertTask.status (patch_of env data)) with (just completed)
    by (by rewrite <- Hst).
  cbn [is_undefined]. rewrite andb_false_r. cbn [andb].
  unfold timestamp_col, integer_col, col_notnull, getTask.
  rewrite bind_required, Hd.
  replace (PartialInsertTask.estimatedMinutes (patch_of env data))
    with (TaskUpdate.estimatedMinutes data) by done.
  rewrite bind_required, He, bind_required. cbn [timestamp_value].
  rewrite bind_gets, Hsel. cbv beta iota.
  rewrite bind_required. cbn [patch_of PartialInsertTask.userId notnull].
  change (PartialInsertTask.title (patch_of env data)) with (TaskUpdate.title data).
  change (PartialInsertTask.priority (patch_of env data))
    with (TaskUpdate.priority data).
  rewrite bind_required.
  destruct (TaskUpdate.title data) as [| |t] eqn:Et; [|done|]; cbn [notnull];
    (rewrite bind_required;
     destruct (TaskUpdate.priority data) as [| |p] eqn:Ep; [|done|]; cbn [notnull];
     eexists; (split; [reflexivity|done])).
Qed.

(** ** The ownership policy *)











(** ** Recommendation candidates *)

Lemma js_or_default_defined a s :
  js_or a (JStr s) <> JUndefined /\ js_or a (JStr s) <> JNull.
Proof. unfold js_or. by destruct a; simpl; try destruct (_ : bool). Qed.

Lemma js_or_null_defined a : js_or a JNull <> JUndefined.
Proof. unfold js_or. by destruct a; simpl; try destruct (_ : bool). Qed.

Lemma js_or_text_coerced limit dflt member s :
  (length (js dflt) <= limit)%nat ->
  ToString (js_or member (JStr (js dflt))) = Some s ->
  text_coerced limit dflt member (substring0 limit s).
Proof.
  intros Hlen. unfold text_coerced, js_or. destruct (truthy member); [eauto|].
  intros [= <-]. by apply take_ge.
Qed.

Lemma length_substring0 n s : (length (substring0 n s) <= n)%nat.
Proof. unfold substring0. rewrite length_take. lia. Qed.

Lemma candidate_coerced env caller cand data :
  candidate caller cand = Some data ->
  coerced caller cand (row_of env data)
  /\ forall st,
       createRecommendation env data st
       = (Return (studyRecommendations_seq st, row_of env data),
          with_studyRecommendations
            (insert (studyRecommendations_seq st) (row_of env data)) 1 st).
Proof.
  unfold candidate. intros H.
  apply bind_Some in H as (title & Htitle & H).
  apply bind_Some in H as (title' & Htitle' & H).
  apply bind_Some in H as (description & Hdescription & H).
  apply bind_Some in H as (description' & Hdescription' & H).
  apply bind_Some in H as (subject & Hsubject & H).
  apply bind_Some in H as (type & Htype & H).
  apply bind_Some in H as (priority & Hpriority & H).
  injection H as <-. split.
  - unfold coerced, row_of.
    cbn [StudyRecommendation.userId StudyRecommendation.title
         StudyRecommendation.description StudyRecommendation.subject
         StudyRecommendation.type StudyRecommendation.priority
         StudyRecommendation.dismissed InsertRecommendation.userId
         InsertRecommendation.title InsertRecommendation.description
         InsertRecommendation.subject InsertRecommendation.type
         InsertRecommendation.priority InsertRecommendation.dismissed].
    split; [done|]. split; [done|].
    split; [apply length_substring0|]. split; [apply length_substring0|].
    exists title, description, subject, type, priority.
    repeat (split; [done|]).
    split; [by apply js_or_text_coerced; [vm_compute; lia|]|].
    split; [by apply js_or_text_coerced; [vm_compute; lia|]|].
    done.
  - intros st. unfold createRecommendation, row_of. simpl.
    destruct (js_or_default_defined type (js "study_tip")) as [T1 T2].
    destruct (js_or_default_defined priority (js "medium")) as [P1 P2].
    pose proof (js_or_null_defined subject) as S1.
    rewrite bind_run.
    destruct (js_or type _); try done; simpl;
      rewrite bind_run;
      destruct (js_or priority _); try done; simpl;
      destruct (js_or subject _); try done.
Qed.


(** The handler past the provider call. *)
Lemma generate_answered env caller st c :
  ai_unconfigured env = false ->
  completion_for env caller st = Content c ->
  POST_recommendations_generate env caller st
  = try_catch
      (recommendations ← required (recommendations_of (message_content c));
       recs ← required (slice_0_4 recommendations);
       created ← create_all env caller recs;
       mret (json (BRecommendations created)))
      "Failed to generate recommendations" st.
Proof.
  intros Hk Hc. unfold POST_recommendations_generate, try_catch.
  rewrite Hk. unfold getTasks, getPomodoroSessions. rewrite !bind_gets.
  unfold completion_for in Hc. by rewrite Hc.
Qed.

(** The text that is no JSON and holds no bracketed part gives the empty
    list: the request succeeds and stores nothing. *)
Lemma generate_without_brackets env caller st c :
  ai_unconfigured env = false ->
  completion_for env caller st = Content c ->
  JSON.parse (message_content c) = None ->
  bracket_match (message_content c) = None ->
  POST_recommendations_generate env caller st = (json (BRecommendations []), st).
Proof.
  intros Hk Hc Hp Hb. rewrite (generate_answered _ _ _ _ Hk Hc).
  unfold try_catch, recommendations_of. by rewrite Hp, Hb.
Qed.

(** The text that is no JSON and whose bracketed part is no JSON either
    makes the request fail. *)
Lemma generate_unparsable_brackets env caller st c m :
  ai_unconfigured env = false ->
  completion_for env caller st = Content c ->
  JSON.parse (message_content c) = None ->
  bracket_match (message_content c) = Some m ->
  JSON.parse m = None ->
  POST_recommendations_generate env caller st
  = (reply 500 (BMessage "Failed to generate recommendations"), st).
Proof.
  intros Hk Hc Hp Hb Hm. rewrite (generate_answered _ _ _ _ Hk Hc).
  unfold try_catch, recommendations_of. by rewrite Hp, Hb, Hm.
Qed.


(** ** The properties on concrete requests *)

Lemma alice_is_not_bob : alice <> bob.
Proof. intros E. vm_compute in E. discriminate. Qed.



(** C2. Creating a task with the status completed stores it without a
    completion time, while the update to completed stamps one. *)
Theorem created_completed_task_has_no_completedAt :
  exists task,
    fst (POST_tasks (host "[]") alice (body_of "{'title':'Essay','status':'completed'}")
           empty_store)
    = reply 201 (BTask (Some (1, task)))
    /\ tasks (snd (POST_tasks (host "[]") alice
                     (body_of "{'title':'Essay','status':'completed'}") empty_store))
       !! 1 = Some task
    /\ Task.status task = completed
    /\ Task.completedAt task = None.
Proof. eexists. split; [vm_compute; reflexivity|]. by vm_compute. Qed.

Example updated_to_completed_has_completedAt :
  exists task,
    tasks completed_essay_store !! 1 = Some task
    /\ Task.status task = completed
    /\ Task.completedAt task = Some 1700000000000.
Proof. eexists. split; [vm_compute; reflexivity|]. by vm_compute. Qed.

(** C3. A text that is no JSON and whose bracketed part is no JSON either
    fails the request with 500 instead of giving the empty list. *)
Theorem unparsable_brackets_fail_the_request :
  JSON.parse (jsq "Sure: [oops]") = None
  /\ bracket_match (jsq "Sure: [oops]") = Some (js "[oops]")
  /\ JSON.parse (js "[oops]") = None
  /\ POST_recommendations_generate (host "Sure: [oops]") alice empty_store
     = (reply 500 (BMessage "Failed to generate recommendations"), empty_store).
Proof. repeat split; by vm_compute. Qed.

Example text_without_brackets_gives_empty_list :
  POST_recommendations_generate (host "no list today") alice empty_store
  = (reply 200 (BRecommendations []), empty_store).
Proof. by vm_compute. Qed.

(** The bracketed part runs from the first opening to the last closing
    bracket, so that two lists in one text are no JSON together. *)
Example two_bracketed_parts_fail_the_request :
  bracket_match (jsq "[{'title':'A'}] or [{'title':'B'}]")
  = Some (jsq "[{'title':'A'}] or [{'title':'B'}]")
  /\ POST_recommendations_generate (host "[{'title':'A'}] or [{'title':'B'}]") alice
       empty_store
     = (reply 500 (BMessage "Failed to generate recommendations"), empty_store).
Proof. split; by vm_compute. Qed.

Example bracketed_part_is_parsed :
  exists r,
    studyRecommendations
      (snd (POST_recommendations_generate
              (host "Here you are: [{'title':'Plan the week'}] Good luck!")
              alice empty_store)) !! 1 = Some r
    /\ StudyRecommendation.title r = js "Plan the week".
Proof. eexists. split; [vm_compute; reflexivity|]. by vm_compute. Qed.



Lemma flags_are_monotonic_witness :
  wf flagged_store
  /\ (exists r,
        studyRecommendations
          (run [ (host "[{}]", alice, PostRecommendationsGenerate);
                 (host "[]", bob, PatchRecommendationDismiss (js "1"));
                 (host "[]", alice, PatchNotificationsReadAll);
                 (host "[]", alice, PatchNotificationRead (js "1")) ]
             flagged_store) !! 1 = Some r
        /\ StudyRecommendation.dismissed r = true)
  /\ (exists n,
        notifications
          (run [ (host "[{}]", alice, PostRecommendationsGenerate);
                 (host "[]", bob, PatchRecommendationDismiss (js "1"));
                 (host "[]", alice, PatchNotificationsReadAll);
                 (host "[]", alice, PatchNotificationRead (js "1")) ]
             flagged_store) !! 1 = Some n
        /\ Notification.read n = true).
Proof.
  assert (Hwf : wf flagged_store) by (apply (bool_decide_unpack _); vm_compute; exact I).
  split; [exact Hwf|].
  destruct (flags_are_monotonic
              [ (host "[{}]", alice, PostRecommendationsGenerate);
                (host "[]", bob, PatchRecommendationDismiss (js "1"));
                (host "[]", alice, PatchNotificationsReadAll);
                (host "[]", alice, PatchNotificationRead (js "1")) ]
              flagged_store Hwf) as [Hr Hn].
  split.
  - eapply Hr; [vm_compute; reflexivity|reflexivity].
  - eapply Hn; [vm_compute; reflexivity|reflexivity].
Defined.

Lemma generate_unconfigured_witness :
  POST_recommendations_generate
    (mkEnv 1700000000000 1700000000001 (fun _ => InvalidDate) 1 None
       (fun _ => Content (Some (js "[{}]"))))
    alice essay_store
  = (reply 503 (BMessage "AI service is not configured"), essay_store).
Proof. apply generate_unconfigured. left. reflexivity. Defined.

Lemma endedAt_iff_completed_witness :
  exists id session,
    fst (POST_pomodoro (host "[]") alice
           (body_of "{'taskId':1,'duration':25,'breakDuration':5,'completed':true}")
           essay_store)
    = reply 201 (BSession (id, session))
    /\ PomodoroSession.endedAt session = Some 1700000000000.
Proof.
  destruct (endedAt_iff_completed (host "[]") alice
              (body_of "{'taskId':1,'duration':25,'breakDuration':5,'completed':true}")
              (PomodoroCreate.mk (just (Number.of_decimal false 1 0))
                 (Number.of_decimal false 25 0) (Number.of_decimal false 5 0) true)
              essay_store)
    as (id & session & Hr & _ & _ & Hend & _).
  - vm_compute. reflexivity.
  - vm_compute. reflexivity.
  - exists id, session. split; [exact Hr|]. by apply Hend.
Defined.

Lemma zero_taskId_skips_the_check_witness :
  exists id session,
    fst (POST_pomodoro (host "[]") bob
           (body_of "{'taskId':0,'duration':25,'breakDuration':5,'completed':false}")
           essay_store)
    = reply 201 (BSession (id, session))
    /\ pomodoroSessions
         (snd (POST_pomodoro (host "[]") bob
                 (body_of "{'taskId':0,'duration':25,'breakDuration':5,'completed':false}")
                 essay_store)) !! id = Some session
    /\ PomodoroSession.taskId session = Some 0.
Proof.
  apply (zero_taskId_skips_the_check (host "[]") bob
           (body_of "{'taskId':0,'duration':25,'breakDuration':5,'completed':false}")
           (PomodoroCreate.mk (just (Number.of_decimal false 0 0))
              (Number.of_decimal false 25 0) (Number.of_decimal false 5 0) false)
           (Number.of_decimal false 0 0) essay_store).
  - vm_compute. reflexivity.
  - reflexivity.
  - vm_compute. reflexivity.
Defined.


Lemma patch_frame_witness :
  exists old new,
    tasks completed_essay_store !! 1 = Some old
    /\ Task.completedAt old = Some 1700000000000
    /\ tasks (snd (PATCH_task (host "[]") alice (js "1") (body_of "{'status':'pending'}")
                     completed_essay_store)) !! 1 = Some new
    /\ Task.completedAt new = Some 1700000000000
    /\ Task.title new = Task.title old.
Proof.
  eexists. 
  edestruct (patch_frame (host "[]") alice (js "1") (body_of "{'status':'pending'}")
               completed_essay_store 1)
    as (new & Hnew & Hc & _ & _ & Ht & _).
  - vm_compute. reflexivity.
  - vm_compute. discriminate.
  - exists new. split; [vm_compute; reflexivity|]. split; [reflexivity|].
    split; [exact Hnew|]. split; [exact Hc|]. by apply Ht.
Defined.

(** * Further properties *)

(** ** Texts and numbers within bounds *)

Lemma span_app {A} (p : A -> bool) l : fst (span p l) ++ snd (span p l) = l.
Proof.
  induction l as [|x l IH]; [done|]. simpl.
  destruct (p x); [|done]. destruct (span p l). simpl in *. by rewrite IH.
Qed.

Lemma span_fst_Forall {A} (p : A -> bool) l : Forall (fun x => p x = true) (fst (span p l)).
Proof.
  induction l as [|x l IH]; [constructor|]. simpl.
  destruct (p x) eqn:E; [|constructor]. destruct (span p l). simpl in *. by constructor.
Qed.

Lemma span_snd_head {A} (p : A -> bool) l x r :
  snd (span p l) = x :: r -> p x = false.
Proof.
  induction l as [|y l IH]; [done|]. simpl.
  destruct (p y) eqn:E.
  - destruct (span p l). simpl in *. done.
  - simpl. by intros [= <- <-].
Qed.

Lemma string_bounds lo hi v s :
  z.string lo hi v = Some s ->
  v = JStr s /\ (lo <= length s)%nat
  /\ match hi with Some h => (length s <= h)%nat | None => True end.
Proof.
  unfold z.string. destruct v; try discriminate.
  destruct (lo <=? length s0)%nat eqn:E1; [|discriminate].
  destruct hi as [h|]; simpl.
  - destruct (length s0 <=? h)%nat eqn:E2; [|discriminate]. intros [= <-].
    apply Nat.leb_le in E1, E2. done.
  - intros [= <-]. apply Nat.leb_le in E1. done.
Qed.

Lemma leb_Z_to_Z x k hi : Number.to_Z x = Some k -> Number.leb_Z x hi = true -> k <= hi.
Proof.
  destruct x as [| |neg m e]; simpl; try discriminate.
  set (v := if neg then _ else _).
  destruct (0 <=? e) eqn:He.
  - intros [= <-]. apply Z.leb_le in He.
    rewrite (Z.max_r 0 e), (Z.max_l 0 (- e)) by lia. rewrite Z.pow_0_r.
    intros H%Z.leb_le. lia.
  - apply Z.leb_gt in He.
    destruct (_ =? 0) eqn:Hm; [|discriminate]. intros [= <-].
    apply Z.eqb_eq in Hm.
    assert (Hp : 0 < 2 ^ (- e)) by (apply Z.pow_pos_nonneg; lia).
    assert (Hvm : v mod 2 ^ (- e) = 0).
    { subst v. destruct neg; [|done]. apply Z.mod_opp_l_z; lia. }
    rewrite (Z.max_l 0 e), (Z.max_r 0 (- e)) by lia. rewrite Z.pow_0_r.
    intros H%Z.leb_le.
    apply Z.div_exact in Hvm; [|lia]. nia.
Qed.

Lemma geb_Z_to_Z x k lo : Number.to_Z x = Some k -> Number.geb_Z x lo = true -> lo <= k.
Proof.
  destruct x as [| |neg m e]; simpl; try discriminate.
  set (v := if neg then _ else _).
  destruct (0 <=? e) eqn:He.
  - intros [= <-]. apply Z.leb_le in He.
    rewrite (Z.max_r 0 e), (Z.max_l 0 (- e)) by lia. rewrite Z.pow_0_r.
    intros H%Z.leb_le. lia.
  - apply Z.leb_gt in He.
    destruct (_ =? 0) eqn:Hm; [|discriminate]. intros [= <-].
    apply Z.eqb_eq in Hm.
    assert (Hp : 0 < 2 ^ (- e)) by (apply Z.pow_pos_nonneg; lia).
    assert (Hvm : v mod 2 ^ (- e) = 0).
    { subst v. destruct neg; [|done]. apply Z.mod_opp_l_z; lia. }
    rewrite (Z.max_l 0 e), (Z.max_r 0 (- e)) by lia. rewrite Z.pow_0_r.
    intros H%Z.leb_le.
    apply Z.div_exact in Hvm; [|lia]. nia.
Qed.

Lemma number_int_bounds lo hi v x :
  z.number_int (Some lo) (Some hi) v = Some x ->
  v = JNum x /\ exists k, Number.to_Z x = Some k /\ lo <= k <= hi.
Proof.
  intros H. pose proof (number_int_integer _ _ _ _ H) as [-> [k Hk]].
  split; [done|]. exists k. split; [done|].
  unfold z.number_int in H.
  destruct (Number.geb_Z x lo) eqn:E1; [|by rewrite andb_false_r in H].
  destruct (Number.leb_Z x hi) eqn:E2; [|by rewrite andb_false_r in H].
  split; [by eapply geb_Z_to_Z|by eapply leb_Z_to_Z].
Qed.

Lemma optional_just {A} (s : z.schema A) v a :
  z.optional s v = Some (just a) -> s v = Some a.
Proof.
  unfold z.optional. destruct v; try discriminate;
    destruct (s _); simpl; try discriminate; by intros [= <-].
Qed.

Lemma nullable_just {A} (s : z.schema (maybe A)) v a :
  z.nullable s v = Some (just a) -> s v = Some (just a).
Proof. unfold z.nullable. by destruct v. Qed.

Lemma optional'_just {A} (s : z.schema (maybe A)) v a :
  z.optional' s v = Some (just a) -> s v = Some (just a).
Proof. unfold z.optional'. by destruct v. Qed.

Lemma taskCreateSchema_valid body data :
  taskCreateSchema body = Some data ->
  members_valid (just (TaskCreate.title data)) (TaskCreate.description data)
    (TaskCreate.subject data) (TaskCreate.estimatedMinutes data).
Proof.
  destruct body as [| | | | | |o]; try discriminate.
  unfold taskCreateSchema. intros Hs.
  apply bind_Some in Hs as (title & Htitle & Hs).
  apply bind_Some in Hs as (description & Hdescription & Hs).
  apply bind_Some in Hs as (subject & Hsubject & Hs).
  apply bind_Some in Hs as (priority & Hpriority & Hs).
  apply bind_Some in Hs as (status & Hstatus & Hs).
  apply bind_Some in Hs as (dueDate & HdueDate & Hs).
  apply bind_Some in Hs as (est & Hest & Hs).
  injection Hs as <-. simpl. split; [|split; [|split]].
  - intros s [= <-]. by apply string_bounds in Htitle as (_ & ? & ?).
  - intros s ->.
    by apply nullable_just, optional_just, string_bounds in Hdescription as (_ & _ & ?).
  - intros s ->.
    by apply nullable_just, optional_just, string_bounds in Hsubject as (_ & _ & ?).
  - intros x ->. by apply nullable_just, optional_just, number_int_bounds in Hest as (_ & ?).
Qed.

Lemma taskUpdateSchema_valid body data :
  taskUpdateSchema body = Some data ->
  members_valid (TaskUpdate.title data) (TaskUpdate.description data)
    (TaskUpdate.subject data) (TaskUpdate.estimatedMinutes data).
Proof.
  destruct body as [| | | | | |o]; try discriminate.
  unfold taskUpdateSchema. intros Hs.
  apply bind_Some in Hs as (title & Htitle & Hs).
  apply bind_Some in Hs as (description & Hdescription & Hs).
  apply bind_Some in Hs as (subject & Hsubject & Hs).
  apply bind_Some in Hs as (priority & Hpriority & Hs).
  apply bind_Some in Hs as (status & Hstatus & Hs).
  apply bind_Some in Hs as (dueDate & HdueDate & Hs).
  apply bind_Some in Hs as (est & Hest & Hs).
  injection Hs as <-. simpl. split; [|split; [|split]].
  - intros s ->. by apply optional_just, string_bounds in Htitle as (_ & ? & ?).
  - intros s ->.
    by apply optional'_just, nullable_just, optional_just, string_bounds
      in Hdescription as (_ & _ & ?).
  - intros s ->.
    by apply optional'_just, nullable_just, optional_just, string_bounds
      in Hsubject as (_ & _ & ?).
  - intros x ->.
    by apply optional'_just, nullable_just, optional_just, number_int_bounds
      in Hest as (_ & ?).
Qed.

(** ** What a request may do to the store *)

Lemma effects_refl caller st : effects caller st st.
Proof. apply rtc_refl. Qed.

Lemma effects_once caller st st' : effect caller st st' -> effects caller st st'.
Proof. apply rtc_once. Qed.

Lemma with_tasks_same st : with_tasks (fun t => t) 0 st = st.
Proof. destruct st. unfold with_tasks. simpl. f_equal. lia. Qed.

(** *** Profiles *)

Lemma GET_profile_effects caller st : effects caller st (snd (GET_profile caller st)).
Proof.
  unfold GET_profile, try_catch, getProfile. rewrite bind_gets.
  destruct (userProfiles st !! caller) as [p|] eqn:E; [apply effects_refl|].
  unfold upsertProfile, getProfile. simpl.
  apply effects_once. by apply profile_created.
Qed.

Lemma PATCH_admin_user_role_effects caller tgt b st :
  effects caller st (snd (PATCH_admin_user_role caller tgt b st)).
Proof.
  unfold PATCH_admin_user_role, try_catch, getProfile. rewrite bind_gets.
  destruct (not_admin (userProfiles st !! caller)) eqn:Ha; [apply effects_refl|].
  destruct (roleUpdateSchema b) as [role|]; [|apply effects_refl].
  rewrite bind_gets.
  destruct (userProfiles st !! tgt) as [p|] eqn:E.
  - unfold updateProfileRole, getProfile. rewrite bind_run, bind_gets, E. simpl.
    apply effects_once. by apply role_set.
  - unfold upsertProfile, getProfile. simpl.
    apply effects_once. by apply role_set.
Qed.

(** *** Tasks *)

Lemma createTask_run env data st :
  match createTask env data st with
  | (Return (k, t), st') =>
      exists due est,
        k = tasks_seq st
        /\ st' = with_tasks (insert k t) 1 st
        /\ timestamp_value (InsertTask.dueDate data) = Some due
        /\ integer_value (InsertTask.estimatedMinutes data) = Some est
        /\ Task.userId t = InsertTask.userId data
        /\ Task.title t = InsertTask.title data
        /\ Task.description t = col (InsertTask.description data) None
        /\ Task.subject t = col (InsertTask.subject data) None
        /\ notnull (InsertTask.priority data) medium = Some (Task.priority t)
        /\ notnull (InsertTask.status data) pending = Some (Task.status t)
        /\ Task.dueDate t = col due None
        /\ Task.estimatedMinutes t = col est None
        /\ Task.completedAt t = None
        /\ Task.createdAt t = db_now env
  | (Throw, st') => st' = st
  end.
Proof.
  unfold createTask, timestamp_col, integer_col, col_notnull.
  rewrite bind_required.
  destruct (timestamp_value (InsertTask.dueDate data)) as [due|] eqn:Hdue; [|done].
  rewrite bind_required.
  destruct (integer_value (InsertTask.estimatedMinutes data)) as [est|] eqn:Hest; [|done].
  rewrite bind_required.
  destruct (notnull (InsertTask.priority data) medium) as [prio|] eqn:Hprio; [|done].
  rewrite bind_required.
  destruct (notnull (InsertTask.status data) pending) as [stat|] eqn:Hstat; [|done].
  simpl. exists due, est. done.
Qed.

Lemma integer_value_just v est k :
  integer_value v = Some est -> est = just k ->
  exists x, v = just x /\ Number.to_Z x = Some k.
Proof.
  destruct v as [| |x]; simpl; try (by intros [= <-]).
  destruct (Number.to_Z x) as [j|] eqn:E; simpl; [|done].
  intros [= <-] [= <-]. by exists x.
Qed.

Lemma POST_tasks_effects env caller b st :
  effects caller st (snd (POST_tasks env caller b st)).
Proof.
  unfold POST_tasks, try_catch.
  destruct (taskCreateSchema b) as [data|] eqn:Hs; [|apply effects_refl].
  apply taskCreateSchema_valid in Hs as (Ht & Hd & Hsu & He).
  rewrite bind_run.
  match goal with |- context [createTask env ?d st] =>
    pose proof (createTask_run env d st) as Hrun;
    destruct (createTask env d st) as [[[k t]|] st'] end; simpl in *.
  2:{ subst. apply effects_refl. }
  destruct Hrun as (due & est & -> & -> & _ & Hest & Hu & Hti & Hde & Hsb & _ & _ & _
                    & Hes & _ & _).
  apply effects_once, task_created; [done|].
  split; [|split; [|split]].
  - rewrite Hti. by apply Ht.
  - intros s. rewrite Hde. unfold string_or.
    destruct (TaskCreate.description data) as [| |s']; try done.
    destruct (jsstring_eqb s' []); [done|]. intros [= <-]. by apply Hd.
  - intros s. rewrite Hsb. unfold string_or.
    destruct (TaskCreate.subject data) as [| |s']; try done.
    destruct (jsstring_eqb s' []); [done|]. intros [= <-]. by apply Hsu.
  - intros m. rewrite Hes. destruct est as [| |j]; try done. intros [= <-].
    destruct (integer_value_just _ _ j Hest eq_refl) as (x & Hx & Hj).
    unfold number_or in Hx. destruct (TaskCreate.estimatedMinutes data) as [| |y]; try done.
    destruct (Number.truthy y); [|done]. injection Hx as <-.
    destruct (He y eq_refl) as (k' & Hk' & Hb). congruence.
Qed.

Lemma PATCH_task_effects env caller id b st :
  effects caller st (snd (PATCH_task env caller id b st)).
Proof.
  destruct (select_by_id (tasks st) (parseInt id)) as [[k old]|] eqn:Hsel.
  2:{ unfold PATCH_task, try_catch, getTask.
      destruct (Number.isNaN _); [apply effects_refl|].
      rewrite bind_gets, Hsel. apply effects_refl. }
  rewrite (PATCH_task_found env caller id b st k old Hsel).
  unfold jsstring_eqb. case_bool_decide as Hown; simpl; [|apply effects_refl].
  destruct (taskUpdateSchema b) as [data|] eqn:Hs; [|apply effects_refl].
  apply taskUpdateSchema_valid in Hs as (Ht & Hd & Hsu & He).
  unfold try_catch. rewrite bind_run.
  pose proof (updateTask_run env (parseInt id) (patch_of env data) st) as Hrun.
  destruct (updateTask env (parseInt id) (patch_of env data) st)
    as [[[[k' new]|]|] st']; simpl in *; try (subst; apply effects_refl).
  destruct Hrun as (old' & due & est & Hsel' & -> & Hdue & Hest & Huid & Htitle
                    & Hprio & Hstat & Hdesc & Hsubj & Hdu & Hes & Hc & Hcr).
  rewrite Hsel in Hsel'. injection Hsel' as <- <-.
  apply select_by_id_Some in Hsel as [_ Hk].
  injection Huid as Huid.
  apply effects_once, (task_updated caller st k old new); try done; [congruence|].
  intros (Vt & Vd & Vs & Ve). split; [|split; [|split]].
  - destruct (TaskUpdate.title data) as [| |s]; simpl in Htitle; try done.
    + by injection Htitle as <-.
    + injection Htitle as <-. by apply Ht.
  - intros s. rewrite Hdesc. destruct (TaskUpdate.description data) as [| |s']; simpl.
    + apply Vd.
    + done.
    + intros [= <-]. by apply Hd.
  - intros s. rewrite Hsubj. destruct (TaskUpdate.subject data) as [| |s']; simpl.
    + apply Vs.
    + done.
    + intros [= <-]. by apply Hsu.
  - intros m. rewrite Hes. destruct est as [| |j]; simpl; [apply Ve|done|].
    intros [= <-].
    destruct (integer_value_just _ _ j Hest eq_refl) as (x & Hx & Hj).
    destruct (He x Hx) as (k' & Hk' & Hb). congruence.
Qed.

Lemma DELETE_task_effects caller id st :
  effects caller st (snd (DELETE_task caller id st)).
Proof.
  unfold DELETE_task, try_catch, getTask.
  destruct (Number.isNaN _); [apply effects_refl|].
  rewrite bind_gets.
  destruct (select_by_id (tasks st) (parseInt id)) as [[k old]|] eqn:Hsel;
    [|apply effects_refl].
  unfold jsstring_eqb. case_bool_decide as Hown; simpl; [|apply effects_refl].
  apply select_by_id_Some in Hsel as [Hid Hk].
  unfold delete_by_id. rewrite Hid.
  apply effects_once. by eapply task_deleted.
Qed.

(** *** Sessions *)

Lemma POST_pomodoro_effects env caller b st :
  effects caller st (snd (POST_pomodoro env caller b st)).
Proof.
  unfold POST_pomodoro.
  destruct (pomodoroCreateSchema b) as [data|] eqn:Hs; [|apply effects_refl].
  destruct b as [| | | | | |o]; try discriminate.
  unfold pomodoroCreateSchema in Hs.
  apply bind_Some in Hs as (tid & Htid & Hs).
  apply bind_Some in Hs as (dur & Hdur & Hs).
  apply bind_Some in Hs as (brk & Hbrk & Hs).
  apply bind_Some in Hs as (c & Hc & Hs).
  injection Hs as <-. simpl in *.
  pose proof (optional_int_integer _ _ _ _ Htid) as Ht.
  apply number_int_bounds in Hdur as [_ (kd & Hkd & Bd)].
  apply number_int_bounds in Hbrk as [_ (kb & Hkb & Bb)].
  pose proof (fun st => createPomodoroSession_validated env caller tid dur brk c st kd kb
                          Ht Hkd Hkb) as Hcreate.
  assert (Hnew : effects caller st
                   (with_pomodoroSessions
                      (insert (pomodoroSessions_seq st)
                         (PomodoroSession.mk caller (stored_key tid) kd kb c (db_now env)
                            (if c then Some (Date_now env) else None))) 1 st)).
  { apply effects_once, session_created; [done|].
    split; [done|]. split; [done|]. simpl.
    destruct c; split; intros H; try done; by eexists. }
  unfold try_catch, number_or.
  destruct tid as [| |x]; [| |destruct (Number.truthy x)];
    try (rewrite bind_run, Hcreate; exact Hnew).
  unfold getTask. rewrite bind_gets.
  destruct (not_own_task caller _); [apply effects_refl|].
  rewrite bind_run, Hcreate. exact Hnew.
Qed.

(** *** Recommendations *)

Lemma effects_trans caller a b c :
  effects caller a b -> effects caller b c -> effects caller a c.
Proof. intros H1 H2; by etrans. Qed.

Lemma create_all_effects env caller recs st :
  effects caller st (snd (create_all env caller recs st)).
Proof.
  revert st. induction recs as [|rec rest IH]; intros st; [apply effects_refl|].
  simpl. rewrite bind_required.
  destruct (candidate caller rec) as [data|] eqn:Hc; [|apply effects_refl].
  destruct (candidate_coerced env caller rec data Hc) as [Hco Hst].
  rewrite bind_run, Hst.
  set (st1 := with_studyRecommendations _ 1 st).
  assert (H1 : effects caller st st1).
  { destruct Hco as (Hu & Hd & Ht & Hde & _).
    apply effects_once, recommendation_created; [done|done|by split]. }
  rewrite bind_run. specialize (IH st1).
  destruct (create_all env caller rest st1) as [[created|] st2]; simpl in *;
    by eapply effects_trans.
Qed.

Lemma POST_recommendations_generate_effects env caller st :
  effects caller st (snd (POST_recommendations_generate env caller st)).
Proof.
  unfold POST_recommendations_generate, try_catch.
  destruct (ai_unconfigured env); [apply effects_refl|].
  unfold getTasks, getPomodoroSessions. rewrite !bind_gets.
  destruct (chat_completions_create env _) as [|c]; [apply effects_refl|].
  rewrite bind_required.
  destruct (recommendations_of _) as [v|]; [|apply effects_refl].
  rewrite bind_required.
  destruct (slice_0_4 v) as [l|]; [|apply effects_refl].
  rewrite bind_run.
  pose proof (create_all_effects env caller l st) as H.
  by destruct (create_all env caller l st) as [[created|] st'].
Qed.

Lemma PATCH_recommendation_dismiss_effects caller id st :
  effects caller st (snd (PATCH_recommendation_dismiss caller id st)).
Proof.
  unfold PATCH_recommendation_dismiss, try_catch, getRecommendations.
  destruct (Number.isNaN _); [apply effects_refl|].
  rewrite bind_gets.
  pose proof (find_own_row StudyRecommendation.userId StudyRecommendation.createdAt
                (studyRecommendations st) caller (parseInt id)) as Hfind.
  destruct (List.find _ _); [|apply effects_refl].
  destruct Hfind as (k & r & [Hid Hk]%select_by_id_Some & Hown).
  simpl. rewrite Hid.
  apply effects_once. by eapply recommendation_dismissed.
Qed.

(** *** Notifications *)

Lemma PATCH_notification_read_effects caller id st :
  effects caller st (snd (PATCH_notification_read caller id st)).
Proof.
  unfold PATCH_notification_read, try_catch, getNotifications.
  destruct (Number.isNaN _); [apply effects_refl|].
  rewrite bind_gets.
  pose proof (find_own_row Notification.userId Notification.createdAt
                (notifications st) caller (parseInt id)) as Hfind.
  destruct (List.find _ _); [|apply effects_refl].
  destruct Hfind as (k & r & [Hid Hk]%select_by_id_Some & Hown).
  simpl. rewrite Hid.
  apply effects_once. by eapply notification_read.
Qed.

Lemma PATCH_notifications_read_all_effects caller st :
  effects caller st (snd (PATCH_notifications_read_all caller st)).
Proof. apply effects_once, notifications_read_all. Qed.

(** *** File names *)

Lemma digits_fuel_no_slash fuel z acc :
  Forall (fun c => c <> 47%N) acc -> Forall (fun c => c <> 47%N) (digits_fuel fuel z acc).
Proof.
  revert z acc. induction fuel as [|f IH]; intros z acc Hacc; simpl; [done|].
  assert (Hd : Forall (fun c => c <> 47%N) (Z.to_N (48 + z mod 10) :: acc)).
  { constructor; [|done]. pose proof (Z.mod_pos_bound z 10). lia. }
  destruct (z <? 10); [done|]. by apply IH.
Qed.

Lemma digits_of_no_slash z : Forall (fun c => c <> 47%N) (digits_of z).
Proof. apply digits_fuel_no_slash. constructor. Qed.

Lemma zeros_no_slash n : Forall (fun c => c <> 47%N) (Number.zeros n).
Proof. unfold Number.zeros. by apply Forall_replicate. Qed.

Lemma format_no_slash s k n : Forall (fun c => c <> 47%N) (Number.format s k n).
Proof.
  pose proof (digits_of_no_slash s) as Hs.
  pose proof (digits_of_no_slash (Z.abs (n - 1))) as He.
  unfold Number.format.
  repeat match goal with |- context [if ?b then _ else _] => destruct b end;
    repeat first
      [ apply Forall_app; split
      | apply Forall_cons; split; [done|]
      | apply Forall_nil_2
      | apply Forall_take
      | apply Forall_drop
      | apply zeros_no_slash
      | assumption ].
Qed.

Lemma toString_no_slash x : Forall (fun c => c <> 47%N) (Number.toString x).
Proof.
  destruct x as [|neg|neg m e]; simpl.
  - by repeat constructor.
  - apply Forall_app. split; [destruct neg|]; by repeat constructor.
  - destruct (N.eqb m 0); [by repeat constructor|].
    destruct (Number.shortest m e) as [[s k] n].
    apply Forall_app. split; [destruct neg; by repeat constructor|].
    apply format_no_slash.
Qed.

Lemma span_fst_sub {A} (P : A -> Prop) (p : A -> bool) l :
  Forall P l -> Forall P (fst (span p l)).
Proof. intros H. rewrite <- (span_app p l) in H. by apply Forall_app in H as [? _]. Qed.

Lemma extname_no_slash p : Forall (fun c => c <> 47%N) (extname p).
Proof.
  unfold extname.
  set (r := snd (span _ (rev p))).
  set (rbase := fst (span (fun c => negb (N.eqb c 47)) r)).
  assert (Hb : Forall (fun c => c <> 47%N) rbase).
  { eapply Forall_impl; [apply span_fst_Forall|]. simpl.
    intros c Hc ->. done. }
  pose proof (span_fst_sub _ (fun c => negb (N.eqb c 46)) rbase Hb) as Ha.
  destruct (span (fun c => negb (N.eqb c 46)) rbase) as [rafter rest]. simpl in Ha.
  destruct rest as [|dot rpre]; [constructor|].
  destruct (rev rpre) as [|c pre']; [constructor|].
  destruct (_ && _); [constructor|].
  constructor; [done|]. by apply Forall_rev.
Qed.

Lemma stored_filename_no_slash env originalname :
  47%N ∉ stored_filename env originalname.
Proof.
  intros H.
  assert (Hall : Forall (fun c => c <> 47%N) (stored_filename env originalname)).
  { unfold stored_filename.
    repeat (apply Forall_app; split);
      auto using toString_no_slash, extname_no_slash. }
  rewrite Forall_forall in Hall. by apply (Hall _ H).
Qed.

(** *** Files *)

Lemma createFile_run env data st :
  match createFile env data st with
  | (Return (k, f), st') =>
      k = fileUploads_seq st
      /\ st' = with_fileUploads (insert k f) 1 st
      /\ FileUpload.userId f = InsertFileUpload.userId data
      /\ FileUpload.filename f = InsertFileUpload.filename data
      /\ FileUpload.originalName f = InsertFileUpload.originalName data
      /\ FileUpload.mimeType f = InsertFileUpload.mimeType data
      /\ FileUpload.size f = InsertFileUpload.size data
      /\ FileUpload.taskId f = (InsertFileUpload.taskId data ≫= Number.to_Z)
      /\ FileUpload.createdAt f = db_now env
  | (Throw, st') => st' = st
  end.
Proof.
  unfold createFile. rewrite bind_run.
  destruct (InsertFileUpload.taskId data) as [x|]; simpl; [|done].
  rewrite bind_required. destruct (Number.to_Z x) as [k|]; simpl; done.
Qed.

Lemma upload_handler_effects env caller name p field st :
  47%N ∉ name ->
  FilePart.mimetype p ∈ ALLOWED_MIME_TYPES ->
  FilePart.size p <= fileSize_limit ->
  effects caller st (snd (upload_handler env caller (Some (name, p)) field st)).
Proof.
  intros Hname Hmime Hsize.
  assert (Hstore : forall taskId,
             effects caller st
               (snd (try_catch
                       (file ← createFile env
                                (InsertFileUpload.mk caller name (FilePart.originalname p)
                                   (FilePart.mimetype p) (FilePart.size p) taskId);
                        mret (reply 201 (BFile file)))
                       "Failed to upload file" st))).
  { intros taskId. unfold try_catch. rewrite bind_run.
    match goal with |- context [createFile env ?d st] =>
      pose proof (createFile_run env d st) as Hrun;
      destruct (createFile env d st) as [[[k f]|] st'] end; simpl in *.
    2:{ subst. apply effects_refl. }
    destruct Hrun as (-> & -> & Hu & Hn & _ & Hm & Hs & _).
    apply effects_once, file_created; [done|].
    split; [by rewrite Hm|]. split; [by rewrite Hs|by rewrite Hn]. }
  unfold upload_handler.
  destruct field as [[|c field]|]; try apply Hstore.
  unfold try_catch in *.
  destruct (Number.isNaN _); [apply effects_refl|].
  unfold getTask. rewrite bind_gets.
  destruct (not_own_task caller _); [apply effects_refl|]. apply Hstore.
Qed.

Lemma POST_files_upload_effects env caller part field st :
  effects caller st (snd (POST_files_upload env caller part field st)).
Proof.
  unfold POST_files_upload. destruct part as [p|].
  2:{ unfold upload_handler, try_catch. apply effects_refl. }
  case_bool_decide as Hmime; simpl; [|apply effects_refl].
  destruct (fileSize_limit <? FilePart.size p) eqn:Hsize; [apply effects_refl|].
  apply Z.ltb_ge in Hsize.
  pose proof (stored_filename_no_slash env (FilePart.originalname p)) as Hname.
  eapply effects_trans.
  - apply effects_once, (upload_written caller st _ Hname).
  - by apply upload_handler_effects.
Qed.

Lemma DELETE_file_effects caller id st :
  effects caller st (snd (DELETE_file caller id st)).
Proof.
  unfold DELETE_file, try_catch, getFile.
  destruct (Number.isNaN _); [apply effects_refl|].
  rewrite bind_gets.
  destruct (select_by_id (fileUploads st) (parseInt id)) as [[k f]|] eqn:Hsel;
    [|apply effects_refl].
  unfold jsstring_eqb. case_bool_decide as Hown; simpl; [|apply effects_refl].
  apply select_by_id_Some in Hsel as [Hid Hk].
  unfold delete_by_id. rewrite Hid.
  eapply effects_trans.
  - apply effects_once. by eapply upload_removed.
  - apply effects_once. by eapply file_deleted.
Qed.

(** *** Every request *)

(** What a request does to the store is a sequence of changes, each one the
    caller's to make. *)
Lemma handle_effects env caller req st :
  effects caller st (snd (handle env caller req st)).
Proof.
  destruct req as [ | |b|i b|i| |b| | |i| |f t|i|i| |i| | | |tgt b]; unfold handle.
  - apply GET_profile_effects.
  - apply effects_refl.
  - apply POST_tasks_effects.
  - apply PATCH_task_effects.
  - apply DELETE_task_effects.
  - apply effects_refl.
  - apply POST_pomodoro_effects.
  - apply effects_refl.
  - apply POST_recommendations_generate_effects.
  - apply PATCH_recommendation_dismiss_effects.
  - apply effects_refl.
  - apply POST_files_upload_effects.
  - unfold GET_file_download, try_catch, getFile.
    destruct (Number.isNaN _); [apply effects_refl|].
    rewrite bind_gets.
    destruct (select_by_id _ _) as [[k f]|]; [|apply effects_refl].
    destruct (negb _); [apply effects_refl|].
    rewrite bind_gets. destruct (negb _); apply effects_refl.
  - apply DELETE_file_effects.
  - apply effects_refl.
  - apply PATCH_notification_read_effects.
  - apply PATCH_notifications_read_all_effects.
  - unfold GET_admin_stats, try_catch, getProfile. rewrite bind_gets.
    destruct (not_admin _); apply effects_refl.
  - unfold GET_admin_users, try_catch, getProfile. rewrite bind_gets.
    destruct (not_admin _); apply effects_refl.
  - apply PATCH_admin_user_role_effects.
Qed.

(** ** What requests keep *)

Lemma wf_table_delete {A} (t : gmap Z A) seq k :
  wf_table t seq -> wf_table (delete k t) (seq + 0).
Proof.
  apply wf_table_sub. intros j. rewrite lookup_delete.
  case_decide; [by intros []|done].
Qed.

Lemma effect_wf caller st st' : effect caller st st' -> wf st -> wf st'.
Proof.
  intros Hc (Wt & Wp & Wr & Wf & Wn).
  destruct Hc as [p Hnone Hrole|tgt p bump Hadm|t Hown Hval|k old new Hk Hown Hown' Hcr Hval|k old Hk Hown|s Hown Hval|r Hown Hdis Hval|k r Hk Hown|name Hname|k f Hk Hown|f Hown Hval|k f Hk Hown|k n Hk Hown|];
    unfold wf; simpl; (split; [|split; [|split; [|split]]]);
    first [ assumption
          | by apply wf_table_insert_next
          | by apply wf_table_insert_known
          | by apply wf_table_delete
          | by apply wf_table_alter
          | by apply wf_table_fmap ].
Qed.

Lemma effects_wf caller st st' : effects caller st st' -> wf st -> wf st'.
Proof. induction 1; eauto using effect_wf. Qed.

(** A relation that every single change establishes, from a well-formed
    store, holds across every sequence of changes. *)
Lemma effects_keep (R : relation Store) caller :
  (forall st, R st st) ->
  (forall a b c, wf a -> wf b -> R a b -> R b c -> R a c) ->
  (forall st st', wf st -> effect caller st st' -> R st st') ->
  forall st st', effects caller st st' -> wf st -> R st st'.
Proof.
  intros Hrefl Htrans Hstep st st' H. induction H as [st|a b c Hab Hbc IH]; intros Hwf.
  - apply Hrefl.
  - pose proof (effect_wf _ _ _ Hab Hwf) as Hb.
    apply (Htrans a b c); auto.
Qed.

Lemma run_keep (R : relation Store) :
  (forall st, R st st) ->
  (forall a b c, wf a -> wf b -> R a b -> R b c -> R a c) ->
  (forall caller st st', wf st -> effect caller st st' -> R st st') ->
  forall reqs st, wf st -> R st (run reqs st).
Proof.
  intros Hrefl Htrans Hstep reqs.
  induction reqs as [|[[env u] req] reqs IH]; intros st Hwf; simpl; [apply Hrefl|].
  pose proof (handle_effects env u req st) as Hch.
  pose proof (effects_wf _ _ _ Hch Hwf) as Hwf'.
  apply (Htrans st (snd (handle env u req st))); [done|done| |by apply IH].
  by apply (effects_keep R u Hrefl Htrans (Hstep u)).
Qed.

(** The same for the requests of one caller. *)
Lemma run_keep_caller (R : relation Store) caller :
  (forall st, R st st) ->
  (forall a b c, wf a -> wf b -> R a b -> R b c -> R a c) ->
  (forall st st', wf st -> effect caller st st' -> R st st') ->
  forall reqs st,
    Forall (fun r => snd (fst r) = caller) reqs -> wf st -> R st (run reqs st).
Proof.
  intros Hrefl Htrans Hstep reqs.
  induction reqs as [|[[env u] req] reqs IH]; intros st Hall Hwf; simpl; [apply Hrefl|].
  apply Forall_cons in Hall as [Hu Hall]. simpl in Hu. subst u.
  pose proof (handle_effects env caller req st) as Hch.
  pose proof (effects_wf _ _ _ Hch Hwf) as Hwf'.
  apply (Htrans st (snd (handle env caller req st))); [done|done| |by apply IH].
  by apply (effects_keep R caller Hrefl Htrans Hstep).
Qed.

(** *** The rows of other users *)

Lemma same_rows_refl {A} (owner : A -> jsstring) caller t :
  same_rows_of_others owner caller t t.
Proof. by intros k a _. Qed.

Lemma same_rows_trans {A} (owner : A -> jsstring) caller t1 t2 t3 :
  same_rows_of_others owner caller t1 t2 ->
  same_rows_of_others owner caller t2 t3 ->
  same_rows_of_others owner caller t1 t3.
Proof. intros H1 H2 k a Ha. by rewrite (H1 k a Ha), (H2 k a Ha). Qed.

Lemma same_rows_insert_own {A} (owner : A -> jsstring) caller t k a :
  owner a = caller ->
  (forall b, t !! k = Some b -> owner b = caller) ->
  same_rows_of_others owner caller t (<[k := a]> t).
Proof.
  intros Ha Hold j b Hb. rewrite lookup_insert. case_decide as Hk; [subst j|done].
  split; [intros Hj%Hold; by destruct Hb|intros [= <-]; by destruct Hb].
Qed.

Lemma same_rows_delete_own {A} (owner : A -> jsstring) caller t k a :
  t !! k = Some a -> owner a = caller ->
  same_rows_of_others owner caller t (delete k t).
Proof.
  intros Hk Ha j b Hb. rewrite lookup_delete. case_decide as Hj; [subst j|done].
  rewrite Hk. split; [intros [= <-]; by destruct Hb|done].
Qed.

Lemma same_rows_alter_own {A} (owner : A -> jsstring) (f : A -> A) caller t k a :
  t !! k = Some a -> owner a = caller -> owner (f a) = caller ->
  same_rows_of_others owner caller t (alter f k t).
Proof.
  intros Hk Ha Hf j b Hb. rewrite lookup_alter. case_decide as Hj; [subst j|done].
  rewrite Hk. simpl. split; intros [= <-]; by destruct Hb.
Qed.

Lemma effect_others_untouched caller st st' :
  wf st -> effect caller st st' -> others_untouched caller st st'.
Proof.
  intros (Wt & Wp & Wr & Wf & Wn) Hc.
  destruct Hc as [p Hnone Hrole|tgt p bump Hadm|t Hown Hval|k old new Hk Hown Hown' Hcr Hval|k old Hk Hown|s Hown Hval|r Hown Hdis Hval|k r Hk Hown|name Hname|k f Hk Hown|f Hown Hval|k f Hk Hown|k n Hk Hown|];
    unfold others_untouched; simpl;
    (split; [|split; [|split; [|split]]]); try apply same_rows_refl.
  - apply same_rows_insert_own; [done|]. by rewrite (wf_table_fresh _ _ Wt).
  - apply same_rows_insert_own; [done|]. intros b. rewrite Hk. by intros [= <-].
  - by eapply same_rows_delete_own.
  - apply same_rows_insert_own; [done|]. by rewrite (wf_table_fresh _ _ Wp).
  - apply same_rows_insert_own; [done|]. by rewrite (wf_table_fresh _ _ Wr).
  - by eapply same_rows_alter_own.
  - apply same_rows_insert_own; [done|]. by rewrite (wf_table_fresh _ _ Wf).
  - by eapply same_rows_delete_own.
  - by eapply same_rows_alter_own.
  - intros j a Ha. rewrite lookup_fmap.
    destruct (notifications st !! j) as [n|] eqn:E; simpl; [|done].
    unfold jsstring_eqb. case_bool_decide as Hn; [|done].
    split; intros [= <-]; by destruct Ha.
Qed.

Lemma others_untouched_refl caller st : others_untouched caller st st.
Proof. split; [|split; [|split; [|split]]]; apply same_rows_refl. Qed.

Lemma others_untouched_trans caller a b c :
  others_untouched caller a b -> others_untouched caller b c ->
  others_untouched caller a c.
Proof.
  intros (A1 & A2 & A3 & A4 & A5) (B1 & B2 & B3 & B4 & B5).
  split; [|split; [|split; [|split]]]; eapply same_rows_trans; eauto.
Qed.

(** X3. Whatever a caller requests, and however often, the tasks, sessions,
    recommendations, file records and notifications of every other user are
    afterwards exactly what they were: none is changed, removed or added. *)
Theorem requests_leave_the_rows_of_others reqs caller st :
  wf st ->
  Forall (fun r => snd (fst r) = caller) reqs ->
  others_untouched caller st (run reqs st).
Proof.
  intros Hwf Hall.
  apply (run_keep_caller (others_untouched caller) caller); auto.
  - apply others_untouched_refl.
  - intros a b c _ _. apply others_untouched_trans.
  - intros. by apply effect_others_untouched.
Qed.

(** *** Roles *)

Lemma profiles_kept_refl st : profiles_kept st st.
Proof. split; eauto. Qed.

Lemma profiles_kept_trans a b c :
  profiles_kept a b -> profiles_kept b c -> profiles_kept a c.
Proof.
  intros [A1 A2] [B1 B2]. split; [eauto|].
  intros u p Hc. destruct (B2 u p Hc) as [Hb|[Hb Hr]]; [eauto|].
  right. split; [|done].
  destruct (userProfiles a !! u) as [q|] eqn:E; [|done].
  apply A1 in E. congruence.
Qed.

Lemma profiles_kept_not_admin st st' u :
  profiles_kept st st' ->
  not_admin (userProfiles st' !! u) = not_admin (userProfiles st !! u).
Proof.
  intros [H1 H2].
  destruct (userProfiles st !! u) as [p|] eqn:E.
  - by rewrite (H1 u p E).
  - destruct (userProfiles st' !! u) as [q|] eqn:E'; [|done].
    destruct (H2 u q E') as [Hq|[_ Hq]]; [congruence|].
    simpl. by rewrite Hq.
Qed.

Lemma effect_profiles_kept caller st st' :
  effect caller st st' ->
  not_admin (userProfiles st !! caller) = true ->
  profiles_kept st st'.
Proof.
  intros Hc Hna.
  destruct Hc as [p Hnone Hrole|tgt p bump Hadm|t Hown Hval|k old new Hk Hown Hown' Hcr Hval|k old Hk Hown|s Hown Hval|r Hown Hdis Hval|k r Hk Hown|name Hname|k f Hk Hown|f Hown Hval|k f Hk Hown|k n Hk Hown|];
    [|congruence|..]; try (split; simpl; by eauto).
  split; simpl.
  - intros u q Hu. rewrite lookup_insert_ne; [done|]. intros <-. congruence.
  - intros u q. rewrite lookup_insert. case_decide as Hu; [subst u|by left].
    intros [= <-]. by right.
Qed.

Lemma effects_profiles_kept caller st st' :
  effects caller st st' ->
  not_admin (userProfiles st !! caller) = true ->
  profiles_kept st st'.
Proof.
  induction 1 as [st|a b c Hab Hbc IH]; intros Hna; [apply profiles_kept_refl|].
  pose proof (effect_profiles_kept _ _ _ Hab Hna) as Hk.
  apply (profiles_kept_trans a b c Hk), IH.
  by rewrite (profiles_kept_not_admin a b caller Hk).
Qed.

(** X8. Nobody gains the admin role without an admin: through any sequence
    of requests whose callers are no admins at its start, every profile
    stays as it is, a profile that appears is a student's, and so whoever
    is no admin before is none after. *)
Theorem roles_change_only_through_admins reqs st :
  Forall (fun r => not_admin (userProfiles st !! snd (fst r)) = true) reqs ->
  profiles_kept st (run reqs st)
  /\ forall u, not_admin (userProfiles (run reqs st) !! u)
               = not_admin (userProfiles st !! u).
Proof.
  intros Hall.
  assert (Hk : profiles_kept st (run reqs st)).
  { revert st Hall.
    induction reqs as [|[[env u] req] reqs IH]; intros st Hall; simpl;
      [apply profiles_kept_refl|].
    apply Forall_cons in Hall as [Hu Hall]. simpl in Hu.
    pose proof (effects_profiles_kept _ _ _ (handle_effects env u req st) Hu) as Hk.
    apply (profiles_kept_trans _ _ _ Hk), IH.
    eapply Forall_impl; [exact Hall|]. intros r Hr. simpl in *.
    by rewrite (profiles_kept_not_admin _ _ _ Hk). }
  split; [done|]. intros u. by apply profiles_kept_not_admin.
Qed.

(** *** Sessions *)

Lemma effect_sessions_kept caller st st' :
  wf st -> effect caller st st' ->
  rows_kept (pomodoroSessions st) (pomodoroSessions st').
Proof.
  intros (Wt & Wp & Wr & Wf & Wn) Hc j s' Hj.
  destruct Hc as [p Hnone Hrole|tgt p bump Hadm|t Hown Hval|k old new Hk Hown Hown' Hcr Hval|k old Hk Hown|s Hown Hval|r Hown Hdis Hval|k r Hk Hown|name Hname|k f Hk Hown|f Hown Hval|k f Hk Hown|k n Hk Hown|]; simpl; try done.
  rewrite lookup_insert_ne; [done|].
  intros <-. by rewrite (wf_table_fresh _ _ Wp) in Hj.
Qed.

(** X5. Sessions are only ever added: a stored session is still stored, under
    its key and member for member, after any sequence of requests. *)
Theorem sessions_are_never_changed_or_removed reqs st k s :
  wf st ->
  pomodoroSessions st !! k = Some s ->
  pomodoroSessions (run reqs st) !! k = Some s.
Proof.
  intros Hwf. revert k s.
  apply (run_keep (fun a b => rows_kept (pomodoroSessions a) (pomodoroSessions b)));
    [by intros ? ? ?|intros a b c _ _ Hab Hbc k s Hk; by apply Hbc, Hab| |done].
  intros caller a b. apply effect_sessions_kept.
Qed.

(** *** Keys *)

Lemma keys_kept_refl {A} (same : A -> A -> Prop) t seq :
  (forall a, same a a) -> keys_kept same t seq t seq.
Proof.
  intros Hs. split; [lia|]. split; [done|].
  intros k a a' H1 H2. rewrite H1 in H2. injection H2 as <-. apply Hs.
Qed.

Lemma keys_kept_trans {A} (same : A -> A -> Prop) t1 s1 t2 s2 t3 s3 :
  (forall a b c, same a b -> same b c -> same a c) ->
  wf_table t1 s1 ->
  keys_kept same t1 s1 t2 s2 -> keys_kept same t2 s2 t3 s3 ->
  keys_kept same t1 s1 t3 s3.
Proof.
  intros Hs [_ W1] (A1 & A2 & A3) (B1 & B2 & B3).
  split; [lia|]. split.
  - intros k Hk Hn. apply B2; [lia|]. by apply A2.
  - intros k a c Ha Hc.
    destruct (t2 !! k) as [b|] eqn:Hb.
    + eapply Hs; [by eapply A3|by eapply B3].
    + pose proof (W1 k a Ha) as Hlt. simpl in Hlt.
      rewrite B2 in Hc; [done|lia|done].
Qed.

Lemma keys_kept_insert_next {A} (same : A -> A -> Prop) t seq a :
  (forall a, same a a) -> wf_table t seq ->
  keys_kept same t seq (<[seq := a]> t) (seq + 1).
Proof.
  intros Hs W. split; [lia|]. split.
  - intros k Hk Hn. rewrite lookup_insert_ne; [done|lia].
  - intros k b b' Hb. rewrite lookup_insert_ne.
    + rewrite Hb. intros [= <-]. apply Hs.
    + intros <-. by rewrite (wf_table_fresh _ _ W) in Hb.
Qed.

Lemma keys_kept_insert_known {A} (same : A -> A -> Prop) t seq k a a' :
  (forall a, same a a) -> t !! k = Some a -> same a a' ->
  keys_kept same t seq (<[k := a']> t) (seq + 0).
Proof.
  intros Hs Hk Ha. split; [lia|]. split.
  - intros j Hj Hn. rewrite lookup_insert_ne; [done|]. intros <-. congruence.
  - intros j b b' Hb. rewrite lookup_insert. case_decide as Hj.
    + subst j. intros [= <-]. congruence.
    + rewrite Hb. intros [= <-]. apply Hs.
Qed.

Lemma keys_kept_delete {A} (same : A -> A -> Prop) t seq k :
  (forall a, same a a) -> keys_kept same t seq (delete k t) (seq + 0).
Proof.
  intros Hs. split; [lia|]. split.
  - intros j Hj Hn. rewrite lookup_delete. by case_decide.
  - intros j b b' Hb. rewrite lookup_delete. case_decide; [done|].
    rewrite Hb. intros [= <-]. apply Hs.
Qed.

Lemma same_task_refl t : same_task t t.
Proof. by split. Qed.

Lemma effect_identities_kept caller st st' :
  wf st -> effect caller st st' -> identities_kept st st'.
Proof.
  intros (Wt & Wp & Wr & Wf & Wn) Hc.
  destruct Hc as [p Hnone Hrole|tgt p bump Hadm|t Hown Hval|k old new Hk Hown Hown' Hcr Hval|k old Hk Hown|s Hown Hval|r Hown Hdis Hval|k r Hk Hown|name Hname|k f Hk Hown|f Hown Hval|k f Hk Hown|k n Hk Hown|];
    split; simpl;
    try (apply keys_kept_refl; done || apply same_task_refl).
  - by apply keys_kept_insert_next; [apply same_task_refl|].
  - apply (keys_kept_insert_known same_task _ _ k old new);
      [apply same_task_refl|done|]. split; congruence.
  - apply keys_kept_delete, same_task_refl.
  - by apply keys_kept_insert_next.
  - by apply keys_kept_delete.
Qed.

(** X4. The key of a task or of a file record names one row for good: the
    sequences never go back, a key that was handed out and is free again is
    never used again, and for as long as the row is stored a task keeps its
    owner and its creation time and a file record every member. *)
Theorem keys_are_never_reused reqs st :
  wf st -> identities_kept st (run reqs st).
Proof.
  apply (run_keep identities_kept).
  - intros a. split; apply keys_kept_refl; [apply same_task_refl|done].
  - intros a b c (Wt & _ & _ & Wf & _) _ [A1 A2] [B1 B2]. split.
    + apply (keys_kept_trans same_task _ _ (tasks b) (tasks_seq b)); try done.
      intros x y z' [X1 X2] [Y1 Y2]. split; congruence.
    + apply (keys_kept_trans eq _ _ (fileUploads b) (fileUploads_seq b)); try done.
      intros; congruence.
  - intros caller a b. apply effect_identities_kept.
Qed.

(** *** Flagged rows *)

Lemma rows_flagged_refl {A} (raise : A -> A) t : rows_flagged raise t t.
Proof. intros k a Hk. eauto. Qed.

Lemma rows_flagged_trans {A} (raise : A -> A) t1 t2 t3 :
  (forall a, raise (raise a) = raise a) ->
  rows_flagged raise t1 t2 -> rows_flagged raise t2 t3 -> rows_flagged raise t1 t3.
Proof.
  intros Hr H1 H2 k a Hk.
  destruct (H1 k a Hk) as (b & Hb & Hab).
  destruct (H2 k b Hb) as (c & Hc & Hbc).
  exists c. split; [done|].
  destruct Hab as [->| ->], Hbc as [->| ->]; auto.
Qed.

Lemma rows_flagged_insert_next {A} (raise : A -> A) t seq a :
  wf_table t seq -> rows_flagged raise t (<[seq := a]> t).
Proof.
  intros W k b Hk. exists b. split; [|by left].
  rewrite lookup_insert_ne; [done|]. intros <-. by rewrite (wf_table_fresh _ _ W) in Hk.
Qed.

Lemma rows_flagged_alter {A} (raise : A -> A) t k :
  rows_flagged raise t (alter raise k t).
Proof.
  intros j b Hj. rewrite lookup_alter. case_decide; [subst j|eauto].
  rewrite Hj. simpl. eauto.
Qed.

Lemma effect_flagged caller st st' :
  wf st -> effect caller st st' ->
  rows_flagged set_dismissed (studyRecommendations st) (studyRecommendations st')
  /\ rows_flagged set_read (notifications st) (notifications st')
  /\ dom (notifications st') = dom (notifications st).
Proof.
  intros (Wt & Wp & Wr & Wf & Wn) Hc.
  destruct Hc as [p Hnone Hrole|tgt p bump Hadm|t Hown Hval|k old new Hk Hown Hown' Hcr Hval|k old Hk Hown|s Hown Hval|r Hown Hdis Hval|k r Hk Hown|name Hname|k f Hk Hown|f Hown Hval|k f Hk Hown|k n Hk Hown|];
    simpl; (split; [|split]);
    try apply rows_flagged_refl; try done.
  - by apply rows_flagged_insert_next.
  - apply rows_flagged_alter.
  - apply rows_flagged_alter.
  - apply set_eq. intros j. rewrite !elem_of_dom, lookup_alter.
    case_decide; [subst j|done]. by rewrite fmap_is_Some.
  - intros j a Hj. rewrite lookup_fmap, Hj. simpl. eexists. split; [done|].
    destruct (jsstring_eqb _ _); auto.
  - apply dom_fmap_L.
Qed.

(** X6. Recommendations and notifications are never removed and never
    rewritten: after any sequence of requests a stored row is still there,
    the same member for member but for its flag, which may have been
    raised; and no request adds a notification. *)
Theorem flagged_rows_keep_their_content reqs st :
  wf st ->
  rows_flagged set_dismissed (studyRecommendations st) (studyRecommendations (run reqs st))
  /\ rows_flagged set_read (notifications st) (notifications (run reqs st))
  /\ dom (notifications (run reqs st)) = dom (notifications st).
Proof.
  apply (run_keep (fun a b =>
           rows_flagged set_dismissed (studyRecommendations a) (studyRecommendations b)
           /\ rows_flagged set_read (notifications a) (notifications b)
           /\ dom (notifications b) = dom (notifications a))).
  - intros a. split; [|split]; try apply rows_flagged_refl. done.
  - intros a b c _ _ (A1 & A2 & A3) (B1 & B2 & B3). split; [|split].
    + by apply (rows_flagged_trans _ _ (studyRecommendations b)).
    + by apply (rows_flagged_trans _ _ (notifications b)).
    + congruence.
  - intros caller a b. apply effect_flagged.
Qed.

(** *** Stored rows are valid *)

Lemma effect_valid caller st st' :
  effect caller st st' -> store_valid st -> store_valid st'.
Proof.
  intros Hc (Vt & Vp & Vr & Vf).
  destruct Hc as [p Hnone Hrole|tgt p bump Hadm|t Hown Hval|k old new Hk Hown Hown' Hcr Hval|k old Hk Hown|s Hown Hval|r Hown Hdis Hval|k r Hk Hown|name Hname|k f Hk Hown|f Hown Hval|k f Hk Hown|k n Hk Hown|];
    (split; [|split; [|split]]); simpl; try done.
  - by apply map_Forall_insert_2.
  - apply map_Forall_insert_2; [|done]. apply Hval. by apply (Vt k).
  - by apply map_Forall_delete.
  - by apply map_Forall_insert_2.
  - by apply map_Forall_insert_2.
  - intros j r'. rewrite lookup_alter. case_decide; [subst j|apply Vr].
    rewrite Hk. simpl. intros [= <-]. apply (Vr k r Hk).
  - by apply map_Forall_insert_2.
  - by apply map_Forall_delete.
Qed.

Lemma effects_valid caller st st' :
  effects caller st st' -> store_valid st -> store_valid st'.
Proof. induction 1; eauto using effect_valid. Qed.

(** X7. What is stored stays within the bounds the endpoints check: from a
    store whose tasks have a title of 1 to 500 units, a description of at
    most 5000, a subject of at most 200 and an estimate of 1 to 1440
    minutes, whose sessions last 1 to 120 minutes with a break of 1 to 60
    and have an end time exactly when completed, whose recommendations have
    a title of at most 60 and a description of at most 200 units, and whose
    file records have a type of the list, a size within the limit and a
    stored name without a slash, no sequence of requests leads to a store
    without these properties. *)
Theorem stored_rows_stay_valid reqs st :
  store_valid st -> store_valid (run reqs st).
Proof.
  revert st. induction reqs as [|[[env u] req] reqs IH]; intros st Hv; simpl; [done|].
  apply IH. eapply effects_valid; [apply handle_effects|done].
Qed.

(** ** Keys in routes *)







(** ** The endpoints one by one *)

(** *** Lists *)

Global Instance newer_total {A} (created : A -> Z) : Total (newer created).
Proof.
  intros a b. unfold newer.
  destruct (Z.lt_trichotomy (created (snd a)) (created (snd b))) as [H|[H|H]].
  - right. apply orb_true_iff. left. by apply Z.ltb_lt.
  - destruct (Z.le_ge_cases (fst a) (fst b)).
    + right. apply orb_true_iff. right. apply andb_true_iff.
      split; [apply Z.eqb_eq; lia|by apply Z.leb_le].
    + left. apply orb_true_iff. right. apply andb_true_iff.
      split; [by apply Z.eqb_eq|apply Z.leb_le; lia].
  - left. apply orb_true_iff. left. by apply Z.ltb_lt.
Qed.

Global Instance newer_trans {A} (created : A -> Z) : Transitive (newer created).
Proof.
  intros a b c. unfold newer. rewrite !orb_true_iff, !andb_true_iff.
  rewrite !Z.ltb_lt, !Z.eqb_eq, !Z.leb_le. lia.
Qed.

Lemma newer_created {A} (created : A -> Z) a b :
  newer created a b -> created (snd b) <= created (snd a).
Proof.
  unfold newer. rewrite !orb_true_iff, !andb_true_iff.
  rewrite !Z.ltb_lt, !Z.eqb_eq. lia.
Qed.

Lemma StronglySorted_lookup {A} (R : relation A) l i j a b :
  StronglySorted R l -> (i < j)%nat -> l !! i = Some a -> l !! j = Some b -> R a b.
Proof.
  intros Hs. revert i j. induction Hs as [|x l Hs IH Hx]; intros i j Hij Hi Hj; [done|].
  destruct j as [|j]; [lia|]. simpl in Hj.
  destruct i as [|i]; simpl in Hi.
  - injection Hi as <-. rewrite Forall_forall in Hx. apply Hx.
    by eapply list_elem_of_lookup_2.
  - apply (IH i j); [lia|done|done].
Qed.

Lemma select_by_user_listed {A} (owner : A -> jsstring) (created : A -> Z)
    (t : gmap Z A) (u : jsstring) :
  listed owner created t u (select_by_user owner created t u).
Proof.
  split; [|split].
  - intros k a. apply elem_of_select_by_user.
  - unfold select_by_user. rewrite merge_sort_Permutation.
    apply NoDup_ListNoDup, List.NoDup_filter, NoDup_ListNoDup, NoDup_map_to_list.
  - intros i j a b Hij Hi Hj. apply newer_created.
    eapply (StronglySorted_lookup (newer created)); [|exact Hij|exact Hi|exact Hj].
    unfold select_by_user. apply StronglySorted_merge_sort; apply _.
Qed.

(** X1. Each of the five list endpoints answers with the rows of the caller,
    all of them and no row of anyone else, each once and the newest first,
    and leaves the store as it is. *)
Theorem lists_hold_the_rows_of_the_caller caller st :
  (exists l, GET_tasks caller st = (reply 200 (BTasks l), st)
             /\ listed Task.userId Task.createdAt (tasks st) caller l)
  /\ (exists l, GET_pomodoro caller st = (reply 200 (BSessions l), st)
                /\ listed PomodoroSession.userId PomodoroSession.startedAt
                     (pomodoroSessions st) caller l)
  /\ (exists l, GET_recommendations caller st = (reply 200 (BRecommendations l), st)
                /\ listed StudyRecommendation.userId StudyRecommendation.createdAt
                     (studyRecommendations st) caller l)
  /\ (exists l, GET_files caller st = (reply 200 (BFiles l), st)
                /\ listed FileUpload.userId FileUpload.createdAt (fileUploads st) caller l)
  /\ (exists l, GET_notifications caller st = (reply 200 (BNotifications l), st)
                /\ listed Notification.userId Notification.createdAt
                     (notifications st) caller l).
Proof.
  repeat split; eexists; (split; [reflexivity|apply select_by_user_listed]).
Qed.

(** *** Requests that read *)

(** X2. The requests that read — the lists, the download and the two
    admin views — leave the store as it is, whatever they answer. *)
Theorem reading_changes_nothing env caller req st :
  reads_only req = true -> snd (handle env caller req st) = st.
Proof.
  destruct req as [ | |b|i b|i| |b| | |i| |f t|i|i| |i| | | |tgt b]; try discriminate;
    intros _; unfold handle; try reflexivity.
  - unfold GET_file_download, try_catch, getFile.
    destruct (Number.isNaN _); [done|]. rewrite bind_gets.
    destruct (select_by_id _ _) as [[k f]|]; [|done].
    destruct (negb _); [done|]. rewrite bind_gets. by destruct (negb _).
  - unfold GET_admin_stats, try_catch, getProfile. rewrite bind_gets.
    by destruct (not_admin _).
  - unfold GET_admin_users, try_catch, getProfile. rewrite bind_gets.
    by destruct (not_admin _).
Qed.

(** *** The profile *)

(** X9. Fetching the profile always answers with a profile of the caller:
    the stored one, and then nothing changes; or, when there is none, a new
    one with the student role and the default daily target, stored under
    the caller's id. Fetching it again gives the same answer and changes
    nothing. *)
Theorem profile_is_created_once caller st :
  exists p,
    fst (GET_profile caller st) = reply 200 (BProfile caller (Some p))
    /\ userProfiles (snd (GET_profile caller st)) !! caller = Some p
    /\ (forall q, userProfiles st !! caller = Some q ->
          p = q /\ snd (GET_profile caller st) = st)
    /\ (userProfiles st !! caller = None ->
          p = UserProfile.mk (userProfiles_seq st) student None None (Some 120)
          /\ snd (GET_profile caller st) = with_userProfiles (insert caller p) 1 st)
    /\ GET_profile caller (snd (GET_profile caller st))
       = (fst (GET_profile caller st), snd (GET_profile caller st)).
Proof.
  assert (Hfound : forall s q, userProfiles s !! caller = Some q ->
            GET_profile caller s = (reply 200 (BProfile caller (Some q)), s)).
  { intros s q Hq. unfold GET_profile, try_catch, getProfile.
    by rewrite bind_gets, Hq. }
  destruct (userProfiles st !! caller) as [q|] eqn:E.
  - exists q. rewrite (Hfound st q E). simpl.
    split; [done|]. split; [done|]. split; [by intros ? [= <-]|]. split; [done|].
    by apply Hfound.
  - set (p := UserProfile.mk (userProfiles_seq st) student None None (Some 120)).
    assert (Hnew : GET_profile caller st
                   = (reply 200 (BProfile caller (Some p)),
                      with_userProfiles (insert caller p) 1 st)).
    { unfold GET_profile, try_catch, getProfile. rewrite bind_gets, E.
      unfold upsertProfile, getProfile. cbv zeta. cbn [InsertUserProfile.userId].
      rewrite bind_run, bind_gets, E. reflexivity. }
    exists p. rewrite Hnew. simpl.
    split; [done|]. split; [by rewrite lookup_insert_eq|]. split; [done|].
    split; [done|]. apply Hfound. simpl. by rewrite lookup_insert_eq.
Qed.

(** *** The admin routes *)

(** X10. A caller without a profile, or whose profile has the student role,
    is refused by each of the three admin routes with 403, and the store
    stays as it is. *)
Theorem admin_routes_refuse_others env caller req st :
  admin_only req = true ->
  not_admin (userProfiles st !! caller) = true ->
  handle env caller req st = (reply 403 (BMessage "Access denied"), st).
Proof.
  destruct req as [ | |b|i b|i| |b| | |i| |f t|i|i| |i| | | |tgt b]; try discriminate;
    intros _ Hna; unfold handle.
  - unfold GET_admin_stats, try_catch, getProfile. by rewrite bind_gets, Hna.
  - unfold GET_admin_users, try_catch, getProfile. by rewrite bind_gets, Hna.
  - unfold PATCH_admin_user_role, try_catch, getProfile. by rewrite bind_gets, Hna.
Qed.


(** *** Files *)

(** X18. A file part of a type outside the list, or above the size limit, is
    turned away before the handler runs: no record is created, nothing is
    left on disk, and the answer is not 201. *)
Theorem rejected_upload_stores_nothing env caller p field st :
  ~ accepted p ->
  snd (POST_files_upload env caller (Some p) field st) = st
  /\ status (fst (POST_files_upload env caller (Some p) field st)) <> 201.
Proof.
  intros Hrej. unfold POST_files_upload.
  case_bool_decide as Hmime; simpl; [|done].
  destruct (fileSize_limit <? FilePart.size p) eqn:Hsize; [done|].
  apply Z.ltb_ge in Hsize. by destruct Hrej.
Qed.

Lemma upload_handler_run env caller name p field st :
  exists taskId,
    upload_handler env caller (Some (name, p)) field st
    = (let f := FileUpload.mk caller name (FilePart.originalname p) (FilePart.mimetype p)
                  (FilePart.size p) taskId (db_now env) in
       (reply 201 (BFile (fileUploads_seq st, f)),
        with_fileUploads (insert (fileUploads_seq st) f) 1 st))
    \/ (snd (upload_handler env caller (Some (name, p)) field st) = st
        /\ status (fst (upload_handler env caller (Some (name, p)) field st)) <> 201).
Proof.
  assert (Hstore : forall taskId,
            exists tid,
              try_catch
                (file ← createFile env
                         (InsertFileUpload.mk caller name (FilePart.originalname p)
                            (FilePart.mimetype p) (FilePart.size p) taskId);
                 mret (reply 201 (BFile file)))
                "Failed to upload file" st
              = (let f := FileUpload.mk caller name (FilePart.originalname p)
                            (FilePart.mimetype p) (FilePart.size p) tid (db_now env) in
                 (reply 201 (BFile (fileUploads_seq st, f)),
                  with_fileUploads (insert (fileUploads_seq st) f) 1 st))
              \/ (snd (try_catch
                         (file ← createFile env
                                  (InsertFileUpload.mk caller name (FilePart.originalname p)
                                     (FilePart.mimetype p) (FilePart.size p) taskId);
                          mret (reply 201 (BFile file)))
                         "Failed to upload file" st) = st
                  /\ status (fst (try_catch
                         (file ← createFile env
                                  (InsertFileUpload.mk caller name (FilePart.originalname p)
                                     (FilePart.mimetype p) (FilePart.size p) taskId);
                          mret (reply 201 (BFile file)))
                         "Failed to upload file" st)) <> 201)).
  { intros taskId. unfold try_catch, createFile. rewrite !bind_run.
    destruct taskId as [x|]; simpl.
    - rewrite bind_required. destruct (Number.to_Z x) as [k|]; simpl.
      + exists (Some k). by left.
      + exists None. by right.
    - exists None. by left. }
  unfold upload_handler.
  destruct field as [[|c field]|]; try apply Hstore.
  unfold try_catch in *.
  destruct (Number.isNaN _); [exists None; by right|].
  unfold getTask. rewrite bind_gets.
  destruct (not_own_task caller _); [exists None; by right|]. apply Hstore.
Qed.

(** X19. An accepted file is on disk before the handler runs, and the handler
    never removes it: whenever the upload is not answered with 201 — the
    task named is not the caller's, or its key is no number — the file stays
    on disk, and nothing else has changed, so that no record refers to
    it. *)
Theorem refused_upload_leaves_the_file env caller p field st :
  accepted p ->
  status (fst (POST_files_upload env caller (Some p) field st)) <> 201 ->
  snd (POST_files_upload env caller (Some p) field st)
  = with_uploads (fun d => {[ stored_filename env (FilePart.originalname p) ]} ∪ d) st.
Proof.
  intros [Hmime Hsize]. unfold POST_files_upload.
  rewrite bool_decide_eq_true_2 by done. simpl.
  apply Z.ltb_ge in Hsize. rewrite Hsize.
  set (st0 := with_uploads _ st).
  destruct (upload_handler_run env caller (stored_filename env (FilePart.originalname p))
              p field st0) as (tid & [-> | [Hst _]]); [by intros []|done].
Qed.


(** X30. A file can be attached to an own task only. With an accepted file
    and a task field that reads as a key of the range of the column (zero
    included: the field is a text, and a text that is not empty counts as
    given), the task is looked up: when it is the caller's, the record is
    stored with the key of the task and answered with 201; when it is
    another user's, or there is none, the answer is 403 and no record is
    stored. *)
Theorem upload_reference_is_checked env caller p field st k :
  accepted p ->
  field <> [] ->
  Number.to_Z (parseInt field) = Some k ->
  - 2 ^ 31 <= k < 2 ^ 31 ->
  let answer := POST_files_upload env caller (Some p) (Some field) st in
  match tasks st !! k with
  | Some t =>
      if bool_decide (Task.userId t = caller)
      then exists f,
             fst answer = reply 201 (BFile (fileUploads_seq st, f))
             /\ fileUploads (snd answer) !! fileUploads_seq st = Some f
             /\ FileUpload.userId f = caller
             /\ FileUpload.taskId f = Some k
      else status (fst answer) = 403 /\ fileUploads (snd answer) = fileUploads st
  | None => status (fst answer) = 403 /\ fileUploads (snd answer) = fileUploads st
  end.
Proof.
  intros [Hmime Hsize] Hfield Hk _ answer. subst answer.
  destruct field as [|c field]; [done|].
  pose proof (to_Z_not_NaN _ _ Hk) as Hnan.
  unfold POST_files_upload.
  rewrite bool_decide_eq_true_2 by done.
  apply Z.ltb_ge in Hsize. cbn [negb]. rewrite Hsize.
  set (name := stored_filename env (FilePart.originalname p)).
  set (st0 := with_uploads (fun d => {[ name ]} ∪ d) st).
  unfold upload_handler, try_catch. rewrite Hnan.
  unfold getTask. rewrite bind_gets.
  change (tasks st0) with (tasks st).
  unfold select_by_id. rewrite Hk. simpl.
  destruct (tasks st !! k) as [t|]; [|done]. simpl.
  unfold jsstring_eqb. case_bool_decide as Hown; [|done].
  cbn [negb].
  unfold createFile. rewrite !bind_run. cbn [InsertFileUpload.taskId].
  rewrite bind_required, Hk. simpl.
  eexists. split; [reflexivity|]. split; [by rewrite lookup_insert_eq|]. done.
Qed.

(** *** Deleting a task *)

Lemma DELETE_task_own caller id st k t :
  select_by_id (tasks st) (parseInt id) = Some (k, t) ->
  Task.userId t = caller ->
  DELETE_task caller id st = (reply 204 BNone, with_tasks (delete k) 0 st).
Proof.
  intros Hsel Hown. pose proof Hsel as [Hk Ht]%select_by_id_Some.
  unfold DELETE_task, try_catch, getTask.
  rewrite (to_Z_not_NaN _ _ Hk), bind_gets, Hsel.
  unfold jsstring_eqb. rewrite bool_decide_eq_true_2 by done. simpl.
  unfold delete_by_id. by rewrite Hk.
Qed.

(** X15. Deleting an own task removes its row and nothing else: the sessions
    and the file records that refer to the task stay as they are, with the
    key of the task that is gone; deleting it again answers 404. *)
Theorem deleting_a_task_removes_only_its_row caller id st k t :
  select_by_id (tasks st) (parseInt id) = Some (k, t) ->
  Task.userId t = caller ->
  DELETE_task caller id st = (reply 204 BNone, with_tasks (delete k) 0 st)
  /\ pomodoroSessions (snd (DELETE_task caller id st)) = pomodoroSessions st
  /\ fileUploads (snd (DELETE_task caller id st)) = fileUploads st
  /\ DELETE_task caller id (with_tasks (delete k) 0 st)
     = (reply 404 (BMessage "Task not found"), with_tasks (delete k) 0 st).
Proof.
  intros Hsel Hown. pose proof Hsel as [Hk Ht]%select_by_id_Some.
  rewrite (DELETE_task_own caller id st k t Hsel Hown).
  split; [done|]. split; [done|]. split; [done|].
  unfold DELETE_task, try_catch, getTask. rewrite (to_Z_not_NaN _ _ Hk), bind_gets.
  assert (select_by_id (tasks (with_tasks (delete k) 0 st)) (parseInt id) = None) as ->;
    [|done].
  apply select_by_id_None. intros j Hj. rewrite Hk in Hj. injection Hj as <-.
  simpl. by rewrite lookup_delete_eq.
Qed.

(** *** Keys that are no numbers *)

(** X13. A route parameter that parseInt reads as NaN is answered
    with 400 by each of the six routes that name a row, before any row is
    looked up; the store stays as it is. *)
Theorem malformed_key_is_a_bad_request env caller req id st :
  route_param req = Some id ->
  Number.isNaN (parseInt id) = true ->
  status (fst (handle env caller req st)) = 400
  /\ snd (handle env caller req st) = st.
Proof.
  destruct req as [ | |b|i b|i| |b| | |i| |f t|i|i| |i| | | |tgt b]; try discriminate;
    intros [= ->] Hnan; unfold handle.
  - unfold PATCH_task, try_catch. by rewrite Hnan.
  - unfold DELETE_task, try_catch. by rewrite Hnan.
  - unfold PATCH_recommendation_dismiss, try_catch. by rewrite Hnan.
  - unfold GET_file_download, try_catch. by rewrite Hnan.
  - unfold DELETE_file, try_catch. by rewrite Hnan.
  - unfold PATCH_notification_read, try_catch. by rewrite Hnan.
Qed.

(** *** The bracketed part of an answer *)

Lemma span_decompose {A} (p : A -> bool) a b :
  Forall (fun x => p x = true) a ->
  match b with [] => True | x :: _ => p x = false end ->
  span p (a ++ b) = (a, b).
Proof.
  intros Ha Hb. induction Ha as [|x a Hx Ha IH]; simpl.
  - destruct b as [|y b]; [done|]. simpl. by rewrite Hb.
  - by rewrite Hx, IH.
Qed.

Lemma not_elem_of_Forall_neq (c : N) (l : list N) :
  c ∉ l <-> Forall (fun x => negb (N.eqb x c) = true) l.
Proof.
  rewrite Forall_forall. split.
  - intros Hn x Hx. apply negb_true_iff, N.eqb_neq. intros ->. by apply Hn.
  - intros Hall Hc. specialize (Hall c Hc). by rewrite N.eqb_refl in Hall.
Qed.

(** X21. The part of an answer that is parsed when the answer is no JSON
    runs from the first opening bracket to the last closing bracket after
    it, both included; there is such a part exactly when a closing bracket
    follows an opening one. *)
Theorem bracket_match_spec content m :
  bracket_match content = Some m <->
  exists pre mid post,
    content = pre ++ [91%N] ++ mid ++ [93%N] ++ post
    /\ (91%N ∉ pre) /\ (93%N ∉ post)
    /\ m = [91%N] ++ mid ++ [93%N].
Proof.
  unfold bracket_match. split.
  - pose proof (span_app (fun c => negb (N.eqb c 91)) content) as Happ.
    pose proof (span_fst_Forall (fun c => negb (N.eqb c 91)) content) as Hpre.
    destruct (snd (span (fun c => negb (N.eqb c 91)) content)) as [|open rest] eqn:Hs;
      [done|].
    apply span_snd_head in Hs. apply negb_false_iff, N.eqb_eq in Hs. subst open.
    pose proof (span_app (fun c => negb (N.eqb c 93)) (rev rest)) as Happ'.
    pose proof (span_fst_Forall (fun c => negb (N.eqb c 93)) (rev rest)) as Hpost.
    destruct (snd (span (fun c => negb (N.eqb c 93)) (rev rest))) as [|c cl] eqn:Hs';
      [done|].
    apply span_snd_head in Hs'. apply negb_false_iff, N.eqb_eq in Hs'. subst c.
    intros [= <-].
    set (pre := fst (span (fun c => negb (N.eqb c 91)) content)) in *.
    set (a := fst (span (fun c => negb (N.eqb c 93)) (rev rest))) in *.
    exists pre, (rev cl), (rev a).
    split; [|split; [|split]].
    + rewrite <- Happ. f_equal. simpl. f_equal.
      rewrite <- (rev_involutive rest), <- Happ'. rewrite rev_app_distr. simpl.
      by rewrite <- !app_assoc.
    + by apply not_elem_of_Forall_neq.
    + apply not_elem_of_Forall_neq. by apply Forall_rev.
    + done.
  - intros (pre & mid & post & -> & Hpre & Hpost & ->).
    rewrite (span_decompose _ pre ([91%N] ++ mid ++ [93%N] ++ post));
      [|by apply not_elem_of_Forall_neq|done].
    simpl.
    replace (rev (mid ++ 93%N :: post)) with (rev post ++ 93%N :: rev mid).
    2:{ rewrite rev_app_distr. simpl. by rewrite <- app_assoc. }
    rewrite (span_decompose _ (rev post) (93%N :: rev mid));
      [|by apply Forall_rev, not_elem_of_Forall_neq|done].
    simpl. by rewrite rev_involutive.
Qed.

(** *** Candidates that fail *)



(** *** A task from creation to deletion *)


(** *** Raising the flags *)

Lemma PATCH_notification_read_own caller id st k n :
  select_by_id (notifications st) (parseInt id) = Some (k, n) ->
  Notification.userId n = caller ->
  PATCH_notification_read caller id st
  = (reply 200 BSuccess, with_notifications (alter set_read k) 0 st).
Proof.
  intros Hsel Hown. pose proof Hsel as [Hk Hn]%select_by_id_Some.
  unfold PATCH_notification_read, try_catch, getNotifications.
  rewrite (to_Z_not_NaN _ _ Hk), bind_gets.
  pose proof (find_own_row Notification.userId Notification.createdAt
                (notifications st) caller (parseInt id)) as Hfind.
  destruct (List.find _ _); [|by destruct (Hfind k n Hsel)].
  simpl. by rewrite Hk.
Qed.

Lemma PATCH_recommendation_dismiss_own caller id st k r :
  select_by_id (studyRecommendations st) (parseInt id) = Some (k, r) ->
  StudyRecommendation.userId r = caller ->
  PATCH_recommendation_dismiss caller id st
  = (reply 200 BSuccess, with_studyRecommendations (alter set_dismissed k) 0 st).
Proof.
  intros Hsel Hown. pose proof Hsel as [Hk Hn]%select_by_id_Some.
  unfold PATCH_recommendation_dismiss, try_catch, getRecommendations.
  rewrite (to_Z_not_NaN _ _ Hk), bind_gets.
  pose proof (find_own_row StudyRecommendation.userId StudyRecommendation.createdAt
                (studyRecommendations st) caller (parseInt id)) as Hfind.
  destruct (List.find _ _); [|by destruct (Hfind k r Hsel)].
  simpl. by rewrite Hk.
Qed.

Lemma alter_twice {A} (f : A -> A) (t : gmap Z A) k :
  (forall a, f (f a) = f a) -> alter f k (alter f k t) = alter f k t.
Proof.
  intros Hf. apply map_eq. intros j.
  destruct (decide (j = k)) as [->|Hne].
  - rewrite !lookup_alter_eq. destruct (t !! k); simpl; [|done]. by rewrite Hf.
  - by rewrite !lookup_alter_ne.
Qed.

(** X24. Marking an own notification as read raises the flag of that row and
    changes no other row; doing it again changes no row at all. *)
Theorem own_notification_is_marked_read caller id st k n :
  select_by_id (notifications st) (parseInt id) = Some (k, n) ->
  Notification.userId n = caller ->
  let st' := snd (PATCH_notification_read caller id st) in
  fst (PATCH_notification_read caller id st) = reply 200 BSuccess
  /\ notifications st' !! k = Some (set_read n)
  /\ (forall j, j <> k -> notifications st' !! j = notifications st !! j)
  /\ notifications (snd (PATCH_notification_read caller id st')) = notifications st'.
Proof.
  intros Hsel Hown st'. pose proof Hsel as [Hk Hn]%select_by_id_Some.
  subst st'. rewrite (PATCH_notification_read_own caller id st k n Hsel Hown). simpl.
  split; [done|]. split; [by rewrite lookup_alter_eq, Hn|].
  split; [intros j Hj; by rewrite lookup_alter_ne|].
  rewrite (PATCH_notification_read_own caller id _ k (set_read n)); [| |done].
  - simpl. by apply alter_twice.
  - apply select_by_id_Some. split; [done|]. simpl. by rewrite lookup_alter_eq, Hn.
Qed.

(** X23. Dismissing an own recommendation raises the flag of that row and
    changes no other row; doing it again changes no row at all. *)
Theorem own_recommendation_is_dismissed caller id st k r :
  select_by_id (studyRecommendations st) (parseInt id) = Some (k, r) ->
  StudyRecommendation.userId r = caller ->
  let st' := snd (PATCH_recommendation_dismiss caller id st) in
  fst (PATCH_recommendation_dismiss caller id st) = reply 200 BSuccess
  /\ studyRecommendations st' !! k = Some (set_dismissed r)
  /\ (forall j, j <> k -> studyRecommendations st' !! j = studyRecommendations st !! j)
  /\ studyRecommendations (snd (PATCH_recommendation_dismiss caller id st'))
     = studyRecommendations st'.
Proof.
  intros Hsel Hown st'. pose proof Hsel as [Hk Hn]%select_by_id_Some.
  subst st'. rewrite (PATCH_recommendation_dismiss_own caller id st k r Hsel Hown). simpl.
  split; [done|]. split; [by rewrite lookup_alter_eq, Hn|].
  split; [intros j Hj; by rewrite lookup_alter_ne|].
  rewrite (PATCH_recommendation_dismiss_own caller id _ k (set_dismissed r)); [| |done].
  - simpl. by apply alter_twice.
  - apply select_by_id_Some. split; [done|]. simpl. by rewrite lookup_alter_eq, Hn.
Qed.

(** *** Empty texts *)

Lemma optional_string_member lo hi v s t :
  z.optional (z.string lo hi) v = Some t -> v = JStr s -> t = just s.
Proof.
  intros H ->. unfold z.optional, z.string in H.
  destruct (_ && _); simpl in H; [|done]. by injection H as <-.
Qed.

Lemma taskCreateSchema_texts b data :
  taskCreateSchema b = Some data ->
  (forall s, body_member b "description" = JStr s -> TaskCreate.description data = just s)
  /\ (forall s, body_member b "subject" = JStr s -> TaskCreate.subject data = just s)
  /\ (forall s, body_member b "dueDate" = JStr s -> TaskCreate.dueDate data = just s).
Proof.
  destruct b as [| | | | | |o]; try discriminate.
  unfold taskCreateSchema. intros Hs.
  apply bind_Some in Hs as (title & Htitle & Hs).
  apply bind_Some in Hs as (description & Hdescription & Hs).
  apply bind_Some in Hs as (subject & Hsubject & Hs).
  apply bind_Some in Hs as (priority & Hpriority & Hs).
  apply bind_Some in Hs as (status & Hstatus & Hs).
  apply bind_Some in Hs as (dueDate & HdueDate & Hs).
  apply bind_Some in Hs as (est & Hest & Hs).
  injection Hs as <-. simpl.
  split; [|split]; intros s Hm.
  - rewrite Hm in Hdescription. unfold z.optional', z.nullable in Hdescription.
    by eapply optional_string_member.
  - rewrite Hm in Hsubject. unfold z.optional', z.nullable in Hsubject.
    by eapply optional_string_member.
  - rewrite Hm in HdueDate. unfold z.optional', z.nullable in HdueDate.
    by eapply optional_string_member.
Qed.

Lemma taskUpdateSchema_texts b data :
  taskUpdateSchema b = Some data ->
  (forall s, body_member b "description" = JStr s -> TaskUpdate.description data = just s)
  /\ (forall s, body_member b "subject" = JStr s -> TaskUpdate.subject data = just s)
  /\ (forall s, body_member b "dueDate" = JStr s -> TaskUpdate.dueDate data = just s).
Proof.
  destruct b as [| | | | | |o]; try discriminate.
  unfold taskUpdateSchema. intros Hs.
  apply bind_Some in Hs as (title & Htitle & Hs).
  apply bind_Some in Hs as (description & Hdescription & Hs).
  apply bind_Some in Hs as (subject & Hsubject & Hs).
  apply bind_Some in Hs as (priority & Hpriority & Hs).
  apply bind_Some in Hs as (status & Hstatus & Hs).
  apply bind_Some in Hs as (dueDate & HdueDate & Hs).
  apply bind_Some in Hs as (est & Hest & Hs).
  injection Hs as <-. simpl.
  split; [|split]; intros s Hm.
  - rewrite Hm in Hdescription. unfold z.optional', z.nullable in Hdescription.
    by eapply optional_string_member.
  - rewrite Hm in Hsubject. unfold z.optional', z.nullable in Hsubject.
    by eapply optional_string_member.
  - rewrite Hm in HdueDate. unfold z.optional', z.nullable in HdueDate.
    by eapply optional_string_member.
Qed.

(** X16. On creation an empty description, subject or due date is stored as
    null. *)
Theorem empty_text_is_null_on_create env caller b st k task :
  fst (POST_tasks env caller b st) = reply 201 (BTask (Some (k, task))) ->
  tasks (snd (POST_tasks env caller b st)) !! k = Some task
  /\ (body_member b "description" = JStr [] -> Task.description task = None)
  /\ (body_member b "subject" = JStr [] -> Task.subject task = None)
  /\ (body_member b "dueDate" = JStr [] -> Task.dueDate task = None).
Proof.
  unfold POST_tasks, try_catch.
  destruct (taskCreateSchema b) as [data|] eqn:Hs; [|done].
  apply taskCreateSchema_texts in Hs as (Hd & Hsu & Hdu).
  rewrite bind_run.
  match goal with |- context [createTask env ?d st] =>
    pose proof (createTask_run env d st) as Hrun;
    destruct (createTask env d st) as [[[k' t]|] st'] end; simpl in *; [|done].
  destruct Hrun as (due & est & -> & -> & Hdue & _ & _ & _ & Hde & Hsb & _ & _ & Hdd & _).
  intros [= <- <-]. simpl. split; [by rewrite lookup_insert_eq|].
  split; [|split]; intros Hm.
  - by rewrite Hde, (Hd _ Hm).
  - by rewrite Hsb, (Hsu _ Hm).
  - rewrite (Hdu _ Hm) in Hdue. simpl in Hdue. injection Hdue as <-. by rewrite Hdd.
Qed.

(** X17. On update an empty description or subject is stored as the empty
    text, not as null; an empty due date is stored as null, as on
    creation. *)
Theorem empty_text_is_kept_on_update env caller id b st k new :
  fst (PATCH_task env caller id b st) = reply 200 (BTask (Some (k, new))) ->
  tasks (snd (PATCH_task env caller id b st)) !! k = Some new
  /\ (body_member b "description" = JStr [] -> Task.description new = Some [])
  /\ (body_member b "subject" = JStr [] -> Task.subject new = Some [])
  /\ (body_member b "dueDate" = JStr [] -> Task.dueDate new = None).
Proof.
  intros H.
  destruct (select_by_id (tasks st) (parseInt id)) as [[k0 old]|] eqn:Hsel.
  2:{ exfalso. revert H. unfold PATCH_task, try_catch, getTask.
      destruct (Number.isNaN _); [done|]. by rewrite bind_gets, Hsel. }
  rewrite (PATCH_task_found env caller id b st k0 old Hsel) in *.
  destruct (negb _); [done|].
  destruct (taskUpdateSchema b) as [data|] eqn:Hs; [|done].
  apply taskUpdateSchema_texts in Hs as (Hd & Hsu & Hdu).
  unfold try_catch in *. rewrite bind_run in *.
  pose proof (updateTask_run env (parseInt id) (patch_of env data) st) as Hrun.
  destruct (updateTask env (parseInt id) (patch_of env data) st)
    as [[[[k' t]|]|] st']; simpl in *; try done.
  destruct Hrun as (old' & due & est & _ & -> & Hdue & _ & _ & _ & _ & _ & Hde & Hsb
                    & Hdd & _).
  injection H as <- <-. simpl. split; [by rewrite lookup_insert_eq|].
  split; [|split]; intros Hm.
  - by rewrite Hde, (Hd _ Hm).
  - by rewrite Hsb, (Hsu _ Hm).
  - rewrite (Hdu _ Hm) in Hdue. simpl in Hdue. injection Hdue as <-. by rewrite Hdd.
Qed.

(** *** The admin statistics *)




(** ** The pages *)

Lemma count_partition {A} (p q r : A -> bool) (l : list A) :
  (forall x, (p x = true /\ q x = false /\ r x = false)
             \/ (p x = false /\ q x = true /\ r x = false)
             \/ (p x = false /\ q x = false /\ r x = true)) ->
  (length (List.filter p l) + length (List.filter q l) + length (List.filter r l)
   = length l)%nat.
Proof.
  intros H. induction l as [|x l IH]; [done|]. simpl.
  destruct (H x) as [(-> & -> & ->)|[(-> & -> & ->)|(-> & -> & ->)]]; simpl; lia.
Qed.

(** X26. On the dashboard the tasks counted as completed, in progress and
    pending are all the tasks; the status chart has no slice exactly when
    there is no task; and the bars of the priority chart add up to the
    tasks that are not completed. *)
Theorem dashboard_counts_add_up data :
  (DashboardPage.completedTasks data + DashboardPage.inProgressTasks data + DashboardPage.pendingTasks data
   = DashboardPage.totalTasks data)%nat
  /\ (DashboardPage.statusData data = [] <-> DashboardPage.totalTasks data = 0%nat)
  /\ (foldr (fun d n => snd d + n) 0 (DashboardPage.priorityData data) + DashboardPage.completedTasks data
      = DashboardPage.totalTasks data)%nat.
Proof.
  assert (Hsum : (DashboardPage.completedTasks data + DashboardPage.inProgressTasks data + DashboardPage.pendingTasks data
                  = DashboardPage.totalTasks data)%nat).
  { destruct data as [l|]; [|done]. unfold DashboardPage.completedTasks, DashboardPage.inProgressTasks,
      DashboardPage.pendingTasks, DashboardPage.totalTasks, count_where.
    apply count_partition. intros [k t]. simpl.
    destruct (Task.status t); auto. }
  split; [done|]. split.
  - unfold DashboardPage.statusData. simpl.
    destruct (DashboardPage.completedTasks data) as [|c]; destruct (DashboardPage.inProgressTasks data) as [|i];
      destruct (DashboardPage.pendingTasks data) as [|p]; simpl; split; intros H; try done;
      exfalso; rewrite H in Hsum; discriminate.
  - clear Hsum. destruct data as [l|]; [|done].
    unfold DashboardPage.priorityData, DashboardPage.completedTasks, DashboardPage.totalTasks, count_where. simpl.
    induction l as [|[k t] l IH]; [done|]. simpl.
    destruct (Task.priority t), (Task.status t); simpl; lia.
Qed.

Lemma sum_completed_filter (l : list (row PomodoroSession.t)) acc :
  fold_left (fun sum s => sum + PomodoroSession.duration (snd s))
    (List.filter (fun s => PomodoroSession.completed (snd s)) l) acc
  = fold_left
      (fun sum s => sum + (if PomodoroSession.completed (snd s)
                           then PomodoroSession.duration (snd s) else 0))
      l acc.
Proof.
  revert acc. induction l as [|s l IH]; intros acc; [done|]. simpl.
  destruct (PomodoroSession.completed (snd s)); simpl; [apply IH|].
  rewrite Z.add_0_r. apply IH.
Qed.

(** X27. The figures the server puts into the prompt for a caller are the
    figures the dashboard of that caller shows from the lists the server
    answers with: the number of tasks, of completed and of pending tasks,
    and the minutes studied. *)
Theorem prompt_figures_are_the_dashboard_figures env caller st l s :
  fst (GET_tasks caller st) = reply 200 (BTasks l) ->
  fst (GET_pomodoro caller st) = reply 200 (BSessions s) ->
  exists p,
    completion_for env caller st = chat_completions_create env p
    /\ Prompt.totalTasks p = DashboardPage.totalTasks (Some l)
    /\ Prompt.completedTasks p = DashboardPage.completedTasks (Some l)
    /\ Prompt.pendingTasks p = DashboardPage.pendingTasks (Some l)
    /\ Prompt.totalStudyMin p = DashboardPage.totalStudyMinutes (Some s).
Proof.
  intros [= <-] [= <-]. eexists. split; [reflexivity|]. simpl.
  split; [done|]. split; [done|]. split; [done|]. apply sum_completed_filter.
Qed.

(** X25. Marking all as read raises the flag of every notification of the
    caller and leaves every other notification as it is; the list of the
    caller then holds no unread one, so that the page counts zero. *)
Theorem read_all_marks_the_callers_notifications caller st :
  fst (PATCH_notifications_read_all caller st) = reply 200 BSuccess
  /\ (forall k n, notifications st !! k = Some n ->
        notifications (snd (PATCH_notifications_read_all caller st)) !! k
        = Some (if bool_decide (Notification.userId n = caller) then set_read n else n))
  /\ (forall l,
        fst (GET_notifications caller (snd (PATCH_notifications_read_all caller st)))
        = reply 200 (BNotifications l) ->
        NotificationsPage.unreadCount (Some l) = 0%nat).
Proof.
  split; [done|]. split.
  { intros k n Hk. simpl. by rewrite lookup_fmap, Hk. }
  intros l [= <-]. unfold NotificationsPage.unreadCount, count_where.
  apply length_zero_iff_nil.
  match goal with |- List.filter ?p ?l = [] =>
    assert (Hall : forall x, In x l -> p x = false) end.
  { intros [k n] Hin. apply elem_of_select_by_user in Hin as [Hk Hu]. simpl in *.
    rewrite lookup_fmap in Hk.
    destruct (notifications st !! k) as [n0|]; simpl in Hk; [|done].
    injection Hk as <-. unfold jsstring_eqb in *. by case_bool_decide. }
  match goal with |- List.filter ?p ?l = [] =>
    induction l as [|x l' IH]; [done|] end.
  simpl. rewrite Hall by (by left). apply IH. intros y Hy. apply Hall. by right.
Qed.

(** X28. After an own recommendation was dismissed, the page lists it no
    more: among the recommendations it shows are exactly the other
    recommendations of the caller that are not dismissed. *)
Theorem dismissed_recommendation_leaves_the_page caller id st k r l :
  select_by_id (studyRecommendations st) (parseInt id) = Some (k, r) ->
  StudyRecommendation.userId r = caller ->
  fst (GET_recommendations caller (snd (PATCH_recommendation_dismiss caller id st)))
  = reply 200 (BRecommendations l) ->
  forall j r',
    In (j, r') (AIStudyPage.activeRecs (Some l)) <->
    j <> k /\ studyRecommendations st !! j = Some r'
    /\ StudyRecommendation.userId r' = caller
    /\ StudyRecommendation.dismissed r' = false.
Proof.
  intros Hsel Hown. pose proof Hsel as [_ Hk]%select_by_id_Some.
  rewrite (PATCH_recommendation_dismiss_own caller id st k r Hsel Hown).
  intros [= <-] j r'. unfold AIStudyPage.activeRecs.
  rewrite filter_In, elem_of_select_by_user. simpl.
  rewrite negb_true_iff.
  destruct (decide (j = k)) as [->|Hne].
  - rewrite lookup_alter_eq, Hk. simpl. split; [|by intros [[] _]].
    intros [[[= <-] _] Hd]. done.
  - rewrite lookup_alter_ne by done. split; [by intros [[? ?] ?]|by intros (_ & ? & ? & ?)].
Qed.

(** X29. The sidebar shows the administration menu exactly to the callers
    whom the admin routes do not refuse: with the profile the server
    answers with, the menu is shown when the two admin views answer 200,
    and hidden when every admin route answers 403. *)
Theorem admin_menu_matches_the_gate env caller st p :
  fst (GET_profile caller st) = reply 200 (BProfile caller (Some p)) ->
  let st' := snd (GET_profile caller st) in
  (AppSidebar.isAdmin (Some p) = true ->
   status (fst (GET_admin_stats caller st')) = 200
   /\ status (fst (GET_admin_users caller st')) = 200)
  /\ (AppSidebar.isAdmin (Some p) = false ->
      forall req, admin_only req = true ->
        status (fst (handle env caller req st')) = 403).
Proof.
  intros Hp st'.
  assert (Hst : userProfiles st' !! caller = Some p).
  { subst st'. revert Hp. unfold GET_profile, try_catch, getProfile. rewrite bind_gets.
    destruct (userProfiles st !! caller) as [q|] eqn:E.
    - simpl. by intros [= <-].
    - unfold upsertProfile, getProfile. cbv zeta. cbn [InsertUserProfile.userId].
      rewrite bind_run, bind_gets, E. simpl. intros [= <-]. by rewrite lookup_insert_eq. }
  assert (Hna : not_admin (userProfiles st' !! caller) = negb (AppSidebar.isAdmin (Some p))).
  { by rewrite Hst. }
  split.
  - intros Ha. rewrite Ha in Hna. simpl in Hna.
    unfold GET_admin_stats, GET_admin_users, try_catch, getProfile.
    rewrite !bind_gets, Hna. done.
  - intros Ha req Hreq. rewrite Ha in Hna. simpl in Hna.
    destruct req as [ | |b|i b|i| |b| | |i| |f t|i|i| |i| | | |tgt b]; try discriminate;
      unfold handle.
    + unfold GET_admin_stats, try_catch, getProfile. by rewrite bind_gets, Hna.
    + unfold GET_admin_users, try_catch, getProfile. by rewrite bind_gets, Hna.
    + unfold PATCH_admin_user_role, try_catch, getProfile. by rewrite bind_gets, Hna.
Qed.

(** ** The further properties on concrete requests *)

Lemma bob_is_not_alice : bob <> alice.
Proof. intros E. vm_compute in E. discriminate. Qed.

Lemma notes_pdf_accepted : accepted notes_pdf.
Proof.
  split; [apply (bool_decide_unpack _); vm_compute; exact I|].
  vm_compute. discriminate.
Qed.

Lemma reading_changes_nothing_witness :
  snd (handle (host "[]") alice (GetFileDownload (js "1")) essay_store) = essay_store.
Proof. apply reading_changes_nothing. reflexivity. Defined.

Lemma requests_leave_the_rows_of_others_witness :
  wf flagged_store
  /\ notifications
       (run [ (host "[]", alice, PatchNotificationsReadAll);
              (host "[]", alice, PatchNotificationRead (js "1"));
              (host "[]", alice, PostTasks (body_of "{'title':'Essay'}"));
              (host "[]", alice, DeleteTask (js "1")) ]
          flagged_store) !! 1
     = Some (Notification.mk bob (js "Deadline") (js "Essay due tomorrow")
               (js "deadline") true 1699999999000).
Proof.
  assert (Hwf : wf flagged_store) by (apply (bool_decide_unpack _); vm_compute; exact I).
  split; [exact Hwf|].
  destruct (requests_leave_the_rows_of_others
              [ (host "[]", alice, PatchNotificationsReadAll);
                (host "[]", alice, PatchNotificationRead (js "1"));
                (host "[]", alice, PostTasks (body_of "{'title':'Essay'}"));
                (host "[]", alice, DeleteTask (js "1")) ]
              alice flagged_store Hwf) as (_ & _ & _ & _ & Hn).
  - repeat constructor.
  - apply Hn; [exact bob_is_not_alice|vm_compute; reflexivity].
Defined.

Lemma keys_are_never_reused_witness :
  wf essay_store
  /\ identities_kept essay_store
       (run [ (host "[]", alice, DeleteTask (js "1"));
              (host "[]", bob, PostTasks (body_of "{'title':'Reading'}")) ]
          essay_store).
Proof.
  assert (Hwf : wf essay_store) by (apply (bool_decide_unpack _); vm_compute; exact I).
  split; [exact Hwf|]. by apply keys_are_never_reused.
Defined.

Lemma sessions_are_never_changed_or_removed_witness :
  wf session_store
  /\ exists s,
       pomodoroSessions session_store !! 1 = Some s
       /\ pomodoroSessions
            (run [ (host "[]", alice,
                    PostPomodoro
                      (body_of "{'duration':50,'breakDuration':10,'completed':false}"));
                   (host "[]", bob, DeleteTask (js "1")) ]
               session_store) !! 1 = Some s.
Proof.
  assert (Hwf : wf session_store) by (apply (bool_decide_unpack _); vm_compute; exact I).
  split; [exact Hwf|]. eexists. split; [vm_compute; reflexivity|].
  apply sessions_are_never_changed_or_removed; [exact Hwf|vm_compute; reflexivity].
Defined.

Lemma flagged_rows_keep_their_content_witness :
  wf flagged_store
  /\ dom (notifications
            (run [ (host "[{}]", alice, PostRecommendationsGenerate);
                   (host "[]", bob, PatchNotificationsReadAll) ]
               flagged_store))
     = dom (notifications flagged_store).
Proof.
  assert (Hwf : wf flagged_store) by (apply (bool_decide_unpack _); vm_compute; exact I).
  split; [exact Hwf|].
  by destruct (flagged_rows_keep_their_content
                 [ (host "[{}]", alice, PostRecommendationsGenerate);
                   (host "[]", bob, PatchNotificationsReadAll) ]
                 flagged_store Hwf) as (_ & _ & ?).
Defined.

Lemma stored_rows_stay_valid_witness :
  store_valid empty_store
  /\ store_valid
       (run [ (host "[]", alice, PostTasks (body_of "{'title':'Essay'}"));
              (host "[]", alice, PatchTask (js "1") (body_of "{'estimatedMinutes':90}"));
              (host "[]", alice, PostFilesUpload (Some notes_pdf) None) ]
          empty_store).
Proof.
  assert (Hv : store_valid empty_store).
  { split; [|split; [|split]]; apply map_Forall_empty. }
  split; [exact Hv|]. by apply stored_rows_stay_valid.
Defined.

Lemma roles_change_only_through_admins_witness :
  not_admin (userProfiles admin_store !! bob) = true
  /\ not_admin
       (userProfiles
          (run [ (host "[]", bob, PatchAdminUserRole bob (body_of "{'role':'admin'}"));
                 (host "[]", carol, GetProfile);
                 (host "[]", carol, PatchAdminUserRole carol (body_of "{'role':'admin'}")) ]
             admin_store) !! bob) = true.
Proof.
  split; [reflexivity|].
  destruct (roles_change_only_through_admins
              [ (host "[]", bob, PatchAdminUserRole bob (body_of "{'role':'admin'}"));
                (host "[]", carol, GetProfile);
                (host "[]", carol, PatchAdminUserRole carol (body_of "{'role':'admin'}")) ]
              admin_store) as [_ H].
  - repeat constructor.
  - by rewrite H.
Defined.

Lemma admin_routes_refuse_others_witness :
  handle (host "[]") bob (PatchAdminUserRole bob (body_of "{'role':'admin'}")) admin_store
  = (reply 403 (BMessage "Access denied"), admin_store).
Proof. apply admin_routes_refuse_others; reflexivity. Defined.



Lemma malformed_key_is_a_bad_request_witness :
  status (fst (handle (host "[]") alice (DeleteTask (js "abc")) essay_store)) = 400
  /\ snd (handle (host "[]") alice (DeleteTask (js "abc")) essay_store) = essay_store.
Proof.
  apply (malformed_key_is_a_bad_request (host "[]") alice (DeleteTask (js "abc")) (js "abc"));
    reflexivity.
Defined.


Lemma deleting_a_task_removes_only_its_row_witness :
  fst (DELETE_task alice (js "1") essay_store) = reply 204 BNone
  /\ fst (DELETE_task alice (js "1") (snd (DELETE_task alice (js "1") essay_store)))
     = reply 404 (BMessage "Task not found").
Proof.
  edestruct (deleting_a_task_removes_only_its_row alice (js "1") essay_store 1)
    as (H1 & _ & _ & H4).
  - vm_compute. reflexivity.
  - reflexivity.
  - split; [by rewrite H1|]. rewrite H1. cbn [snd]. by rewrite H4.
Defined.

Lemma empty_text_is_null_on_create_witness :
  exists task,
    tasks (snd (POST_tasks (host "[]") alice
                  (body_of "{'title':'Essay','description':'','dueDate':''}")
                  empty_store)) !! 1 = Some task
    /\ Task.description task = None
    /\ Task.dueDate task = None.
Proof.
  edestruct (empty_text_is_null_on_create (host "[]") alice
               (body_of "{'title':'Essay','description':'','dueDate':''}") empty_store)
    as (H1 & H2 & _ & H4).
  - vm_compute. reflexivity.
  - eexists. split; [exact H1|]. split; [by apply H2|by apply H4].
Defined.

Lemma empty_text_is_kept_on_update_witness :
  exists task,
    tasks (snd (PATCH_task (host "[]") alice (js "1") (body_of "{'description':''}")
                  essay_store)) !! 1 = Some task
    /\ Task.description task = Some [].
Proof.
  edestruct (empty_text_is_kept_on_update (host "[]") alice (js "1")
               (body_of "{'description':''}") essay_store)
    as (H1 & H2 & _).
  - vm_compute. reflexivity.
  - eexists. split; [exact H1|]. by apply H2.
Defined.

Lemma rejected_upload_stores_nothing_witness :
  snd (POST_files_upload (host "[]") alice (Some backup_zip) None empty_store)
  = empty_store.
Proof.
  apply rejected_upload_stores_nothing. intros [Hm _]. vm_compute in Hm.
  repeat (apply elem_of_cons in Hm as [Hm|Hm]; [discriminate|]).
  by apply elem_of_nil in Hm.
Defined.

Lemma refused_upload_leaves_the_file_witness :
  status (fst (POST_files_upload (host "[]") alice (Some notes_pdf) (Some (js "7"))
                 empty_store)) = 403
  /\ fileUploads (snd (POST_files_upload (host "[]") alice (Some notes_pdf)
                         (Some (js "7")) empty_store)) = ∅
  /\ stored_filename (host "[]") (js "notes.pdf") = js "1700000000000-123456789.pdf"
  /\ (stored_filename (host "[]") (js "notes.pdf")
      ∈ uploads (snd (POST_files_upload (host "[]") alice (Some notes_pdf)
                        (Some (js "7")) empty_store))).
Proof.
  assert (Hs : status (fst (POST_files_upload (host "[]") alice (Some notes_pdf)
                              (Some (js "7")) empty_store)) = 403)
    by (vm_compute; reflexivity).
  split; [exact Hs|].
  rewrite (refused_upload_leaves_the_file (host "[]") alice notes_pdf (Some (js "7"))
             empty_store notes_pdf_accepted) by (rewrite Hs; discriminate).
  split; [reflexivity|]. split; [vm_compute; reflexivity|].
  cbn [uploads with_uploads]. by apply elem_of_union_l, elem_of_singleton_2.
Defined.



Lemma own_recommendation_is_dismissed_witness :
  exists r,
    studyRecommendations advice_store !! 1 = Some r
    /\ StudyRecommendation.dismissed r = false
    /\ studyRecommendations
         (snd (PATCH_recommendation_dismiss alice (js "1") advice_store)) !! 1
       = Some (set_dismissed r).
Proof.
  eexists. split; [vm_compute; reflexivity|]. split; [reflexivity|].
  edestruct (own_recommendation_is_dismissed alice (js "1") advice_store 1)
    as (_ & H & _).
  - vm_compute. reflexivity.
  - reflexivity.
  - exact H.
Defined.

Lemma own_notification_is_marked_read_witness :
  exists n,
    notifications inbox_store !! 1 = Some n
    /\ Notification.read n = false
    /\ notifications (snd (PATCH_notification_read alice (js "1") inbox_store)) !! 1
       = Some (set_read n)
    /\ notifications (snd (PATCH_notification_read alice (js "1") inbox_store)) !! 2
       = notifications inbox_store !! 2.
Proof.
  eexists. split; [vm_compute; reflexivity|]. split; [reflexivity|].
  edestruct (own_notification_is_marked_read alice (js "1") inbox_store 1)
    as (_ & H2 & H3 & _).
  - vm_compute. reflexivity.
  - reflexivity.
  - split; [exact H2|]. by apply H3.
Defined.

Lemma prompt_figures_are_the_dashboard_figures_witness :
  exists p,
    completion_for (host "[]") alice essay_store = chat_completions_create (host "[]") p
    /\ Prompt.totalTasks p = 1%nat
    /\ Prompt.pendingTasks p = 1%nat.
Proof.
  edestruct (prompt_figures_are_the_dashboard_figures (host "[]") alice essay_store)
    as (p & Hp & Ht & _ & Hpe & _).
  - reflexivity.
  - reflexivity.
  - exists p. split; [exact Hp|]. split; [by rewrite Ht|by rewrite Hpe].
Defined.

Lemma dismissed_recommendation_leaves_the_page_witness :
  exists r l,
    studyRecommendations advice_store !! 1 = Some r
    /\ fst (GET_recommendations alice
              (snd (PATCH_recommendation_dismiss alice (js "1") advice_store)))
       = reply 200 (BRecommendations l)
    /\ ~ In (1, set_dismissed r) (AIStudyPage.activeRecs (Some l)).
Proof.
  set (r := StudyRecommendation.mk alice (js "Plan the week")
              (js "Keep up the great work!") JNull (JStr (js "study_tip"))
              (JStr (js "medium")) false 1700000000001).
  set (l := select_by_user StudyRecommendation.userId StudyRecommendation.createdAt
              (studyRecommendations
                 (snd (PATCH_recommendation_dismiss alice (js "1") advice_store)))
              alice).
  assert (Hsel : select_by_id (studyRecommendations advice_store) (parseInt (js "1"))
                 = Some (1, r)) by (vm_compute; reflexivity).
  exists r, l. split; [vm_compute; reflexivity|]. split; [reflexivity|].
  intros Hin.
  pose proof (dismissed_recommendation_leaves_the_page alice (js "1") advice_store 1 r l
                Hsel eq_refl eq_refl 1 (set_dismissed r)) as [H _].
  by destruct (H Hin) as [Hne _].
Defined.

Lemma admin_menu_matches_the_gate_witness :
  exists p,
    fst (GET_profile alice admin_store) = reply 200 (BProfile alice (Some p))
    /\ AppSidebar.isAdmin (Some p) = true
    /\ status (fst (GET_admin_stats alice (snd (GET_profile alice admin_store)))) = 200.
Proof.
  eexists. split; [reflexivity|]. split; [reflexivity|].
  edestruct (admin_menu_matches_the_gate (host "[]") alice admin_store) as [H _].
  - reflexivity.
  - by apply H.
Defined.

Lemma upload_reference_is_checked_witness :
  status (fst (POST_files_upload (host "[]") bob (Some notes_pdf) (Some (js "1"))
                 essay_store)) = 403
  /\ fileUploads (snd (POST_files_upload (host "[]") bob (Some notes_pdf) (Some (js "1"))
                         essay_store))
     = fileUploads essay_store.
Proof.
  assert (Hrange : - 2 ^ 31 <= 1 < 2 ^ 31) by lia.
  pose proof (upload_reference_is_checked (host "[]") bob notes_pdf (js "1") essay_store 1
                notes_pdf_accepted ltac:(discriminate) eq_refl Hrange) as H.
  cbv zeta in H.
  replace (tasks essay_store !! 1)
    with (Some (Task.mk alice (js "Essay") None None high pending None None None
                  1700000000001)) in H by (vm_compute; reflexivity).
  rewrite bool_decide_eq_false_2 in H by exact alice_is_not_bob.
  exact H.
Defined.
